(** * SpotifyMCP2: the authenticated-call executor

    A shallow embedding of the two TypeScript modules that make up the core
    of the server:

    - [src/auth.ts]        (class [SpotifyAuth]: the OAuth2 token lifecycle),
    - [src/spotify_api.ts] (class [SpotifyApiClient]: [executeWithRetry] and
      [handleError]),

    and of what is built on them: the methods of the client, the tools
    ([src/tools]) and the request handlers of the server ([src/index.ts]).

    Every asynchronous method is modelled as a computation of the monad [M]
    below: it reads and updates the state of the [SpotifyAuth] object,
    consults the outside world (the clock, the remote token endpoint, the
    wrapped operation) through oracles, may throw, and records the calls it
    makes as a list of events in chronological order.

    JavaScript numbers are modelled as integers ([Z]): the retry policy, the
    clock and the durations are integers up to [2 ^ 53] in absolute value,
    on which the arithmetic of doubles is that of integers, and a number
    read from a header is rounded to the nearest double ([Js.toNumber]).
    [NaN] appears only as the result of [parseInt] and is modelled by
    [None].  Strings are the bytes of their UTF-8 encoding.  Non-integral
    numbers, [Infinity], concurrency between several calls and the text
    written to [console.log] are outside the model. *)

From Stdlib Require Import ZArith List String Ascii Bool Lia DecimalString.
Import ListNotations.
Local Open Scope string_scope.
Local Open Scope Z_scope.
Local Open Scope list_scope.

Infix "+++" := String.append (at level 60, right associativity).

(* ===================================================================== *)
(** ** JavaScript value conventions *)
(* ===================================================================== *)

Module Js.

(** Truthiness of a value that is a string or [undefined]. *)
Definition truthyString (v : option string) : bool :=
  match v with
  | Some EmptyString => false
  | Some _ => true
  | None => false
  end.

(** Truthiness of a value that is a number or [undefined]. *)
Definition truthyNumber (v : option Z) : bool :=
  match v with
  | Some n => negb (n =? 0)
  | None => false
  end.

(** [a || b] on strings and on numbers. *)
Definition orString (a b : option string) : option string :=
  if truthyString a then a else b.

Definition orNumber (a b : option Z) : option Z :=
  if truthyNumber a then a else b.

(** [v === n] for a number literal [n]. *)
Definition strictEq (v : option Z) (n : Z) : bool :=
  match v with
  | Some m => m =? n
  | None => false
  end.

(** [a !== b] on values that are strings or [undefined]. *)
Definition strictNeqString (a b : option string) : bool :=
  match a, b with
  | Some x, Some y => negb (String.eqb x y)
  | None, None => false
  | _, _ => true
  end.

(** *** Strings

    A string is written as the bytes of its UTF-8 encoding, which is also
    how a string literal of this file is read: a character outside ASCII
    takes two or three bytes.  Equality, concatenation and emptiness of
    strings are those of their encodings, and so are [startsWith] and
    [includes] for a text to find that is made of ASCII characters. *)

(** The code points that [String.prototype.trim] and [parseInt] strip, the
    WhiteSpace and LineTerminator characters of ECMAScript: U+0009 to
    U+000D, U+0020, U+00A0, U+1680, U+2000 to U+200A, U+2028, U+2029,
    U+202F, U+205F, U+3000 and U+FEFF. *)
Definition whiteSpaceCodePoints : list Z :=
  [9; 10; 11; 12; 13; 32; 160; 5760;
   8192; 8193; 8194; 8195; 8196; 8197; 8198; 8199; 8200; 8201; 8202;
   8232; 8233; 8239; 8287; 12288; 65279].

Definition byte (n : Z) : ascii := ascii_of_nat (Z.to_nat n).

(** The UTF-8 encoding of a code point below 65536. *)
Definition utf8 (codePoint : Z) : string :=
  if codePoint <? 128 then String (byte codePoint) EmptyString
  else if codePoint <? 2048 then
    String (byte (192 + codePoint / 64))
      (String (byte (128 + codePoint mod 64)) EmptyString)
  else
    String (byte (224 + codePoint / 4096))
      (String (byte (128 + (codePoint / 64) mod 64))
         (String (byte (128 + codePoint mod 64)) EmptyString)).

Definition whiteSpaces : list string := List.map utf8 whiteSpaceCodePoints.

(** [s] is one white space character. *)
Definition isWhiteSpace (s : string) : bool :=
  existsb (String.eqb s) whiteSpaces.

(** A text made of white space characters only. *)
Inductive whiteSpaceOnly : string -> Prop :=
| blank_empty : whiteSpaceOnly EmptyString
| blank_more (space rest : string) :
    In space whiteSpaces -> whiteSpaceOnly rest ->
    whiteSpaceOnly (space +++ rest).

(** [s.trimStart()]: a white space character is one, two or three bytes
    long. *)
Fixpoint trimStart (s : string) : string :=
  match s with
  | String a r1 =>
      if isWhiteSpace (String a EmptyString) then trimStart r1
      else
        match r1 with
        | String b r2 =>
            if isWhiteSpace (String a (String b EmptyString)) then
              trimStart r2
            else
              match r2 with
              | String c r3 =>
                  if isWhiteSpace
                       (String a (String b (String c EmptyString)))
                  then trimStart r3
                  else s
              | EmptyString => s
              end
        | EmptyString => s
        end
  | EmptyString => s
  end.

(** *** Numbers

    A number of the program is written as the integer it is.  JavaScript
    computes on doubles, which hold every integer up to [2 ^ 53] in absolute
    value: the retry policy, the clock and the durations are taken in this
    range, where sums, products, comparisons and the rounded-down quotients
    by 1000 and by 60 are those of the integers.  A value read from a header
    can be any integer; what [parseInt] makes of it, and a product with it,
    is the nearest double. *)

(** [Number.MAX_SAFE_INTEGER] *)
Definition MAX_SAFE_INTEGER : Z := 2 ^ 53 - 1.

(** The double nearest to the integer [n], a tie going to the even
    significand of 53 bits.  (From [2 ^ 1024 - 2 ^ 970] on, the double is
    [Infinity], which is not covered.) *)
Definition toNumber (n : Z) : Z :=
  let a := Z.abs n in
  if a <=? 2 ^ 53 then n
  else
    let e := Z.log2 a - 52 in
    let q := a / 2 ^ e in
    let r := a mod 2 ^ e in
    let half := 2 ^ (e - 1) in
    let q' :=
      if (half <? r) || ((r =? half) && Z.odd q) then q + 1 else q in
    Z.sgn n * (q' * 2 ^ e).

(** [a * b] on numbers. *)
Definition times (a b : Z) : Z := toNumber (a * b).

(** *** [parseInt(s)] with no radix argument

    Leading white space is skipped, an optional sign is read, a [0x] or
    [0X] prefix selects radix 16, and the longest prefix of digits is
    converted; the result is [NaN] ([None]) when there is no digit. *)

Definition digitValue (c : ascii) : option Z :=
  let n := Z.of_nat (nat_of_ascii c) in
  if (48 <=? n) && (n <=? 57) then Some (n - 48)
  else if (97 <=? n) && (n <=? 122) then Some (n - 97 + 10)
  else if (65 <=? n) && (n <=? 90) then Some (n - 65 + 10)
  else None.

Fixpoint digitsPrefix (radix : Z) (s : string) (acc : option Z) : option Z :=
  match s with
  | String c r =>
      match digitValue c with
      | Some d =>
          if d <? radix then
            digitsPrefix radix r
              (Some (match acc with Some a => a * radix + d | None => d end))
          else acc
      | None => acc
      end
  | EmptyString => acc
  end.

Definition parseInt (s : string) : option Z :=
  let s1 := trimStart s in
  let '(sign, s2) :=
    match s1 with
    | String "-" r => (-1, r)
    | String "+" r => (1, r)
    | _ => (1, s1)
    end in
  let '(radix, s3) :=
    match s2 with
    | String "0" (String "x" r) => (16, r)
    | String "0" (String "X" r) => (16, r)
    | _ => (10, s2)
    end in
  option_map (fun n => toNumber (sign * n)) (digitsPrefix radix s3 None).

(** *** Decimal numerals

    Not part of the program: the form a [retry-after] header that gives a
    number of seconds takes.  [numeral ds] is the text made of the decimal
    digits [ds], most significant first, and [numeralValue 0 ds] the number
    it denotes. *)

Definition digitChar (d : Z) : ascii := ascii_of_nat (Z.to_nat (48 + d)).

Fixpoint numeral (digits : list Z) : string :=
  match digits with
  | [] => EmptyString
  | d :: rest => String (digitChar d) (numeral rest)
  end.

Fixpoint numeralValue (acc : Z) (digits : list Z) : Z :=
  match digits with
  | [] => acc
  | d :: rest => numeralValue (acc * 10 + d) rest
  end.

Definition isDigit (d : Z) : Prop := 0 <= d <= 9.

(** *** Properties that can be missing

    A property of a response that holds a value, holds [null], or is
    absent ([undefined]). *)
Inductive Nullable (A : Type) :=
| Undefined
| Null
| Value (a : A).
Arguments Undefined {A}.
Arguments Null {A}.
Arguments Value {A} a.

End Js.

(* ===================================================================== *)
(** ** Shared data: failures, events, state, and the effect monad *)
(* ===================================================================== *)

(** The value a wrapped operation rejects with ([error: any] in
    [executeWithRetry]).  Only the properties the code inspects are kept:
    [error?.statusCode], [error?.body?.error?.status],
    [error?.headers?.['retry-after']], [error?.body?.error?.message] and
    [error?.message]; [None] is [undefined]. *)
Record OpError := mkOpError {
  statusCode  : option Z;
  bodyStatus  : option Z;
  retryAfter  : option string;
  bodyMessage : option string;
  message     : option string
}.

(** Thrown values. *)
Inductive Exn :=
| JsError (msg : string)
    (** [new Error(msg)] *)
| Rejection (rendered : string)
    (** a thrown value that is not an [Error]; [rendered] is [String(value)] *)
| SpotifyApiError (msg : string) (status : option Z)
                  (originalError : option OpError).
    (** [new SpotifyApiError(msg, status, originalError)] *)

(** [error instanceof Error ? error.message : String(error)] *)
Definition errorText (e : Exn) : string :=
  match e with
  | JsError m => m
  | Rejection r => r
  | SpotifyApiError m _ _ => m
  end.

(** Calls made while a method runs, oldest first. *)
Inductive Event :=
| EvEnsureValidToken            (** [auth.ensureValidToken()] entered *)
| EvRefreshAccessToken          (** [auth.refreshAccessToken()] entered *)
| EvGrantRequest (code : string)
    (** network: [spotifyApi.authorizationCodeGrant(code)] *)
| EvRefreshRequest
    (** network: [spotifyApi.refreshAccessToken()] *)
| EvOperation                   (** the wrapped [operation()] invoked *)
| EvSleep (ms : option Z).      (** [this.sleep(ms)]; [None] is [NaN] *)

(** [interface TokenMetadata].  [refreshToken] is written from
    [tokenResponse.refresh_token!], which is [undefined] at run time when the
    remote sent none. *)
Record TokenMetadata := mkTokenMetadata {
  accessToken  : string;
  refreshToken : option string;
  expiresAt    : Z
}.

(** The body of a token-endpoint response ([data.body]). *)
Record TokenBody := mkTokenBody {
  body_access_token  : string;
  body_token_type    : string;
  body_expires_in    : Z;
  body_refresh_token : option string;
  body_scope         : option string
}.

(** [interface TokenResponse] (types.ts). *)
Record TokenResponse := mkTokenResponse {
  access_token  : string;
  token_type    : string;
  expires_in    : Z;
  refresh_token : option string;
  scope         : option string
}.

(** What the remote token endpoint does with one request. *)
Inductive Reply :=
| Resolved (body : TokenBody)
| Rejected (error : Exn).

(** The outside world of a [SpotifyAuth] object: the value of the [k]-th
    read of [Date.now()], and the replies to the [k]-th authorization-code
    grant and to the [k]-th refresh request. *)
Record Remote := mkRemote {
  clock        : nat -> Z;
  grantReply   : nat -> string -> Reply;
  refreshReply : nat -> Reply
}.

(** The state of one [SpotifyAuth] object: its [tokenMetadata] field, the
    two credentials held by its [spotifyApi] client, and how far the oracles
    of [Remote] have been consumed. *)
Record World := mkWorld {
  tokenMetadata   : option TokenMetadata;
  apiAccessToken  : option string;
  apiRefreshToken : option string;
  clockReads      : nat;
  grantRequests   : nat;
  refreshRequests : nat
}.

Inductive Outcome (A : Type) :=
| Returned (a : A)
| Threw (e : Exn).
Arguments Returned {A} a.
Arguments Threw {A} e.

Definition M (A : Type) : Type := World -> Outcome A * World * list Event.

Definition ret {A} (a : A) : M A := fun w => (Returned a, w, []).

Definition throw {A} (e : Exn) : M A := fun w => (Threw e, w, []).

Definition bind {A B} (m : M A) (k : A -> M B) : M B :=
  fun w =>
    match m w with
    | (Returned a, w1, l1) =>
        match k a w1 with
        | (r, w2, l2) => (r, w2, l1 ++ l2)
        end
    | (Threw e, w1, l1) => (Threw e, w1, l1)
    end.

(** [try { m } catch (error) { h error }] *)
Definition tryCatch {A} (m : M A) (h : Exn -> M A) : M A :=
  fun w =>
    match m w with
    | (Returned a, w1, l1) => (Returned a, w1, l1)
    | (Threw e, w1, l1) =>
        match h e w1 with
        | (r, w2, l2) => (r, w2, l1 ++ l2)
        end
    end.

Definition emit (e : Event) : M unit := fun w => (Returned tt, w, [e]).

Definition getWorld : M World := fun w => (Returned w, w, []).

Notation "x <- m ;; k" := (bind m (fun x => k))
  (at level 61, m at next level, right associativity).
Notation "m ;; k" := (bind m (fun _ => k))
  (at level 61, right associativity).

(** Projections of a finished computation. *)
Definition outcomeOf {A} (r : Outcome A * World * list Event) : Outcome A :=
  fst (fst r).
Definition worldOf {A} (r : Outcome A * World * list Event) : World :=
  snd (fst r).
Definition eventsOf {A} (r : Outcome A * World * list Event) : list Event :=
  snd r.

(** Observations on a list of events. *)
Definition isOperation (e : Event) : bool :=
  match e with EvOperation => true | _ => false end.
Definition isEnsure (e : Event) : bool :=
  match e with EvEnsureValidToken => true | _ => false end.
Definition isRefresh (e : Event) : bool :=
  match e with EvRefreshAccessToken => true | _ => false end.
Definition isNetwork (e : Event) : bool :=
  match e with EvGrantRequest _ | EvRefreshRequest => true | _ => false end.

Definition countEvents (p : Event -> bool) (l : list Event) : nat :=
  List.length (List.filter p l).

(** The arguments of the successive [sleep] calls. *)
Fixpoint sleepsOf (l : list Event) : list (option Z) :=
  match l with
  | [] => []
  | EvSleep ms :: r => ms :: sleepsOf r
  | _ :: r => sleepsOf r
  end.

(** The events a call of [ensureValidToken] can produce: the check itself,
    then at most one refresh with at most one request to the remote. *)
Inductive ensureTrace : list Event -> Prop :=
| ensure_fresh : ensureTrace [EvEnsureValidToken]
| ensure_guarded : ensureTrace [EvEnsureValidToken; EvRefreshAccessToken]
| ensure_asked :
    ensureTrace [EvEnsureValidToken; EvRefreshAccessToken; EvRefreshRequest].

(* ===================================================================== *)
(** ** auth.ts: class SpotifyAuth *)
(* ===================================================================== *)

Module Auth.

(** [SPOTIFY_SCOPES] *)
Definition SPOTIFY_SCOPES : list string :=
  [ "user-read-playback-state";
    "user-modify-playback-state";
    "user-read-currently-playing";
    "playlist-read-private";
    "playlist-read-collaborative";
    "user-library-read" ]%string.

(** [interface SpotifyConfig] (types.ts). *)
Record SpotifyConfig := mkSpotifyConfig {
  clientId : string;
  clientSecret : string;
  redirectUri : string;
  configRefreshToken : option string
}.

Definition noRefreshTokenMessage : string :=
  "No refresh token available. Please authorize the application first.".

Definition noAccessTokenMessage : string :=
  "No access token available. Please authorize the application first.".

(** [constructor(config)]: [tokenMetadata] starts as [null] and is seeded
    when [config.refreshToken] is truthy. *)
Definition newSpotifyAuth (config : SpotifyConfig) : World :=
  if Js.truthyString (configRefreshToken config) then
    {| tokenMetadata :=
         Some {| accessToken := "";
                 refreshToken := configRefreshToken config;
                 expiresAt := 0 |};
       apiAccessToken := None;
       apiRefreshToken := configRefreshToken config;
       clockReads := 0; grantRequests := 0; refreshRequests := 0 |}
  else
    {| tokenMetadata := None;
       apiAccessToken := None;
       apiRefreshToken := None;
       clockReads := 0; grantRequests := 0; refreshRequests := 0 |}.

Section WithRemote.

Variable remote : Remote.

(** [Date.now()] *)
Definition dateNow : M Z :=
  fun w =>
    (Returned (clock remote (clockReads w)),
     {| tokenMetadata := tokenMetadata w;
        apiAccessToken := apiAccessToken w;
        apiRefreshToken := apiRefreshToken w;
        clockReads := S (clockReads w);
        grantRequests := grantRequests w;
        refreshRequests := refreshRequests w |},
     []).

(** [await this.spotifyApi.authorizationCodeGrant(code)] *)
Definition authorizationCodeGrant (code : string) : M TokenBody :=
  fun w =>
    let w' :=
      {| tokenMetadata := tokenMetadata w;
         apiAccessToken := apiAccessToken w;
         apiRefreshToken := apiRefreshToken w;
         clockReads := clockReads w;
         grantRequests := S (grantRequests w);
         refreshRequests := refreshRequests w |} in
    match grantReply remote (grantRequests w) code with
    | Resolved body => (Returned body, w', [EvGrantRequest code])
    | Rejected error => (Threw error, w', [EvGrantRequest code])
    end.

(** [await this.spotifyApi.refreshAccessToken()] *)
Definition apiRefreshAccessToken : M TokenBody :=
  fun w =>
    let w' :=
      {| tokenMetadata := tokenMetadata w;
         apiAccessToken := apiAccessToken w;
         apiRefreshToken := apiRefreshToken w;
         clockReads := clockReads w;
         grantRequests := grantRequests w;
         refreshRequests := S (refreshRequests w) |} in
    match refreshReply remote (refreshRequests w) with
    | Resolved body => (Returned body, w', [EvRefreshRequest])
    | Rejected error => (Threw error, w', [EvRefreshRequest])
    end.

(** [this.tokenMetadata = tm] *)
Definition setTokenMetadata (tm : TokenMetadata) : M unit :=
  fun w =>
    (Returned tt,
     {| tokenMetadata := Some tm;
        apiAccessToken := apiAccessToken w;
        apiRefreshToken := apiRefreshToken w;
        clockReads := clockReads w;
        grantRequests := grantRequests w;
        refreshRequests := refreshRequests w |},
     []).

(** [this.spotifyApi.setAccessToken(t)] *)
Definition setAccessToken (t : string) : M unit :=
  fun w =>
    (Returned tt,
     {| tokenMetadata := tokenMetadata w;
        apiAccessToken := Some t;
        apiRefreshToken := apiRefreshToken w;
        clockReads := clockReads w;
        grantRequests := grantRequests w;
        refreshRequests := refreshRequests w |},
     []).

(** [this.spotifyApi.setRefreshToken(t)] *)
Definition setRefreshToken (t : option string) : M unit :=
  fun w =>
    (Returned tt,
     {| tokenMetadata := tokenMetadata w;
        apiAccessToken := apiAccessToken w;
        apiRefreshToken := t;
        clockReads := clockReads w;
        grantRequests := grantRequests w;
        refreshRequests := refreshRequests w |},
     []).

(** [exchangeCodeForToken(code)] *)
Definition exchangeCodeForToken (code : string) : M TokenResponse :=
  tryCatch
    (data <- authorizationCodeGrant code ;;
     let tokenResponse :=
       {| access_token := body_access_token data;
          token_type := body_token_type data;
          expires_in := body_expires_in data;
          refresh_token := body_refresh_token data;
          scope := body_scope data |} in
     now <- dateNow ;;
     setTokenMetadata
       {| accessToken := access_token tokenResponse;
          refreshToken := refresh_token tokenResponse;
          expiresAt := now + expires_in tokenResponse * 1000 |} ;;
     setAccessToken (access_token tokenResponse) ;;
     setRefreshToken (refresh_token tokenResponse) ;;
     ret tokenResponse)
    (fun error =>
       throw (JsError ("Failed to exchange authorization code for token: "
                         +++ errorText error))).

(** [this.tokenMetadata?.refreshToken] *)
Definition heldRefreshToken (w : World) : option string :=
  match tokenMetadata w with
  | Some tm => refreshToken tm
  | None => None
  end.

(** [this.tokenMetadata?.accessToken] *)
Definition heldAccessToken (w : World) : option string :=
  match tokenMetadata w with
  | Some tm => Some (accessToken tm)
  | None => None
  end.

(** [refreshAccessToken()] *)
Definition refreshAccessToken : M TokenResponse :=
  emit EvRefreshAccessToken ;;
  w0 <- getWorld ;;
  if negb (Js.truthyString (heldRefreshToken w0)) then
    throw (JsError noRefreshTokenMessage)
  else
    tryCatch
      (data <- apiRefreshAccessToken ;;
       w1 <- getWorld ;;
       let tokenResponse :=
         {| access_token := body_access_token data;
            token_type := body_token_type data;
            expires_in := body_expires_in data;
            refresh_token :=
              Js.orString (body_refresh_token data) (heldRefreshToken w1);
            scope :=
              Js.orString (body_scope data)
                          (Some (String.concat " " SPOTIFY_SCOPES)) |} in
       now <- dateNow ;;
       setTokenMetadata
         {| accessToken := access_token tokenResponse;
            refreshToken := refresh_token tokenResponse;
            expiresAt := now + expires_in tokenResponse * 1000 |} ;;
       setAccessToken (access_token tokenResponse) ;;
       w2 <- getWorld ;;
       (if Js.strictNeqString (refresh_token tokenResponse)
                              (heldRefreshToken w2)
        then setRefreshToken (refresh_token tokenResponse)
        else ret tt) ;;
       ret tokenResponse)
      (fun error =>
         throw (JsError ("Failed to refresh access token: "
                           +++ errorText error))).

(** The three states [refreshAccessToken] can leave behind, written out:
    the request counted, the refreshed credential, the response handed
    back.  Lemmas [refresh_rejected] and [refresh_resolved] show that they
    are what the method computes. *)
Definition afterRefreshRequest (w : World) : World :=
  {| tokenMetadata := tokenMetadata w;
     apiAccessToken := apiAccessToken w;
     apiRefreshToken := apiRefreshToken w;
     clockReads := clockReads w;
     grantRequests := grantRequests w;
     refreshRequests := S (refreshRequests w) |}.

Definition refreshedResponse (w : World) (body : TokenBody) : TokenResponse :=
  {| access_token := body_access_token body;
     token_type := body_token_type body;
     expires_in := body_expires_in body;
     refresh_token :=
       Js.orString (body_refresh_token body) (heldRefreshToken w);
     scope :=
       Js.orString (body_scope body)
                   (Some (String.concat " " SPOTIFY_SCOPES)) |}.

Definition afterRefresh (w : World) (body : TokenBody) : World :=
  {| tokenMetadata :=
       Some {| accessToken := body_access_token body;
               refreshToken :=
                 Js.orString (body_refresh_token body) (heldRefreshToken w);
               expiresAt :=
                 clock remote (clockReads w) + body_expires_in body * 1000 |};
     apiAccessToken := Some (body_access_token body);
     apiRefreshToken := apiRefreshToken w;
     clockReads := S (clockReads w);
     grantRequests := grantRequests w;
     refreshRequests := S (refreshRequests w) |}.

(** [isTokenExpired()] *)
Definition isTokenExpired : M bool :=
  w <- getWorld ;;
  match tokenMetadata w with
  | None => ret true
  | Some tm =>
      let expirationBuffer := 60 * 1000 in
      now <- dateNow ;;
      ret (now >=? expiresAt tm - expirationBuffer)
  end.

(** [ensureValidToken()] *)
Definition ensureValidToken : M string :=
  emit EvEnsureValidToken ;;
  expired <- isTokenExpired ;;
  (if expired then (refreshAccessToken ;; ret tt) else ret tt) ;;
  w <- getWorld ;;
  match heldAccessToken w with
  | Some t =>
      if Js.truthyString (Some t) then ret t
      else throw (JsError noAccessTokenMessage)
  | None => throw (JsError noAccessTokenMessage)
  end.

End WithRemote.

End Auth.

(* ===================================================================== *)
(** ** spotify_api.ts: class SpotifyApiClient *)
(* ===================================================================== *)

Module Api.

(** [interface RetryConfig] *)
Record RetryConfig := mkRetryConfig {
  maxRetries : Z;
  initialDelayMs : Z;
  maxDelayMs : Z;
  backoffMultiplier : Z
}.

(** [DEFAULT_RETRY_CONFIG] *)
Definition DEFAULT_RETRY_CONFIG : RetryConfig :=
  {| maxRetries := 3;
     initialDelayMs := 1000;
     maxDelayMs := 10000;
     backoffMultiplier := 2 |}.

(** What one invocation of the wrapped operation does. *)
Inductive OpOutcome (T : Type) :=
| Resolves (value : T)
| Rejects (error : OpError).
Arguments Resolves {T} value.
Arguments Rejects {T} error.

(** [error?.statusCode || error?.body?.error?.status] for a caught
    [error]. *)
Definition errStatus (error : OpError) : option Z :=
  Js.orNumber (statusCode error) (bodyStatus error).

Definition authFailedMessage : string :=
  "Authentication failed. Please re-authorize the application.".
Definition forbiddenMessage : string :=
  "Access forbidden. You may not have the required permissions.".
Definition notFoundMessage : string :=
  "Resource not found. Please check the provided ID or URI.".
Definition rateLimitMessage : string :=
  "Rate limit exceeded. Please try again later.".
Definition unavailableMessage : string :=
  "Spotify service is temporarily unavailable. Please try again later.".

(** [handleError(error, operationName)].  [error] is [None] when the
    method is handed [lastError!] while [lastError] is still [null]. *)
Definition handleError (error : option OpError) (operationName : string)
  : Exn :=
  let statusCode :=
    match error with Some e => errStatus e | None => None end in
  let message :=
    match error with
    | Some e =>
        Js.orString (Js.orString (bodyMessage e) (message e))
                    (Some "Unknown error")
    | None => Some "Unknown error"
    end in
  let friendlyMessage :=
    if Js.strictEq statusCode 401 then authFailedMessage
    else if Js.strictEq statusCode 403 then forbiddenMessage
    else if Js.strictEq statusCode 404 then notFoundMessage
    else if Js.strictEq statusCode 429 then rateLimitMessage
    else if Js.strictEq statusCode 500 || Js.strictEq statusCode 502
            || Js.strictEq statusCode 503 then unavailableMessage
    else "Failed to " +++ operationName +++ ": "
           +++ match message with Some m => m | None => "" end in
  SpotifyApiError friendlyMessage statusCode error.

(** [this.sleep(ms)] *)
Definition sleep (ms : option Z) : M unit := emit (EvSleep ms).

(** The [waitTime] of the 429 branch:
    [retryAfter ? parseInt(retryAfter) * 1000
                : Math.min(delay, this.retryConfig.maxDelayMs)]. *)
Definition rateLimitWait (cfg : RetryConfig) (delay : Z) (error : OpError)
  : option Z :=
  let retryAfter := retryAfter error in
  if Js.truthyString retryAfter then
    match retryAfter with
    | Some h => option_map (fun n => Js.times n 1000) (Js.parseInt h)
    | None => None
    end
  else Some (Z.min delay (maxDelayMs cfg)).

(** The [waitTime] of the 503 branch:
    [Math.min(delay, this.retryConfig.maxDelayMs)]. *)
Definition unavailableWait (cfg : RetryConfig) (delay : Z) : option Z :=
  Some (Z.min delay (maxDelayMs cfg)).

Section WithClient.

Variable remote : Remote.
Variable retryConfig : RetryConfig.
Variable T : Type.

(** The wrapped operation, given by what its successive invocations do:
    [operation k] is the outcome of invocation number [k], counted from 0
    within one call of [executeWithRetry]. *)
Variable operation : nat -> OpOutcome T.
Variable operationName : string.

(** The [for] loop of [executeWithRetry], entered with the current values
    of [attempt], [delay] and [lastError]; [calls] counts the invocations of
    the operation made so far.

    The loop counter only changes by [attempt++], so the number of
    iterations still allowed, [remaining], is
    [max 0 (maxRetries + 1 - attempt)]: the test [attempt <= maxRetries]
    holds exactly when [remaining] is not zero (lemma [loop_test_remaining]
    below).  The statement after the loop is the [O] case. *)
Fixpoint attemptLoop (remaining : nat) (attempt delay : Z)
    (lastError : option OpError) (calls : nat) {struct remaining} : M T :=
  match remaining with
  | O => throw (handleError lastError operationName)
  | S remaining' =>
      emit EvOperation ;;
      match operation calls with
      | Resolves value => ret value
      | Rejects error =>
          let lastError := Some error in
          let statusCode := errStatus error in
          let throwIt : M T := throw (handleError (Some error) operationName) in
          let check503 : M T :=
            if Js.strictEq statusCode 503 then
              if attempt <? maxRetries retryConfig then
                let waitTime := unavailableWait retryConfig delay in
                sleep waitTime ;;
                attemptLoop remaining' (attempt + 1)
                            (delay * backoffMultiplier retryConfig)
                            lastError (S calls)
              else throwIt
            else throwIt in
          if Js.strictEq statusCode 401 then
            Auth.refreshAccessToken remote ;;
            attemptLoop remaining' (attempt + 1) delay lastError (S calls)
          else if Js.strictEq statusCode 429 then
            if attempt <? maxRetries retryConfig then
              let waitTime := rateLimitWait retryConfig delay error in
              sleep waitTime ;;
              attemptLoop remaining' (attempt + 1)
                          (delay * backoffMultiplier retryConfig)
                          lastError (S calls)
            else check503
          else check503
      end
  end.

(** [executeWithRetry(operation, operationName)] *)
Definition executeWithRetry : M T :=
  Auth.ensureValidToken remote ;;
  let lastError : option OpError := None in
  let delay := initialDelayMs retryConfig in
  attemptLoop (Z.to_nat (maxRetries retryConfig + 1 - 0)) 0 delay lastError 0.

End WithClient.

Section Iterations.

Variable remote : Remote.
Variable retryConfig : RetryConfig.
Variable T : Type.
Variable operation : nat -> OpOutcome T.
Variable operationName : string.

(** The five ways one iteration of the loop can go. *)
Inductive iteration (remaining : nat) (attempt delay : Z) (calls : nat)
    (w : World) : Outcome T * World * list Event -> Prop :=
| it_resolves (value : T) :
    operation calls = Resolves value ->
    iteration remaining attempt delay calls w
      (Returned value, w, [EvOperation])
| it_refresh_threw (error : OpError) (msg : string) (w1 : World)
    (l1 : list Event) :
    operation calls = Rejects error ->
    errStatus error = Some 401 ->
    Auth.refreshAccessToken remote w = (Threw (JsError msg), w1, l1) ->
    tokenMetadata w1 = tokenMetadata w ->
    (countEvents isNetwork l1 <= 1)%nat ->
    iteration remaining attempt delay calls w
      (Threw (JsError msg), w1, EvOperation :: l1)
| it_refreshed (error : OpError) (tr : TokenResponse) (w1 : World) :
    operation calls = Rejects error ->
    errStatus error = Some 401 ->
    Auth.refreshAccessToken remote w
    = (Returned tr, w1, [EvRefreshAccessToken; EvRefreshRequest]) ->
    iteration remaining attempt delay calls w
      (let next :=
         attemptLoop remote retryConfig T operation operationName
           remaining (attempt + 1) delay (Some error) (S calls) w1 in
       (outcomeOf next, worldOf next,
        EvOperation :: EvRefreshAccessToken :: EvRefreshRequest
          :: eventsOf next))
| it_backoff (error : OpError) (waitTime : option Z) :
    operation calls = Rejects error ->
    errStatus error = Some 429 \/ errStatus error = Some 503 ->
    attempt < maxRetries retryConfig ->
    waitTime = (if Js.strictEq (errStatus error) 429
                then rateLimitWait retryConfig delay error
                else unavailableWait retryConfig delay) ->
    iteration remaining attempt delay calls w
      (let next :=
         attemptLoop remote retryConfig T operation operationName
           remaining (attempt + 1)
           (delay * backoffMultiplier retryConfig) (Some error)
           (S calls) w in
       (outcomeOf next, worldOf next,
        EvOperation :: EvSleep waitTime :: eventsOf next))
| it_terminal (error : OpError) :
    operation calls = Rejects error ->
    errStatus error <> Some 401 ->
    (errStatus error = Some 429 \/ errStatus error = Some 503 ->
     maxRetries retryConfig <= attempt) ->
    iteration remaining attempt delay calls w
      (Threw (handleError (Some error) operationName), w, [EvOperation]).

End Iterations.

End Api.

(* ===================================================================== *)
(** ** JavaScript text operations used by the tools *)
(* ===================================================================== *)

Module JsText.

(** The line feed and the double quote character. *)
Definition newline : string := String (ascii_of_nat 10) EmptyString.
Definition doubleQuote : string := String (ascii_of_nat 34) EmptyString.

(** An integer interpolated in a template literal, or [n.toString()]: its
    decimal digits, which is what JavaScript writes for an integer below
    [10 ^ 21] in absolute value. *)
Definition numberToString (n : Z) : string :=
  NilZero.string_of_int (Z.to_int n).

Fixpoint repeatChar (c : ascii) (n : nat) : string :=
  match n with
  | O => EmptyString
  | S n' => String c (repeatChar c n')
  end.

(** [s.padStart(target, c)] for a pad [c] of one character. *)
Definition padStart (target : nat) (c : ascii) (s : string) : string :=
  repeatChar c (target - String.length s) +++ s.

(** [s.startsWith(p)] *)
Definition startsWith (s p : string) : bool := String.prefix p s.

(** [s.includes(p)] *)
Fixpoint includes (s p : string) : bool :=
  String.prefix p s
  || match s with
     | String _ rest => includes rest p
     | EmptyString => false
     end.

(** [s.trimEnd()], and [s.trim()]: white space removed at both ends. *)
Fixpoint trimEnd (s : string) : string :=
  match s with
  | EmptyString => EmptyString
  | String c rest =>
      let kept := String c (trimEnd rest) in
      if Js.isWhiteSpace kept then EmptyString else kept
  end.

Definition trim (s : string) : string := trimEnd (Js.trimStart s).

(** [l.forEach((item, index) => { ... })] for a callback that appends to a
    [response] variable: the callback is given as the function from the
    old value of [response] to the new one. *)
Fixpoint forEachFrom {A : Type} (callback : A -> Z -> string -> string)
    (l : list A) (index : Z) (response : string) : string :=
  match l with
  | [] => response
  | item :: rest =>
      forEachFrom callback rest (index + 1) (callback item index response)
  end.

Definition forEach {A : Type} (callback : A -> Z -> string -> string)
    (l : list A) (response : string) : string :=
  forEachFrom callback l 0 response.

End JsText.

(* ===================================================================== *)
(** ** types.ts *)
(* ===================================================================== *)

(** [interface SpotifyTrack] *)
Record SpotifyTrack := mkSpotifyTrack {
  track_id : string;
  track_name : string;
  track_artist : string;
  track_album : string;
  track_uri : string;
  track_duration_ms : option Z
}.

(** [interface SpotifyPlaylist] *)
Record SpotifyPlaylist := mkSpotifyPlaylist {
  playlist_id : string;
  playlist_name : string;
  playlist_tracks_count : Z;
  playlist_uri : string;
  playlist_description : option string;
  playlist_owner : option string
}.

(** [interface SpotifyDevice].  [id] is written from [device.id!], which is
    [null] or [undefined] at run time for a device the remote lists without
    an id. *)
Record SpotifyDevice := mkSpotifyDevice {
  device_id : Js.Nullable string;
  device_name : string;
  device_type : string;
  device_is_active : bool;
  device_volume_percent : option Z
}.

(** [interface PlaybackState] *)
Record PlaybackState := mkPlaybackState {
  is_playing : bool;
  playback_track : option SpotifyTrack;
  progress_ms : option Z;
  playback_device : option SpotifyDevice;
  shuffle_state : Js.Nullable bool;
  repeat_state : option string
}.

(** [interface SearchResult] *)
Record SearchResult := mkSearchResult {
  tracks : list SpotifyTrack;
  total : Z
}.

(** The methods of [SpotifyApiClient] that the tools call.  The tools take
    their client as an argument, so they are modelled over any
    implementation of these methods. *)
Record Client := mkClient {
  clientSearchTracks : string -> Z -> M SearchResult;
  clientPlayTrack : string -> option string -> M unit;
  clientControlPlayback : string -> option string -> M unit;
  clientGetCurrentPlayback : M (option PlaybackState);
  clientGetUserPlaylists : Z -> M (list SpotifyPlaylist);
  clientGetPlaylistTracks : string -> Z -> M (list SpotifyTrack);
  clientAddToQueue : string -> option string -> M unit;
  clientGetAvailableDevices : M (list SpotifyDevice)
}.

(* ===================================================================== *)
(** ** tools/search.ts, tools/playback.ts, tools/playlist.ts,
       tools/device.ts *)
(* ===================================================================== *)

Module Tools.

Import JsText.

(** [formatDuration(ms)], defined alike in search.ts, playback.ts and
    playlist.ts: [Math.floor(ms / 1000)], [Math.floor(totalSeconds / 60)]
    and [totalSeconds % 60], for [ms] an integer in the range of
    [Js.MAX_SAFE_INTEGER]. *)
Definition formatDuration (ms : Z) : string :=
  let totalSeconds := ms / 1000 in
  let minutes := totalSeconds / 60 in
  let seconds := Z.rem totalSeconds 60 in
  numberToString minutes +++ ":"
    +++ padStart 2 "0"%char (numberToString seconds).

(** [duration_ms ? formatDuration(duration_ms) : 'Unknown'] *)
Definition durationText (duration_ms : option Z) : string :=
  if Js.truthyNumber duration_ms then
    match duration_ms with
    | Some ms => formatDuration ms
    | None => "Unknown"
    end
  else "Unknown".

(** The body of the [forEach] callback over tracks, in search.ts and in
    playlist.ts. *)
Definition appendTrack (track : SpotifyTrack) (index : Z) (response : string)
  : string :=
  let duration := durationText (track_duration_ms track) in
  let response :=
    response +++ (numberToString (index + 1) +++ ". " +++ track_name track
                    +++ newline) in
  let response :=
    response +++ ("   Artist: " +++ track_artist track +++ newline) in
  let response :=
    response +++ ("   Album: " +++ track_album track +++ newline) in
  let response :=
    response +++ ("   Duration: " +++ duration +++ newline) in
  let response :=
    response +++ ("   URI: " +++ track_uri track +++ newline +++ newline) in
  response.

Definition emptyQueryMessage : string := "Search query cannot be empty".
Definition limit50Message : string := "Limit must be between 1 and 50".
Definition limit100Message : string := "Limit must be between 1 and 100".
Definition emptyPlaylistIdMessage : string := "Playlist ID cannot be empty".
Definition invalidUriMessage : string :=
  "Invalid track URI. Must be in format: spotify:track:xxx".
Definition noPlaybackMessage : string :=
  "No active playback. Please start playing something on Spotify.".
Definition noDevicesMessage : string :=
  "No devices found. Please open Spotify on a device to start playback.".
Definition noPlaylistsMessage : string :=
  "No playlists found. Create some playlists in Spotify!".

(** [!s || s.trim().length === 0] for an argument that is a string or
    [undefined]. *)
Definition isBlank (s : option string) : bool :=
  negb (Js.truthyString s)
  || match s with
     | Some text => (String.length (trim text) =? 0)%nat
     | None => true
     end.

(** [!trackUri || !trackUri.startsWith('spotify:track:')] *)
Definition isBadTrackUri (trackUri : option string) : bool :=
  negb (Js.truthyString trackUri)
  || match trackUri with
     | Some uri => negb (startsWith uri "spotify:track:")
     | None => true
     end.

(** The value of an argument declared [string] once it is known not to be
    [undefined]. *)
Definition stringOf (s : option string) : string :=
  match s with Some text => text | None => EmptyString end.

Section WithClient.

Variable client : Client.

(** search.ts: [searchTracks(client, query, limit)] *)
Definition searchTracks (query : option string) (limit : Z) : M string :=
  if isBlank query then throw (JsError emptyQueryMessage)
  else if (limit <? 1) || (limit >? 50) then throw (JsError limit50Message)
  else
    result <- clientSearchTracks client (stringOf query) limit ;;
    if (List.length (tracks result) =? 0)%nat then
      ret ("No tracks found for query: " +++ doubleQuote
             +++ stringOf query +++ doubleQuote)
    else
      let response :=
        "Found " +++ numberToString (total result) +++ " tracks (showing "
          +++ numberToString (Z.of_nat (List.length (tracks result)))
          +++ "):" +++ newline +++ newline in
      ret (forEach appendTrack (tracks result) response).

(** playback.ts: [playTrack(client, trackUri, deviceId)] *)
Definition playTrack (trackUri : option string) (deviceId : option string)
  : M string :=
  if isBadTrackUri trackUri then throw (JsError invalidUriMessage)
  else
    clientPlayTrack client (stringOf trackUri) deviceId ;;
    ret (if Js.truthyString deviceId
         then "Successfully started playing track on device "
                +++ stringOf deviceId
         else "Successfully started playing track").

(** [validActions] and [actionMessages] of [playbackControl]. *)
Definition validActions : list string :=
  ["play"; "pause"; "next"; "previous"]%string.

Definition actionMessages : list (string * string) :=
  [("play", "Resumed playback");
   ("pause", "Paused playback");
   ("next", "Skipped to next track");
   ("previous", "Skipped to previous track")]%string.

(** [actionMessages[action]]; [None] is [undefined]. *)
Fixpoint lookup (table : list (string * string)) (key : string)
  : option string :=
  match table with
  | [] => None
  | (k, v) :: rest => if String.eqb k key then Some v else lookup rest key
  end.

(** [validActions.includes(action)] for an [action] that is a string or
    [undefined]. *)
Definition isValidAction (action : option string) : bool :=
  match action with
  | Some a => existsb (String.eqb a) validActions
  | None => false
  end.

(** playback.ts: [playbackControl(client, action, deviceId)].  The value
    returned is [actionMessages[action]], [undefined] for a key that is not
    in the table. *)
Definition playbackControl (action : option string)
    (deviceId : option string) : M (option string) :=
  if negb (isValidAction action) then
    throw (JsError ("Invalid action. Must be one of: "
                      +++ String.concat ", " validActions))
  else
    clientControlPlayback client (stringOf action) deviceId ;;
    ret (lookup actionMessages (stringOf action)).

(** playback.ts: [getCurrentPlayback(client)] *)
Definition getCurrentPlayback : M string :=
  state <- clientGetCurrentPlayback client ;;
  match state with
  | None => ret noPlaybackMessage
  | Some state =>
      match playback_track state with
      | None => ret noPlaybackMessage
      | Some track =>
          let duration := durationText (track_duration_ms track) in
          let progress := durationText (progress_ms state) in
          let response := "Current Playback:" +++ newline +++ newline in
          let response :=
            response +++ ("Status: "
                            +++ (if is_playing state then "Playing"
                                 else "Paused")
                            +++ newline +++ newline) in
          let response :=
            response +++ ("Track: " +++ track_name track +++ newline) in
          let response :=
            response +++ ("Artist: " +++ track_artist track +++ newline) in
          let response :=
            response +++ ("Album: " +++ track_album track +++ newline) in
          let response :=
            response +++ ("Progress: " +++ progress +++ " / " +++ duration
                            +++ newline) in
          let response :=
            response +++ ("URI: " +++ track_uri track +++ newline
                            +++ newline) in
          let response :=
            match playback_device state with
            | Some device =>
                let response :=
                  response +++ ("Device: " +++ device_name device +++ " ("
                                  +++ device_type device +++ ")"
                                  +++ newline) in
                match device_volume_percent device with
                | Some volume =>
                    response +++ ("Volume: " +++ numberToString volume
                                    +++ "%" +++ newline)
                | None => response
                end
            | None => response
            end in
          let response :=
            match shuffle_state state with
            | Js.Value shuffle =>
                response +++ ("Shuffle: "
                                +++ (if shuffle then "On" else "Off")
                                +++ newline)
            | Js.Null => response +++ ("Shuffle: " +++ "Off" +++ newline)
            | Js.Undefined => response
            end in
          let response :=
            if Js.truthyString (repeat_state state) then
              response +++ ("Repeat: " +++ stringOf (repeat_state state)
                              +++ newline)
            else response in
          ret response
      end
  end.

(** playback.ts: [addToQueue(client, trackUri, deviceId)] *)
Definition addToQueue (trackUri : option string) (deviceId : option string)
  : M string :=
  if isBadTrackUri trackUri then throw (JsError invalidUriMessage)
  else
    clientAddToQueue client (stringOf trackUri) deviceId ;;
    ret "Successfully added track to queue".

(** The body of the [forEach] callback of [getUserPlaylists]. *)
Definition appendPlaylist (playlist : SpotifyPlaylist) (index : Z)
    (response : string) : string :=
  let response :=
    response +++ (numberToString (index + 1) +++ ". "
                    +++ playlist_name playlist +++ newline) in
  let response :=
    response +++ ("   Tracks: "
                    +++ numberToString (playlist_tracks_count playlist)
                    +++ newline) in
  let response :=
    if Js.truthyString (playlist_description playlist) then
      response +++ ("   Description: "
                      +++ stringOf (playlist_description playlist)
                      +++ newline)
    else response in
  let response :=
    if Js.truthyString (playlist_owner playlist) then
      response +++ ("   Owner: " +++ stringOf (playlist_owner playlist)
                      +++ newline)
    else response in
  let response :=
    response +++ ("   ID: " +++ playlist_id playlist +++ newline) in
  let response :=
    response +++ ("   URI: " +++ playlist_uri playlist +++ newline
                    +++ newline) in
  response.

(** playlist.ts: [getUserPlaylists(client, limit)] *)
Definition getUserPlaylists (limit : Z) : M string :=
  if (limit <? 1) || (limit >? 50) then throw (JsError limit50Message)
  else
    playlists <- clientGetUserPlaylists client limit ;;
    if (List.length playlists =? 0)%nat then ret noPlaylistsMessage
    else
      let response :=
        "Found " +++ numberToString (Z.of_nat (List.length playlists))
          +++ " playlist(s):" +++ newline +++ newline in
      ret (forEach appendPlaylist playlists response).

(** playlist.ts: [getPlaylistTracks(client, playlistId, limit)] *)
Definition getPlaylistTracks (playlistId : option string) (limit : Z)
  : M string :=
  if isBlank playlistId then throw (JsError emptyPlaylistIdMessage)
  else if (limit <? 1) || (limit >? 100) then
    throw (JsError limit100Message)
  else
    tracks <- clientGetPlaylistTracks client (stringOf playlistId) limit ;;
    if (List.length tracks =? 0)%nat then
      ret ("No tracks found in playlist " +++ stringOf playlistId)
    else
      let response :=
        "Playlist tracks (showing "
          +++ numberToString (Z.of_nat (List.length tracks))
          +++ "):" +++ newline +++ newline in
      ret (forEach appendTrack tracks response).

(** A device id interpolated in a template literal. *)
Definition idText (id : Js.Nullable string) : string :=
  match id with
  | Js.Value text => text
  | Js.Null => "null"
  | Js.Undefined => "undefined"
  end.

(** The body of the [forEach] callback of [getAvailableDevices]. *)
Definition appendDevice (device : SpotifyDevice) (index : Z)
    (response : string) : string :=
  let activeIndicator :=
    if device_is_active device then " [ACTIVE]" else EmptyString in
  let response :=
    response +++ (numberToString (index + 1) +++ ". " +++ device_name device
                    +++ activeIndicator +++ newline) in
  let response :=
    response +++ ("   Type: " +++ device_type device +++ newline) in
  let response :=
    response +++ ("   ID: " +++ idText (device_id device) +++ newline) in
  let response :=
    match device_volume_percent device with
    | Some volume =>
        response +++ ("   Volume: " +++ numberToString volume +++ "%"
                        +++ newline)
    | None => response
    end in
  let response :=
    response +++ ("   Status: "
                    +++ (if device_is_active device then "Active"
                         else "Inactive")
                    +++ newline +++ newline) in
  response.

(** device.ts: [getAvailableDevices(client)] *)
Definition getAvailableDevices : M string :=
  devices <- clientGetAvailableDevices client ;;
  if (List.length devices =? 0)%nat then ret noDevicesMessage
  else
    let response :=
      "Available devices ("
        +++ numberToString (Z.of_nat (List.length devices)) +++ "):"
        +++ newline +++ newline in
    let response := forEach appendDevice devices response in
    let activeDevice := List.find device_is_active devices in
    match activeDevice with
    | Some device =>
        ret (response +++ ("Currently active: " +++ device_name device))
    | None =>
        ret (response
               +++ "No active device. Select a device to start playback.")
    end.

End WithClient.

End Tools.

(* ===================================================================== *)
(** ** spotify_api.ts: the wrapped methods of SpotifyApiClient *)
(* ===================================================================== *)

Module ApiClient.

(** The parts of the response objects of [spotify-web-api-node] that the
    client reads. *)

(** A track object: [id], [name], the [name]s of its [artists], the [name]
    of its [album], [uri], [duration_ms]. *)
Record ApiTrack := mkApiTrack {
  api_track_id : string;
  api_track_name : string;
  api_track_artists : list string;
  api_track_album : string;
  api_track_uri : string;
  api_track_duration_ms : Z
}.

(** [body.tracks] of a search response: [items] and [total]. *)
Record Paging := mkPaging {
  paging_items : list ApiTrack;
  paging_total : Z
}.

(** The body of a search response; [tracks] is optional. *)
Record SearchBody := mkSearchBody {
  search_tracks : option Paging
}.

(** A playlist object: [id], [name], [tracks.total], [uri], [description],
    [owner.display_name], [owner.id]. *)
Record ApiPlaylist := mkApiPlaylist {
  api_playlist_id : string;
  api_playlist_name : string;
  api_playlist_tracks_total : Z;
  api_playlist_uri : string;
  api_playlist_description : option string;
  api_owner_display_name : option string;
  api_owner_id : string
}.

(** An item of a playlist: its [track], which can be [null]. *)
Record PlaylistItem := mkPlaylistItem {
  item_track : option ApiTrack
}.

(** A device object; [id] and [volume_percent] can be [null] or missing. *)
Record ApiDevice := mkApiDevice {
  api_device_id : Js.Nullable string;
  api_device_name : string;
  api_device_type : string;
  api_device_is_active : bool;
  api_device_volume_percent : option Z
}.

(** The body of a current-playback response. *)
Record PlaybackBody := mkPlaybackBody {
  body_is_playing : bool;
  body_item : option ApiTrack;
  body_progress_ms : option Z;
  body_device : option ApiDevice;
  body_shuffle_state : Js.Nullable bool;
  body_repeat_state : option string
}.

(** The argument of [api.play]. *)
Record PlayOptions := mkPlayOptions {
  play_uris : option (list string);
  play_device_id : option string
}.

(** The Web API behind the client: for each endpoint and arguments, what
    the successive calls made within one [executeWithRetry] do. *)
Record WebApi := mkWebApi {
  apiSearchTracks : string -> Z -> nat -> Api.OpOutcome SearchBody;
  apiPlay : PlayOptions -> nat -> Api.OpOutcome unit;
  apiPause : option string -> nat -> Api.OpOutcome unit;
  apiSkipToNext : option string -> nat -> Api.OpOutcome unit;
  apiSkipToPrevious : option string -> nat -> Api.OpOutcome unit;
  apiGetMyCurrentPlaybackState : nat -> Api.OpOutcome (option PlaybackBody);
  apiGetUserPlaylists : Z -> nat -> Api.OpOutcome (list ApiPlaylist);
  apiGetPlaylistTracks : string -> Z -> nat
                         -> Api.OpOutcome (list PlaylistItem);
  apiAddToQueue : string -> option string -> nat -> Api.OpOutcome unit;
  apiGetMyDevices : nat -> Api.OpOutcome (list ApiDevice)
}.

(** The object literal built from a track in [searchTracks],
    [getCurrentPlayback] and [getPlaylistTracks]. *)
Definition toTrack (track : ApiTrack) : SpotifyTrack :=
  {| track_id := api_track_id track;
     track_name := api_track_name track;
     track_artist := String.concat ", " (api_track_artists track);
     track_album := api_track_album track;
     track_uri := api_track_uri track;
     track_duration_ms := Some (api_track_duration_ms track) |}.

(** [v || undefined] *)
Definition numberOrUndefined (v : option Z) : option Z :=
  if Js.truthyNumber v then v else None.

Definition stringOrUndefined (v : option string) : option string :=
  if Js.truthyString v then v else None.

(** The object literal built from a device in [getAvailableDevices] and
    [getCurrentPlayback]. *)
Definition toDevice (device : ApiDevice) : SpotifyDevice :=
  {| device_id := api_device_id device;
     device_name := api_device_name device;
     device_type := api_device_type device;
     device_is_active := api_device_is_active device;
     device_volume_percent :=
       numberOrUndefined (api_device_volume_percent device) |}.

(** The object literal built from a playlist in [getUserPlaylists]. *)
Definition toPlaylist (playlist : ApiPlaylist) : SpotifyPlaylist :=
  {| playlist_id := api_playlist_id playlist;
     playlist_name := api_playlist_name playlist;
     playlist_tracks_count := api_playlist_tracks_total playlist;
     playlist_uri := api_playlist_uri playlist;
     playlist_description :=
       stringOrUndefined (api_playlist_description playlist);
     playlist_owner :=
       Js.orString (api_owner_display_name playlist)
                   (Some (api_owner_id playlist)) |}.

(** [items.filter((item) => item.track).map(...)] of
    [getPlaylistTracks]. *)
Fixpoint playlistTracks (items : list PlaylistItem) : list SpotifyTrack :=
  match items with
  | [] => []
  | item :: rest =>
      match item_track item with
      | Some track => toTrack track :: playlistTracks rest
      | None => playlistTracks rest
      end
  end.

(** The value the operation of [controlPlayback] rejects with for an action
    outside the four: [new Error(`Invalid playback action: ${action}`)]. *)
Definition invalidActionError (action : string) : OpError :=
  {| statusCode := None; bodyStatus := None; retryAfter := None;
     bodyMessage := None;
     message := Some ("Invalid playback action: " +++ action) |}.

Section WithApi.

Variable remote : Remote.
Variable retryConfig : Api.RetryConfig.
Variable api : WebApi.

(** The message of the [TypeError] the engine throws when the named
    property is read from [undefined]. *)
Variable undefinedPropertyError : string -> string.

(** [searchTracks(query, limit)] *)
Definition searchTracks (query : string) (limit : Z) : M SearchResult :=
  result <- Api.executeWithRetry remote retryConfig SearchBody
              (apiSearchTracks api query limit) "search tracks" ;;
  match search_tracks result with
  | Some paging =>
      ret {| tracks := List.map toTrack (paging_items paging);
             total := paging_total paging |}
  | None => throw (JsError (undefinedPropertyError "items"))
  end.

(** [playTrack(trackUri, deviceId)] *)
Definition playTrack (trackUri : string) (deviceId : option string)
  : M unit :=
  Api.executeWithRetry remote retryConfig unit
    (apiPlay api {| play_uris := Some [trackUri];
                    play_device_id := deviceId |})
    "play track" ;;
  ret tt.

(** [controlPlayback(action, deviceId)] *)
Definition controlPlayback (action : string) (deviceId : option string)
  : M unit :=
  let options := stringOrUndefined deviceId in
  Api.executeWithRetry remote retryConfig unit
    (fun k =>
       if String.eqb action "play" then
         apiPlay api {| play_uris := None; play_device_id := options |} k
       else if String.eqb action "pause" then apiPause api options k
       else if String.eqb action "next" then apiSkipToNext api options k
       else if String.eqb action "previous" then
         apiSkipToPrevious api options k
       else Api.Rejects (invalidActionError action))
    (action +++ " playback") ;;
  ret tt.

(** [getCurrentPlayback()] *)
Definition getCurrentPlayback : M (option PlaybackState) :=
  result <- Api.executeWithRetry remote retryConfig (option PlaybackBody)
              (apiGetMyCurrentPlaybackState api) "get current playback" ;;
  match result with
  | None => ret None
  | Some body =>
      match body_item body with
      | None => ret None
      | Some item =>
          ret (Some {| is_playing := body_is_playing body;
                       playback_track := Some (toTrack item);
                       progress_ms :=
                         numberOrUndefined (body_progress_ms body);
                       playback_device :=
                         option_map toDevice (body_device body);
                       shuffle_state := body_shuffle_state body;
                       repeat_state := body_repeat_state body |})
      end
  end.

(** [getUserPlaylists(limit)] *)
Definition getUserPlaylists (limit : Z) : M (list SpotifyPlaylist) :=
  result <- Api.executeWithRetry remote retryConfig (list ApiPlaylist)
              (apiGetUserPlaylists api limit) "get user playlists" ;;
  ret (List.map toPlaylist result).

(** [getPlaylistTracks(playlistId, limit)] *)
Definition getPlaylistTracks (playlistId : string) (limit : Z)
  : M (list SpotifyTrack) :=
  result <- Api.executeWithRetry remote retryConfig (list PlaylistItem)
              (apiGetPlaylistTracks api playlistId limit)
              "get playlist tracks" ;;
  ret (playlistTracks result).

(** [addToQueue(trackUri, deviceId)] *)
Definition addToQueue (trackUri : string) (deviceId : option string)
  : M unit :=
  Api.executeWithRetry remote retryConfig unit
    (apiAddToQueue api trackUri (stringOrUndefined deviceId))
    "add to queue" ;;
  ret tt.

(** [getAvailableDevices()] *)
Definition getAvailableDevices : M (list SpotifyDevice) :=
  result <- Api.executeWithRetry remote retryConfig (list ApiDevice)
              (apiGetMyDevices api) "get available devices" ;;
  ret (List.map toDevice result).

(** The client as the tools see it. *)
Definition spotifyClient : Client :=
  {| clientSearchTracks := searchTracks;
     clientPlayTrack := playTrack;
     clientControlPlayback := controlPlayback;
     clientGetCurrentPlayback := getCurrentPlayback;
     clientGetUserPlaylists := getUserPlaylists;
     clientGetPlaylistTracks := getPlaylistTracks;
     clientAddToQueue := addToQueue;
     clientGetAvailableDevices := getAvailableDevices |}.

End WithApi.

End ApiClient.

(* ===================================================================== *)
(** ** index.ts: the server *)
(* ===================================================================== *)

Module Server.

Import JsText.

(** [process.env], the four variables the server reads. *)
Record Environment := mkEnvironment {
  SPOTIFY_CLIENT_ID : option string;
  SPOTIFY_CLIENT_SECRET : option string;
  SPOTIFY_REDIRECT_URI : option string;
  SPOTIFY_REFRESH_TOKEN : option string
}.

Definition missingEnvironmentMessage : string :=
  "Missing required environment variables. Please set SPOTIFY_CLIENT_ID, SPOTIFY_CLIENT_SECRET, and SPOTIFY_REDIRECT_URI in .env file".

(** [validateEnvironment()] *)
Definition validateEnvironment (env : Environment)
  : Outcome Auth.SpotifyConfig :=
  let clientId := SPOTIFY_CLIENT_ID env in
  let clientSecret := SPOTIFY_CLIENT_SECRET env in
  let redirectUri := SPOTIFY_REDIRECT_URI env in
  let refreshToken := SPOTIFY_REFRESH_TOKEN env in
  if negb (Js.truthyString clientId) || negb (Js.truthyString clientSecret)
     || negb (Js.truthyString redirectUri)
  then Threw (JsError missingEnvironmentMessage)
  else
    Returned {| Auth.clientId := Tools.stringOf clientId;
                Auth.clientSecret := Tools.stringOf clientSecret;
                Auth.redirectUri := Tools.stringOf redirectUri;
                Auth.configRefreshToken := refreshToken |}.

(** [request.params.arguments], the properties the handler reads. *)
Record ToolArguments := mkToolArguments {
  arg_query : option string;
  arg_limit : option Z;
  arg_track_uri : option string;
  arg_device_id : option string;
  arg_action : option string;
  arg_playlist_id : option string
}.

(** What the handler of [tools/call] returns: the [text] of its one content
    item and [isError] ([undefined] counted as [false]). *)
Record ToolResponse := mkToolResponse {
  text : option string;
  isError : bool
}.

(** The [name]s of the tools in the answer of the [tools/list] handler. *)
Definition advertisedTools : list string :=
  [ "search_tracks"; "play_track"; "playback_control";
    "get_current_playback"; "get_user_playlists"; "get_playlist_tracks";
    "add_to_queue"; "get_available_devices" ]%string.

Definition noDeviceHint : string :=
  "No active Spotify device found. Please open Spotify on a device (phone, computer, web player) to use playback controls.".

Definition authenticationHint : string :=
  "Authentication error. Please check your Spotify credentials and refresh token in the .env file.".

(** The [catch] block of the handler, from [errorMessage] on. *)
Definition errorResponse (errorMessage : string) : ToolResponse :=
  if includes errorMessage "No active device"
     || includes errorMessage "No devices found"
  then {| text := Some noDeviceHint; isError := true |}
  else if includes errorMessage "Authentication failed"
          || includes errorMessage "token"
  then {| text := Some authenticationHint; isError := true |}
  else {| text := Some ("Error: " +++ errorMessage); isError := true |}.

(** [(args?.limit as number) ?? fallback] *)
Definition limitOr (limit : option Z) (fallback : Z) : Z :=
  match limit with Some n => n | None => fallback end.

Section WithClient.

Variable client : Client.

(** The message of [new McpError(ErrorCode.MethodNotFound, message)], which
    the SDK builds. *)
Variable mcpErrorMessage : string -> string.

(** The [switch] of the handler: the tool named [name], run on [args]. *)
Definition runTool (name : string) (args : ToolArguments)
  : M (option string) :=
  if String.eqb name "search_tracks" then
    result <- Tools.searchTracks client (arg_query args)
                (limitOr (arg_limit args) 10) ;;
    ret (Some result)
  else if String.eqb name "play_track" then
    result <- Tools.playTrack client (arg_track_uri args)
                (arg_device_id args) ;;
    ret (Some result)
  else if String.eqb name "playback_control" then
    Tools.playbackControl client (arg_action args) (arg_device_id args)
  else if String.eqb name "get_current_playback" then
    result <- Tools.getCurrentPlayback client ;;
    ret (Some result)
  else if String.eqb name "get_user_playlists" then
    result <- Tools.getUserPlaylists client (limitOr (arg_limit args) 20) ;;
    ret (Some result)
  else if String.eqb name "get_playlist_tracks" then
    result <- Tools.getPlaylistTracks client (arg_playlist_id args)
                (limitOr (arg_limit args) 50) ;;
    ret (Some result)
  else if String.eqb name "add_to_queue" then
    result <- Tools.addToQueue client (arg_track_uri args)
                (arg_device_id args) ;;
    ret (Some result)
  else if String.eqb name "get_available_devices" then
    result <- Tools.getAvailableDevices client ;;
    ret (Some result)
  else throw (JsError (mcpErrorMessage ("Unknown tool: " +++ name))).

(** The handler of [tools/call]. *)
Definition callTool (name : string) (args : ToolArguments)
  : M ToolResponse :=
  tryCatch
    (result <- runTool name args ;;
     ret {| text := result; isError := false |})
    (fun error => ret (errorResponse (errorText error))).

End WithClient.

End Server.

(* ===================================================================== *)
(** ** Post-processing of results *)
(* ===================================================================== *)

(** An operation followed by a pure step [f] on what it resolves with, and
    a finished computation followed by [f] on what it returned.  They are
    used to say that [executeWithRetry] hands results through. *)
Definition thenMap {T T' : Type} (f : T -> T') (o : Api.OpOutcome T)
  : Api.OpOutcome T' :=
  match o with
  | Api.Resolves value => Api.Resolves (f value)
  | Api.Rejects error => Api.Rejects error
  end.

Definition mapReturned {A B : Type} (f : A -> B)
    (r : Outcome A * World * list Event) : Outcome B * World * list Event :=
  match r with
  | (Returned a, w, l) => (Returned (f a), w, l)
  | (Threw e, w, l) => (Threw e, w, l)
  end.

(* ===================================================================== *)
(** ** Sample runs *)
(* ===================================================================== *)

Module Samples.

Definition err (status : Z) : OpError :=
  {| statusCode := Some status; bodyStatus := None; retryAfter := None;
     bodyMessage := None; message := None |}.

Definition okBody : TokenBody :=
  {| body_access_token := "fresh"; body_token_type := "Bearer";
     body_expires_in := 3600; body_refresh_token := None;
     body_scope := None |}.

(** A remote whose clock stands at one million and which grants and
    refreshes every time. *)
Definition goodRemote : Remote :=
  {| clock := fun _ => 1000000;
     grantReply := fun _ _ => Resolved okBody;
     refreshReply := fun _ => Resolved okBody |}.

Definition seeded : World :=
  Auth.newSpotifyAuth
    {| Auth.clientId := "id"; Auth.clientSecret := "secret";
       Auth.redirectUri := "http://localhost:3000/callback";
       Auth.configRefreshToken := Some "rt" |}.

Definition unseeded : World :=
  Auth.newSpotifyAuth
    {| Auth.clientId := "id"; Auth.clientSecret := "secret";
       Auth.redirectUri := "http://localhost:3000/callback";
       Auth.configRefreshToken := None |}.

(** A failure carrying a status code and a [retry-after] header. *)
Definition errWithHint (status : Z) (hint : string) : OpError :=
  {| statusCode := Some status; bodyStatus := None; retryAfter := Some hint;
     bodyMessage := None; message := None |}.

(** The operation that rejects with [status] every time. *)
Definition always (status : Z) : nat -> Api.OpOutcome nat :=
  fun _ => Api.Rejects (err status).

(** The operation that rejects with [status] on its first [n] invocations
    and resolves with [value] from then on. *)
Definition failsThen (n : nat) (status : Z) (value : nat)
  : nat -> Api.OpOutcome nat :=
  fun k => if (k <? n)%nat then Api.Rejects (err status)
           else Api.Resolves value.

(** A remote that grants one narrow scope at the exchange and leaves the
    scope out of its refresh responses. *)
Definition narrowBody : TokenBody :=
  {| body_access_token := "first"; body_token_type := "Bearer";
     body_expires_in := 3600; body_refresh_token := Some "rt";
     body_scope := Some "user-library-read" |}.

Definition narrowRemote : Remote :=
  {| clock := fun _ => 1000000;
     grantReply := fun _ _ => Resolved narrowBody;
     refreshReply := fun _ => Resolved okBody |}.

(** A remote that accepts the first authorization code it is sent and
    rejects every later one, and rejects every refresh. *)
Definition strictRemote : Remote :=
  {| clock := fun _ => 1000000;
     grantReply := fun k _ =>
       match k with
       | O => Resolved narrowBody
       | S _ => Rejected (JsError "invalid_grant")
       end;
     refreshReply := fun _ => Rejected (JsError "Invalid refresh token") |}.

(** The retry policy that allows no retry at all. *)
Definition noRetry : Api.RetryConfig :=
  {| Api.maxRetries := 0; Api.initialDelayMs := 1000;
     Api.maxDelayMs := 10000; Api.backoffMultiplier := 2 |}.

(** The default delays with five retries. *)
Definition fiveRetries : Api.RetryConfig :=
  {| Api.maxRetries := 5; Api.initialDelayMs := 1000;
     Api.maxDelayMs := 10000; Api.backoffMultiplier := 2 |}.

End Samples.

(** Sample clients and Web APIs. *)
Module Cases.

(** A client whose every method returns at once with nothing to show. *)
Definition idleClient : Client :=
  {| clientSearchTracks := fun _ _ => ret {| tracks := []; total := 0 |};
     clientPlayTrack := fun _ _ => ret tt;
     clientControlPlayback := fun _ _ => ret tt;
     clientGetCurrentPlayback := ret None;
     clientGetUserPlaylists := fun _ => ret [];
     clientGetPlaylistTracks := fun _ _ => ret [];
     clientAddToQueue := fun _ _ => ret tt;
     clientGetAvailableDevices := ret [] |}.

(** A Web API on which every call succeeds with nothing to show. *)
Definition quietApi : ApiClient.WebApi :=
  {| ApiClient.apiSearchTracks := fun _ _ _ =>
       Api.Resolves
         {| ApiClient.search_tracks :=
              Some {| ApiClient.paging_items := [];
                      ApiClient.paging_total := 0 |} |};
     ApiClient.apiPlay := fun _ _ => Api.Resolves tt;
     ApiClient.apiPause := fun _ _ => Api.Resolves tt;
     ApiClient.apiSkipToNext := fun _ _ => Api.Resolves tt;
     ApiClient.apiSkipToPrevious := fun _ _ => Api.Resolves tt;
     ApiClient.apiGetMyCurrentPlaybackState := fun _ => Api.Resolves None;
     ApiClient.apiGetUserPlaylists := fun _ _ => Api.Resolves [];
     ApiClient.apiGetPlaylistTracks := fun _ _ _ => Api.Resolves [];
     ApiClient.apiAddToQueue := fun _ _ _ => Api.Resolves tt;
     ApiClient.apiGetMyDevices := fun _ => Api.Resolves [] |}.

(** A muted speaker, and a Web API that reports it as the only device and
    as the device of a playback that has just started. *)
Definition mutedSpeaker : ApiClient.ApiDevice :=
  {| ApiClient.api_device_id := Js.Value "d1";
     ApiClient.api_device_name := "Kitchen";
     ApiClient.api_device_type := "Speaker";
     ApiClient.api_device_is_active := true;
     ApiClient.api_device_volume_percent := Some 0 |}.

Definition someTrack : ApiClient.ApiTrack :=
  {| ApiClient.api_track_id := "t1";
     ApiClient.api_track_name := "Song";
     ApiClient.api_track_artists := ["A"; "B"]%string;
     ApiClient.api_track_album := "Album";
     ApiClient.api_track_uri := "spotify:track:t1";
     ApiClient.api_track_duration_ms := 65000 |}.

Definition mutedApi : ApiClient.WebApi :=
  {| ApiClient.apiSearchTracks := ApiClient.apiSearchTracks quietApi;
     ApiClient.apiPlay := ApiClient.apiPlay quietApi;
     ApiClient.apiPause := ApiClient.apiPause quietApi;
     ApiClient.apiSkipToNext := ApiClient.apiSkipToNext quietApi;
     ApiClient.apiSkipToPrevious := ApiClient.apiSkipToPrevious quietApi;
     ApiClient.apiGetMyCurrentPlaybackState := fun _ =>
       Api.Resolves
         (Some {| ApiClient.body_is_playing := true;
                  ApiClient.body_item := Some someTrack;
                  ApiClient.body_progress_ms := Some 0;
                  ApiClient.body_device := Some mutedSpeaker;
                  ApiClient.body_shuffle_state := Js.Value false;
                  ApiClient.body_repeat_state := Some "off" |});
     ApiClient.apiGetUserPlaylists := ApiClient.apiGetUserPlaylists quietApi;
     ApiClient.apiGetPlaylistTracks := fun _ _ _ =>
       Api.Resolves [ {| ApiClient.item_track := None |};
                      {| ApiClient.item_track := None |} ];
     ApiClient.apiAddToQueue := ApiClient.apiAddToQueue quietApi;
     ApiClient.apiGetMyDevices := fun _ => Api.Resolves [mutedSpeaker] |}.

(** An environment with the three required variables and no refresh
    token. *)
Definition bareEnvironment : Server.Environment :=
  {| Server.SPOTIFY_CLIENT_ID := Some "id";
     Server.SPOTIFY_CLIENT_SECRET := Some "secret";
     Server.SPOTIFY_REDIRECT_URI := Some "http://localhost:3000/callback";
     Server.SPOTIFY_REFRESH_TOKEN := None |}.

Definition noArguments : Server.ToolArguments :=
  {| Server.arg_query := None; Server.arg_limit := None;
     Server.arg_track_uri := None; Server.arg_device_id := None;
     Server.arg_action := None; Server.arg_playlist_id := None |}.

(** The rendering of [McpError] messages by the SDK. *)
Definition mcpErrorMessage (message : string) : string :=
  "MCP error -32601: " +++ message.

End Cases.

(* ===================================================================== *)
(** ** Facts about the effect monad and the event observers *)
(* ===================================================================== *)

Lemma countEvents_app (p : Event -> bool) (l1 l2 : list Event) :
  countEvents p (l1 ++ l2) = (countEvents p l1 + countEvents p l2)%nat.
Proof.
  unfold countEvents. rewrite filter_app, length_app. reflexivity.
Qed.

Lemma sleepsOf_app (l1 l2 : list Event) :
  sleepsOf (l1 ++ l2) = sleepsOf l1 ++ sleepsOf l2.
Proof.
  induction l1 as [|e l1 IH]; simpl; [reflexivity|].
  destruct e; simpl; rewrite IH; reflexivity.
Qed.

Lemma strictNeqString_same (a : option string) :
  Js.strictNeqString a a = false.
Proof.
  destruct a as [s|]; simpl; [|reflexivity].
  rewrite String.eqb_refl. reflexivity.
Qed.

Lemma orString_truthy (a b : option string) :
  Js.truthyString b = true -> Js.truthyString (Js.orString a b) = true.
Proof.
  intros Hb. unfold Js.orString.
  destruct (Js.truthyString a) eqn:Ha; assumption.
Qed.

(* ===================================================================== *)
(** ** White space *)
(* ===================================================================== *)

Lemma isWhiteSpace_In (s : string) :
  Js.isWhiteSpace s = true <-> In s Js.whiteSpaces.
Proof.
  unfold Js.isWhiteSpace. rewrite existsb_exists. split.
  - intros (x & Hin & E). apply String.eqb_eq in E. subst x. exact Hin.
  - intros H. exists s. split; [exact H|apply String.eqb_refl].
Qed.

Lemma append_assoc (a b c : string) : (a +++ b) +++ c = a +++ (b +++ c).
Proof.
  induction a as [|x a IH]; cbn [String.append]; [reflexivity|].
  rewrite IH. reflexivity.
Qed.

Lemma append_empty_r (a : string) : a +++ EmptyString = a.
Proof.
  induction a as [|x a IH]; cbn [String.append]; [reflexivity|].
  rewrite IH. reflexivity.
Qed.

Lemma whiteSpaceOnly_app (p q : string) :
  Js.whiteSpaceOnly p -> Js.whiteSpaceOnly q -> Js.whiteSpaceOnly (p +++ q).
Proof.
  intros Hp Hq. induction Hp as [|space rest Hin Hrest IH]; [exact Hq|].
  rewrite append_assoc. constructor; assumption.
Qed.

Lemma whiteSpaceOnly_one (space : string) :
  In space Js.whiteSpaces -> Js.whiteSpaceOnly space.
Proof.
  intros H. rewrite <- (append_empty_r space).
  constructor; [exact H|constructor].
Qed.

(** A text that begins with a byte no white space character begins with is
    left as it is by [trimStart]. *)
Lemma trimStart_unchanged (a : ascii) (r : string) :
  (forall space t, In space Js.whiteSpaces -> space <> String a t) ->
  Js.trimStart (String a r) = String a r.
Proof.
  intros H.
  assert (W : forall t, Js.isWhiteSpace (String a t) = false).
  { intros t. destruct (Js.isWhiteSpace (String a t)) eqn:E; [|reflexivity].
    apply isWhiteSpace_In in E. exfalso. exact (H _ t E eq_refl). }
  cbn [Js.trimStart]. rewrite W.
  destruct r as [|b r2]; [reflexivity|]. rewrite W.
  destruct r2 as [|c r3]; [reflexivity|]. rewrite W. reflexivity.
Qed.

Lemma trimStart_space (space rest : string) :
  In space Js.whiteSpaces ->
  Js.trimStart (space +++ rest) = Js.trimStart rest.
Proof.
  intros H. vm_compute in H.
  repeat (destruct H as [<-|H]; [reflexivity|]). contradiction.
Qed.

Lemma trimStart_whiteSpaceOnly (s : string) :
  Js.whiteSpaceOnly s -> Js.trimStart s = EmptyString.
Proof.
  induction 1 as [|space rest Hin Hrest IH]; [reflexivity|].
  rewrite (trimStart_space space rest Hin). exact IH.
Qed.

(** [trimStart] removes a prefix made of white space. *)
Lemma trimStart_decompose (s : string) :
  exists p, Js.whiteSpaceOnly p /\ s = p +++ Js.trimStart s.
Proof.
  assert (G : forall n s, (String.length s <= n)%nat ->
                          exists p, Js.whiteSpaceOnly p /\
                                    s = p +++ Js.trimStart s).
  { clear s. induction n as [|n IH]; intros s Hn.
    - destruct s; [|simpl in Hn; lia].
      exists EmptyString. split; [constructor|reflexivity].
    - destruct s as [|a r1].
      { exists EmptyString. split; [constructor|reflexivity]. }
      cbn [Js.trimStart].
      destruct (Js.isWhiteSpace (String a EmptyString)) eqn:W1.
      { apply isWhiteSpace_In in W1.
        destruct (IH r1) as (p & Hp & E); [simpl in Hn; lia|].
        exists (String a EmptyString +++ p). split.
        - constructor; assumption.
        - cbn [String.append]. rewrite <- E. reflexivity. }
      destruct r1 as [|b r2].
      { exists EmptyString. split; [constructor|reflexivity]. }
      destruct (Js.isWhiteSpace (String a (String b EmptyString))) eqn:W2.
      { apply isWhiteSpace_In in W2.
        destruct (IH r2) as (p & Hp & E); [simpl in Hn; lia|].
        exists (String a (String b EmptyString) +++ p). split.
        - constructor; assumption.
        - cbn [String.append]. rewrite <- E. reflexivity. }
      destruct r2 as [|c r3].
      { exists EmptyString. split; [constructor|reflexivity]. }
      destruct (Js.isWhiteSpace
                  (String a (String b (String c EmptyString)))) eqn:W3.
      { apply isWhiteSpace_In in W3.
        destruct (IH r3) as (p & Hp & E); [simpl in Hn; lia|].
        exists (String a (String b (String c EmptyString)) +++ p). split.
        - constructor; assumption.
        - cbn [String.append]. rewrite <- E. reflexivity. }
      exists EmptyString. split; [constructor|reflexivity]. }
  exact (G (String.length s) s (Nat.le_refl _)).
Qed.

(** [trimEnd] removes a suffix made of white space. *)
Lemma trimEnd_decompose (s : string) :
  exists suffix, Js.whiteSpaceOnly suffix /\ s = JsText.trimEnd s +++ suffix.
Proof.
  induction s as [|c rest IH].
  - exists EmptyString. split; [constructor|reflexivity].
  - destruct IH as (suffix & Hsuffix & E). cbn [JsText.trimEnd]. cbv zeta.
    destruct (Js.isWhiteSpace (String c (JsText.trimEnd rest))) eqn:W.
    + apply isWhiteSpace_In in W.
      exists (String c (JsText.trimEnd rest) +++ suffix). split.
      * constructor; assumption.
      * cbn [String.append]. rewrite <- E. reflexivity.
    + exists suffix. split; [exact Hsuffix|].
      cbn [String.append]. rewrite <- E. reflexivity.
Qed.

Lemma trimEnd_space (space rest : string) :
  In space Js.whiteSpaces ->
  JsText.trimEnd rest = EmptyString ->
  JsText.trimEnd (space +++ rest) = EmptyString.
Proof.
  intros H Hrest. vm_compute in H.
  repeat (destruct H as [<-|H];
          [cbn [String.append JsText.trimEnd]; cbv zeta; rewrite Hrest;
           reflexivity|]).
  contradiction.
Qed.

Lemma trimEnd_whiteSpaceOnly (s : string) :
  Js.whiteSpaceOnly s -> JsText.trimEnd s = EmptyString.
Proof.
  induction 1 as [|space rest Hin Hrest IH]; [reflexivity|].
  apply trimEnd_space; assumption.
Qed.

(** [s.trim()] is empty exactly when [s] is made of white space only. *)
Lemma trim_empty (s : string) :
  (String.length (JsText.trim s) =? 0)%nat = true <-> Js.whiteSpaceOnly s.
Proof.
  unfold JsText.trim. rewrite Nat.eqb_eq. split.
  - intros H.
    assert (E : JsText.trimEnd (Js.trimStart s) = EmptyString)
      by (destruct (JsText.trimEnd (Js.trimStart s));
          [reflexivity|discriminate]).
    destruct (trimEnd_decompose (Js.trimStart s)) as (suffix & Hs & Es).
    rewrite E in Es. cbn [String.append] in Es.
    destruct (trimStart_decompose s) as (p & Hp & Ep).
    rewrite Ep, Es. apply whiteSpaceOnly_app; assumption.
  - intros H. rewrite (trimStart_whiteSpaceOnly s H). reflexivity.
Qed.

(** [trim] removes white space only and leaves none at either end. *)
Lemma trim_decompose (s : string) :
  exists p suffix,
    Js.whiteSpaceOnly p /\ Js.whiteSpaceOnly suffix /\
    s = p +++ JsText.trim s +++ suffix.
Proof.
  destruct (trimStart_decompose s) as (p & Hp & Ep).
  destruct (trimEnd_decompose (Js.trimStart s)) as (suffix & Hs & Es).
  exists p, suffix. split; [exact Hp|]. split; [exact Hs|].
  unfold JsText.trim. rewrite <- Es. exact Ep.
Qed.

(** [isBlank]: [undefined], empty, or made of white space only. *)
Lemma isBlank_spec (s : option string) :
  Tools.isBlank s = true <->
  s = None \/ exists text, s = Some text /\ Js.whiteSpaceOnly text.
Proof.
  unfold Tools.isBlank. destruct s as [text|].
  - rewrite orb_true_iff, trim_empty. split.
    + intros [H|H].
      * destruct text; [|discriminate]. right. exists EmptyString.
        split; [reflexivity|constructor].
      * right. exists text. auto.
    + intros [H|(t & E & H)]; [discriminate|].
      injection E as <-. right. exact H.
  - cbn. split; auto.
Qed.

(** [parseInt] on sample header values. *)
Example parseInt_samples :
  Js.parseInt "2" = Some 2 /\ Js.parseInt "0" = Some 0 /\
  Js.parseInt "120" = Some 120 /\ Js.parseInt " 30" = Some 30 /\
  Js.parseInt "-5" = Some (-5) /\ Js.parseInt "0x1F" = Some 31 /\
  Js.parseInt "12px" = Some 12 /\ Js.parseInt "" = None /\
  Js.parseInt "Wed, 21 Oct 2015 07:28:00 GMT" = None /\
  Js.parseInt (Js.utf8 160 +++ "5") = Some 5 /\
  Js.parseInt "9007199254740993" = Some 9007199254740992 /\
  Js.parseInt "99999999999999999999" = Some 100000000000000000000.
Proof. repeat split. Qed.

(** The white space characters as they are written, and [trim] on a text
    with white space of several bytes at both ends. *)
Example whiteSpace_samples :
  List.length Js.whiteSpaces = 25%nat /\
  Js.utf8 160 = String (Js.byte 194) (String (Js.byte 160) EmptyString) /\
  Js.utf8 8232
  = String (Js.byte 226)
      (String (Js.byte 128) (String (Js.byte 168) EmptyString)) /\
  JsText.trim (Js.utf8 160 +++ " a b" +++ Js.utf8 8232 +++ Js.utf8 65279)
  = "a b" /\
  JsText.trim (Js.utf8 12288 +++ Js.utf8 160) = EmptyString /\
  Js.toNumber (100000000000000000000 * 1000) = 99999999999999991611392.
Proof. repeat split. Qed.

Ltac digit_cases d H :=
  unfold Js.isDigit in H;
  assert (d = 0 \/ d = 1 \/ d = 2 \/ d = 3 \/ d = 4 \/ d = 5 \/ d = 6
          \/ d = 7 \/ d = 8 \/ d = 9) as Hcases by lia;
  clear H;
  repeat (destruct Hcases as [Hcases|Hcases]; [subst d|]); [..|subst d].

Lemma digitValue_digitChar (d : Z) :
  Js.isDigit d -> Js.digitValue (Js.digitChar d) = Some d.
Proof.
  intros H. digit_cases d H; reflexivity.
Qed.

Lemma digitsPrefix_numeral (ds : list Z) :
  Forall Js.isDigit ds ->
  forall acc,
    Js.digitsPrefix 10 (Js.numeral ds) (Some acc)
    = Some (Js.numeralValue acc ds).
Proof.
  induction 1 as [|d ds Hd Hds IH]; intros acc; [reflexivity|].
  cbn [Js.numeral Js.digitsPrefix Js.numeralValue].
  rewrite (digitValue_digitChar d Hd).
  replace (d <? 10) with true
    by (symmetry; apply Z.ltb_lt; unfold Js.isDigit in Hd; lia).
  apply IH.
Qed.

(** [parseInt] reads every decimal numeral as the double nearest to the
    number it denotes. *)
Lemma parseInt_numeral (d : Z) (ds : list Z) :
  Forall Js.isDigit (d :: ds) ->
  Js.parseInt (Js.numeral (d :: ds))
  = Some (Js.toNumber (Js.numeralValue 0 (d :: ds))).
Proof.
  intros H. inversion H as [|d' ds' Hd Hds]; subst.
  assert (Hrest : Js.digitsPrefix 10 (Js.numeral (d :: ds)) None
                  = Some (Js.numeralValue 0 (d :: ds))).
  { cbn [Js.numeral Js.digitsPrefix Js.numeralValue].
    rewrite (digitValue_digitChar d Hd).
    replace (d <? 10) with true
      by (symmetry; apply Z.ltb_lt; unfold Js.isDigit in Hd; lia).
    rewrite Z.mul_0_l, Z.add_0_l. apply digitsPrefix_numeral. exact Hds. }
  assert (Htrim : Js.trimStart (Js.numeral (d :: ds))
                  = Js.numeral (d :: ds)).
  { cbn [Js.numeral]. apply trimStart_unchanged.
    intros space t Hin E. subst space. vm_compute in Hin.
    digit_cases d Hd;
      repeat (destruct Hin as [Hin|Hin]; [discriminate|]); exact Hin. }
  unfold Js.parseInt. rewrite Htrim.
  transitivity
    (option_map (fun n => Js.toNumber (1 * n))
       (Js.digitsPrefix 10 (Js.numeral (d :: ds)) None)).
  - clear Hrest Htrim H.
    destruct ds as [|d2 ds].
    + digit_cases d Hd; reflexivity.
    + inversion Hds as [|d2' ds' Hd2 Hds2]; subst.
      digit_cases d Hd; try reflexivity.
      digit_cases d2 Hd2; reflexivity.
  - rewrite Hrest. cbn [option_map]. rewrite Z.mul_1_l. reflexivity.
Qed.

Lemma numeralValue_nonneg (ds : list Z) :
  forall acc, 0 <= acc -> Forall Js.isDigit ds ->
              0 <= Js.numeralValue acc ds.
Proof.
  induction ds as [|d ds IH]; intros acc Hacc Hds; [exact Hacc|].
  inversion Hds as [|d' ds' Hd Hds']; subst.
  cbn [Js.numeralValue]. apply IH; [|exact Hds'].
  unfold Js.isDigit in Hd. lia.
Qed.

(** Up to [2 ^ 53] in absolute value an integer is a double. *)
Lemma toNumber_exact (n : Z) :
  - Js.MAX_SAFE_INTEGER <= n <= Js.MAX_SAFE_INTEGER -> Js.toNumber n = n.
Proof.
  unfold Js.MAX_SAFE_INTEGER, Js.toNumber. intros H. cbv zeta.
  replace (Z.abs n <=? 2 ^ 53) with true; [reflexivity|].
  symmetry. apply Z.leb_le. lia.
Qed.

Lemma bind_returned {A B} (m : M A) (k : A -> M B) (w w1 : World)
    (a : A) (l1 : list Event) :
  m w = (Returned a, w1, l1) ->
  bind m k w = (outcomeOf (k a w1), worldOf (k a w1), l1 ++ eventsOf (k a w1)).
Proof.
  intros E. unfold bind. rewrite E.
  destruct (k a w1) as [[r w2] l2]. reflexivity.
Qed.

Lemma bind_threw {A B} (m : M A) (k : A -> M B) (w w1 : World)
    (e : Exn) (l1 : list Event) :
  m w = (Threw e, w1, l1) ->
  bind m k w = (Threw e, w1, l1).
Proof.
  intros E. unfold bind. rewrite E. reflexivity.
Qed.

Lemma result_eta {A} (r : Outcome A * World * list Event) :
  r = (outcomeOf r, worldOf r, eventsOf r).
Proof. destruct r as [[o w] l]. reflexivity. Qed.

(* ===================================================================== *)
(** ** auth.ts: the three ways [refreshAccessToken] can end *)
(* ===================================================================== *)

Section RefreshFacts.

Variable remote : Remote.

Lemma refresh_no_token (w : World) :
  Js.truthyString (Auth.heldRefreshToken w) = false ->
  Auth.refreshAccessToken remote w
  = (Threw (JsError Auth.noRefreshTokenMessage), w, [EvRefreshAccessToken]).
Proof.
  intros H. unfold Auth.refreshAccessToken, bind, emit, getWorld, throw.
  simpl. rewrite H. reflexivity.
Qed.

Lemma refresh_rejected (w : World) (error : Exn) :
  Js.truthyString (Auth.heldRefreshToken w) = true ->
  refreshReply remote (refreshRequests w) = Rejected error ->
  Auth.refreshAccessToken remote w
  = (Threw (JsError ("Failed to refresh access token: " +++ errorText error)),
     Auth.afterRefreshRequest w,
     [EvRefreshAccessToken; EvRefreshRequest]).
Proof.
  intros H R.
  unfold Auth.refreshAccessToken, bind, emit, getWorld, throw, tryCatch,
    Auth.apiRefreshAccessToken.
  simpl. rewrite H. simpl. rewrite R. reflexivity.
Qed.

Lemma refresh_resolved (w : World) (body : TokenBody) :
  Js.truthyString (Auth.heldRefreshToken w) = true ->
  refreshReply remote (refreshRequests w) = Resolved body ->
  Auth.refreshAccessToken remote w
  = (Returned (Auth.refreshedResponse w body),
     Auth.afterRefresh remote w body,
     [EvRefreshAccessToken; EvRefreshRequest]).
Proof.
  intros H R.
  unfold Auth.refreshAccessToken, bind, emit, getWorld, throw, tryCatch,
    Auth.apiRefreshAccessToken, Auth.dateNow, Auth.setTokenMetadata,
    Auth.setAccessToken, Auth.setRefreshToken, ret.
  simpl. rewrite H. simpl. rewrite R. simpl.
  unfold Auth.heldRefreshToken at 2. simpl.
  rewrite strictNeqString_same. reflexivity.
Qed.

(** A successful refresh leaves a refresh token in place. *)
Lemma afterRefresh_holds_token (w : World) (body : TokenBody) :
  Js.truthyString (Auth.heldRefreshToken w) = true ->
  Js.truthyString (Auth.heldRefreshToken (Auth.afterRefresh remote w body))
  = true.
Proof.
  intros H. unfold Auth.afterRefresh, Auth.heldRefreshToken at 1. simpl.
  apply orString_truthy. exact H.
Qed.

(** Whatever happens, [refreshAccessToken] ends in one of the three ways
    above. *)
Lemma refresh_cases (w : World) :
  (Js.truthyString (Auth.heldRefreshToken w) = false /\
   Auth.refreshAccessToken remote w
   = (Threw (JsError Auth.noRefreshTokenMessage), w, [EvRefreshAccessToken]))
  \/
  (exists error,
     Js.truthyString (Auth.heldRefreshToken w) = true /\
     refreshReply remote (refreshRequests w) = Rejected error /\
     Auth.refreshAccessToken remote w
     = (Threw (JsError ("Failed to refresh access token: "
                          +++ errorText error)),
        Auth.afterRefreshRequest w,
        [EvRefreshAccessToken; EvRefreshRequest]))
  \/
  (exists body,
     Js.truthyString (Auth.heldRefreshToken w) = true /\
     refreshReply remote (refreshRequests w) = Resolved body /\
     Auth.refreshAccessToken remote w
     = (Returned (Auth.refreshedResponse w body),
        Auth.afterRefresh remote w body,
        [EvRefreshAccessToken; EvRefreshRequest])).
Proof.
  destruct (Js.truthyString (Auth.heldRefreshToken w)) eqn:H.
  - destruct (refreshReply remote (refreshRequests w)) as [body|error] eqn:R.
    + right; right. exists body. auto using refresh_resolved.
    + right; left. exists error. auto using refresh_rejected.
  - left. auto using refresh_no_token.
Qed.

End RefreshFacts.

(* ===================================================================== *)
(** ** auth.ts: [isTokenExpired] and [ensureValidToken] *)
(* ===================================================================== *)

Section EnsureFacts.

Variable remote : Remote.

Lemma isTokenExpired_none (w : World) :
  tokenMetadata w = None ->
  Auth.isTokenExpired remote w = (Returned true, w, []).
Proof.
  intros H. unfold Auth.isTokenExpired, bind, getWorld, ret.
  rewrite H. reflexivity.
Qed.

Lemma isTokenExpired_some (w : World) (tm : TokenMetadata) :
  tokenMetadata w = Some tm ->
  Auth.isTokenExpired remote w
  = (Returned (clock remote (clockReads w) >=? expiresAt tm - 60 * 1000),
     worldOf (Auth.dateNow remote w), []).
Proof.
  intros H. destruct w; simpl in H; subst. reflexivity.
Qed.

Lemma ensureValidToken_tail (w : World) (l : list Event) :
  l = [] \/ l = [EvRefreshAccessToken]
  \/ l = [EvRefreshAccessToken; EvRefreshRequest] ->
  ensureTrace (EvEnsureValidToken :: l).
Proof.
  intros [E|[E|E]]; subst; constructor.
Qed.

Lemma accessToken_check_silent (w : World) :
  eventsOf
    ((w' <- getWorld ;;
      match Auth.heldAccessToken w' with
      | Some t =>
          if Js.truthyString (Some t) then ret t
          else throw (JsError Auth.noAccessTokenMessage)
      | None => throw (JsError Auth.noAccessTokenMessage)
      end) w) = [].
Proof.
  unfold bind, getWorld, ret, throw.
  destruct (Auth.heldAccessToken w) as [t|]; [destruct t|]; reflexivity.
Qed.

Lemma ensureValidToken_trace (w : World) :
  ensureTrace (eventsOf (Auth.ensureValidToken remote w)).
Proof.
  unfold Auth.ensureValidToken.
  erewrite bind_returned by reflexivity. cbn [eventsOf snd app].
  apply (ensureValidToken_tail w).
  assert (Hexp : exists b w1,
             Auth.isTokenExpired remote w = (Returned b, w1, []) /\
             (b = false -> tokenMetadata w <> None)).
  { destruct (tokenMetadata w) as [tm|] eqn:Htm.
    - eexists _, _. split; [apply (isTokenExpired_some w tm Htm)|].
      discriminate.
    - exists true, w. split; [apply (isTokenExpired_none w Htm)|].
      discriminate. }
  destruct Hexp as (b & w1 & E & _).
  erewrite bind_returned by exact E. cbn [eventsOf snd app].
  destruct b.
  - destruct (refresh_cases remote w1)
      as [[_ R]|[(error & _ & _ & R)|(body & _ & _ & R)]].
    + erewrite bind_threw by (apply bind_threw; exact R). cbn; auto.
    + erewrite bind_threw by (apply bind_threw; exact R). cbn; auto.
    + erewrite bind_returned
        by (erewrite bind_returned by exact R; reflexivity).
      cbn [eventsOf snd app]. rewrite accessToken_check_silent. auto.
  - erewrite bind_returned by reflexivity.
    cbn [eventsOf snd app]. rewrite accessToken_check_silent. auto.
Qed.

Lemma ensureTrace_head (l : list Event) :
  ensureTrace l ->
  exists rest,
    l = EvEnsureValidToken :: rest /\
    countEvents isEnsure rest = 0%nat /\
    countEvents isOperation l = 0%nat /\
    sleepsOf l = [].
Proof.
  intros H; destruct H; eexists; repeat split; reflexivity.
Qed.

(** With no [tokenMetadata] at all, the check stops at the guard of
    [refreshAccessToken]. *)
Lemma ensureValidToken_no_metadata (w : World) :
  tokenMetadata w = None ->
  Auth.ensureValidToken remote w
  = (Threw (JsError Auth.noRefreshTokenMessage), w,
     [EvEnsureValidToken; EvRefreshAccessToken]).
Proof.
  intros H. unfold Auth.ensureValidToken.
  erewrite bind_returned by reflexivity.
  erewrite bind_returned by (apply isTokenExpired_none; exact H).
  assert (R := refresh_no_token remote w).
  unfold Auth.heldRefreshToken in R. rewrite H in R.
  specialize (R eq_refl).
  erewrite bind_threw by (apply bind_threw; exact R). reflexivity.
Qed.

End EnsureFacts.

(* ===================================================================== *)
(** ** The token manager: freshness, refresh, exchange *)
(* ===================================================================== *)

(** C7. [isTokenExpired()] returns [true] exactly when no credential is
    held or the clock has reached [expiresAt] minus the 60 second buffer
    (times are in milliseconds): it is [true] for every held credential
    that expires within 60 seconds or has expired, and [false] for every
    credential that expires more than 60 seconds from now. *)
Theorem isTokenExpired_buffer (remote : Remote) (w : World) :
  exists expired,
    outcomeOf (Auth.isTokenExpired remote w) = Returned expired /\
    (expired = true <->
     tokenMetadata w = None \/
     exists tm, tokenMetadata w = Some tm /\
                clock remote (clockReads w) >= expiresAt tm - 60 * 1000) /\
    (forall tm, tokenMetadata w = Some tm ->
                expiresAt tm - clock remote (clockReads w) <= 60 * 1000 ->
                expired = true) /\
    (forall tm, tokenMetadata w = Some tm ->
                expiresAt tm - clock remote (clockReads w) > 60 * 1000 ->
                expired = false).
Proof.
  destruct (tokenMetadata w) as [tm|] eqn:Htm.
  - rewrite (isTokenExpired_some remote w tm Htm).
    exists (clock remote (clockReads w) >=? expiresAt tm - 60 * 1000).
    split; [reflexivity|]. split; [|split].
    + rewrite Z.geb_le. split.
      * intros H. right. exists tm. split; [reflexivity|lia].
      * intros [H|(tm' & E & H)]; [discriminate|].
        injection E as <-. lia.
    + intros tm' E H. injection E as <-. apply Z.geb_le. lia.
    + intros tm' E H. injection E as <-.
      destruct (clock remote (clockReads w) >=? expiresAt tm - 60 * 1000)
        eqn:G; [|reflexivity].
      apply Z.geb_le in G. lia.
  - rewrite (isTokenExpired_none remote w Htm).
    exists true. split; [reflexivity|]. split; [|split].
    + split; auto.
    + reflexivity.
    + intros tm E. discriminate.
Qed.

(** A credential that expires exactly 60 seconds after the clock reading is
    reported expired. *)
Lemma isTokenExpired_buffer_witness :
  outcomeOf
    (Auth.isTokenExpired Samples.goodRemote
       {| tokenMetadata :=
            Some {| accessToken := "a"; refreshToken := Some "rt";
                    expiresAt := 1060000 |};
          apiAccessToken := Some "a"; apiRefreshToken := Some "rt";
          clockReads := 0; grantRequests := 0; refreshRequests := 0 |})
  = Returned true.
Proof.
  destruct (isTokenExpired_buffer Samples.goodRemote
              {| tokenMetadata :=
                   Some {| accessToken := "a"; refreshToken := Some "rt";
                           expiresAt := 1060000 |};
                 apiAccessToken := Some "a"; apiRefreshToken := Some "rt";
                 clockReads := 0; grantRequests := 0; refreshRequests := 0 |})
    as (expired & E & _ & Hnear & _).
  rewrite E. f_equal. eapply Hnear; [reflexivity|]. simpl. lia.
Defined.

(** C8 (amended). After [refreshAccessToken()] succeeds on a response with
    no refresh token, the held refresh token is the one held before, and
    the response handed back carries it; after it succeeds on a response
    with no scope, the response handed back carries the fixed list
    [SPOTIFY_SCOPES] joined by spaces. *)
Theorem refresh_retains_refresh_token (remote : Remote) (w w' : World)
    (body : TokenBody) (tr : TokenResponse) (events : list Event) :
  Auth.refreshAccessToken remote w = (Returned tr, w', events) ->
  refreshReply remote (refreshRequests w) = Resolved body ->
  (Js.truthyString (body_refresh_token body) = false ->
   Auth.heldRefreshToken w' = Auth.heldRefreshToken w /\
   refresh_token tr = Auth.heldRefreshToken w) /\
  (Js.truthyString (body_scope body) = false ->
   scope tr = Some (String.concat " " Auth.SPOTIFY_SCOPES)).
Proof.
  intros Run Reply.
  destruct (refresh_cases remote w)
    as [[_ E]|[(error & _ & R & E)|(body' & _ & R & E)]];
    rewrite E in Run; try discriminate.
  rewrite Reply in R. injection R as <-.
  injection Run as <- <- _.
  split; intros Homit.
  - unfold Auth.afterRefresh, Auth.refreshedResponse,
      Auth.heldRefreshToken at 1, Js.orString.
    cbn [tokenMetadata refreshToken refresh_token]. rewrite Homit. auto.
  - unfold Auth.refreshedResponse, Js.orString. cbn [scope].
    rewrite Homit. reflexivity.
Qed.

Lemma refresh_retains_refresh_token_witness :
  Auth.heldRefreshToken
    (worldOf (Auth.refreshAccessToken Samples.goodRemote Samples.seeded))
  = Some "rt" /\
  scope (Auth.refreshedResponse Samples.seeded Samples.okBody)
  = Some (String.concat " " Auth.SPOTIFY_SCOPES).
Proof.
  destruct (refresh_retains_refresh_token Samples.goodRemote Samples.seeded
              (Auth.afterRefresh Samples.goodRemote Samples.seeded
                                 Samples.okBody)
              Samples.okBody
              (Auth.refreshedResponse Samples.seeded Samples.okBody)
              [EvRefreshAccessToken; EvRefreshRequest]
              eq_refl eq_refl) as [Htoken Hscope].
  split.
  - destruct (Htoken eq_refl) as [H _]. exact H.
  - exact (Hscope eq_refl).
Defined.

(** C8, as stated, fails: an exchange records the scope the remote granted
    ("user-library-read"), the next refresh response leaves the scope out,
    and the token response handed back by the refresh carries the six
    scopes of [SPOTIFY_SCOPES], not the scope recorded before. *)
Lemma refresh_scope_counterexample :
  let exchange :=
    Auth.exchangeCodeForToken Samples.narrowRemote "code" Samples.unseeded in
  let refresh :=
    Auth.refreshAccessToken Samples.narrowRemote (worldOf exchange) in
  exists granted refreshed,
    outcomeOf exchange = Returned granted /\
    scope granted = Some "user-library-read" /\
    refreshReply Samples.narrowRemote (refreshRequests (worldOf exchange))
    = Resolved Samples.okBody /\
    body_scope Samples.okBody = None /\
    outcomeOf refresh = Returned refreshed /\
    scope refreshed <> scope granted.
Proof.
  cbv zeta. eexists. eexists.
  split; [reflexivity|]. split; [reflexivity|]. split; [reflexivity|].
  split; [reflexivity|]. split; [reflexivity|].
  cbn. discriminate.
Qed.

(** C9 (amended). If the remote rejects the authorization-code exchange,
    [exchangeCodeForToken] throws an error whose message wraps the remote's
    message, after that one request, and leaves the held credential and the
    tokens of the API client exactly as they were: if no access token was
    held before the call, none is held after it. *)
Theorem exchange_failure_raised (remote : Remote) (code : string)
    (w : World) (error : Exn) :
  grantReply remote (grantRequests w) code = Rejected error ->
  exists w',
    Auth.exchangeCodeForToken remote code w
    = (Threw (JsError ("Failed to exchange authorization code for token: "
                         +++ errorText error)),
       w', [EvGrantRequest code]) /\
    tokenMetadata w' = tokenMetadata w /\
    apiAccessToken w' = apiAccessToken w /\
    apiRefreshToken w' = apiRefreshToken w /\
    (Js.truthyString (Auth.heldAccessToken w) = false ->
     Js.truthyString (Auth.heldAccessToken w') = false).
Proof.
  intros R.
  unfold Auth.exchangeCodeForToken, tryCatch.
  erewrite bind_threw
    by (unfold Auth.authorizationCodeGrant; rewrite R; reflexivity).
  unfold throw. eexists. split; [reflexivity|].
  repeat split. intros H. exact H.
Qed.

Lemma exchange_failure_raised_witness :
  exists w',
    Auth.exchangeCodeForToken Samples.strictRemote "stale"
      (worldOf (Auth.exchangeCodeForToken Samples.strictRemote "code"
                  Samples.unseeded))
    = (Threw (JsError
                "Failed to exchange authorization code for token: invalid_grant"),
       w', [EvGrantRequest "stale"]) /\
    tokenMetadata w'
    = tokenMetadata
        (worldOf (Auth.exchangeCodeForToken Samples.strictRemote "code"
                    Samples.unseeded)).
Proof.
  destruct (exchange_failure_raised Samples.strictRemote "stale"
              (worldOf (Auth.exchangeCodeForToken Samples.strictRemote "code"
                          Samples.unseeded))
              (JsError "invalid_grant") eq_refl)
    as (w' & E & Hmeta & _).
  exists w'. split; [exact E|exact Hmeta].
Defined.

(** C9, as stated, fails: after one successful exchange, a second exchange
    that the remote rejects throws, and the access token of the first
    exchange is still held. *)
Lemma exchange_failure_counterexample :
  let first :=
    Auth.exchangeCodeForToken Samples.strictRemote "code" Samples.unseeded in
  let second :=
    Auth.exchangeCodeForToken Samples.strictRemote "stale" (worldOf first) in
  grantReply Samples.strictRemote (grantRequests (worldOf first)) "stale"
  = Rejected (JsError "invalid_grant") /\
  outcomeOf second
  = Threw (JsError
             "Failed to exchange authorization code for token: invalid_grant") /\
  Auth.heldAccessToken (worldOf second) = Some "first".
Proof.
  cbv zeta. repeat split.
Qed.

(** C10. Whenever [refreshAccessToken()] throws, whether at its guard or
    because the remote rejected the refresh, [tokenMetadata] (access token,
    refresh token and expiry) is what it was before the call, and so are
    the tokens of the API client. *)
Theorem refresh_failure_atomic (remote : Remote) (w w' : World) (e : Exn)
    (events : list Event) :
  Auth.refreshAccessToken remote w = (Threw e, w', events) ->
  tokenMetadata w' = tokenMetadata w /\
  apiAccessToken w' = apiAccessToken w /\
  apiRefreshToken w' = apiRefreshToken w.
Proof.
  intros Run.
  destruct (refresh_cases remote w)
    as [[_ E]|[(error & _ & _ & E)|(body & _ & _ & E)]];
    rewrite E in Run; try discriminate;
    injection Run as _ <- _; auto.
Qed.

Lemma refresh_failure_atomic_witness :
  tokenMetadata
    (worldOf (Auth.refreshAccessToken Samples.strictRemote Samples.seeded))
  = tokenMetadata Samples.seeded.
Proof.
  destruct (refresh_failure_atomic Samples.strictRemote Samples.seeded
              (Auth.afterRefreshRequest Samples.seeded)
              (JsError "Failed to refresh access token: Invalid refresh token")
              [EvRefreshAccessToken; EvRefreshRequest] eq_refl)
    as [H _].
  exact H.
Defined.

(* ===================================================================== *)
(** ** spotify_api.ts: [handleError] *)
(* ===================================================================== *)

Lemma handleError_status (error : OpError) (name : string) :
  exists text,
    Api.handleError (Some error) name
    = SpotifyApiError text (Api.errStatus error) (Some error).
Proof. unfold Api.handleError. eexists. reflexivity. Qed.

Lemma handleError_401 (error : OpError) (name : string) :
  Api.errStatus error = Some 401 ->
  Api.handleError (Some error) name
  = SpotifyApiError Api.authFailedMessage (Some 401) (Some error).
Proof. intros H. unfold Api.handleError. rewrite H. reflexivity. Qed.

Lemma handleError_404 (error : OpError) (name : string) :
  Api.errStatus error = Some 404 ->
  Api.handleError (Some error) name
  = SpotifyApiError Api.notFoundMessage (Some 404) (Some error).
Proof. intros H. unfold Api.handleError. rewrite H. reflexivity. Qed.

Lemma handleError_429 (error : OpError) (name : string) :
  Api.errStatus error = Some 429 ->
  Api.handleError (Some error) name
  = SpotifyApiError Api.rateLimitMessage (Some 429) (Some error).
Proof. intros H. unfold Api.handleError. rewrite H. reflexivity. Qed.

(* ===================================================================== *)
(** ** spotify_api.ts: one iteration of the retry loop *)
(* ===================================================================== *)

Lemma strictEq_true (v : option Z) (n : Z) :
  Js.strictEq v n = true <-> v = Some n.
Proof.
  destruct v as [m|]; simpl; split; intros H; try discriminate.
  - apply Z.eqb_eq in H. congruence.
  - injection H as ->. apply Z.eqb_refl.
Qed.

Section Executor.

Variable remote : Remote.
Variable retryConfig : Api.RetryConfig.
Variable T : Type.
Variable operation : nat -> Api.OpOutcome T.
Variable operationName : string.

Local Abbreviation loop :=
  (Api.attemptLoop remote retryConfig T operation operationName).
Local Abbreviation run :=
  (Api.executeWithRetry remote retryConfig T operation operationName).

(** The loop counter and the number of iterations left agree on when the
    loop stops. *)
Lemma loop_test_remaining (attempt : Z) :
  (attempt <=? Api.maxRetries retryConfig) = true <->
  Z.to_nat (Api.maxRetries retryConfig + 1 - attempt) <> 0%nat.
Proof.
  rewrite Z.leb_le. lia.
Qed.

Lemma loop_exit (attempt delay : Z) (lastError : option OpError)
    (calls : nat) (w : World) :
  loop 0%nat attempt delay lastError calls w
  = (Threw (Api.handleError lastError operationName), w, []).
Proof. reflexivity. Qed.

Lemma loop_resolves (remaining : nat) (attempt delay : Z)
    (lastError : option OpError) (calls : nat) (w : World) (value : T) :
  operation calls = Api.Resolves value ->
  loop (S remaining) attempt delay lastError calls w
  = (Returned value, w, [EvOperation]).
Proof.
  intros E. cbn [Api.attemptLoop]. rewrite E. reflexivity.
Qed.

(** 401: refresh, then the next iteration with the same [delay]. *)
Lemma loop_401_refreshed (remaining : nat) (attempt delay : Z)
    (lastError : option OpError) (calls : nat) (w w1 : World)
    (error : OpError) (tr : TokenResponse) (l1 : list Event) :
  operation calls = Api.Rejects error ->
  Api.errStatus error = Some 401 ->
  Auth.refreshAccessToken remote w = (Returned tr, w1, l1) ->
  let next := loop remaining (attempt + 1) delay (Some error) (S calls) w1 in
  loop (S remaining) attempt delay lastError calls w
  = (outcomeOf next, worldOf next, EvOperation :: l1 ++ eventsOf next).
Proof.
  intros E S R next. cbn [Api.attemptLoop]. rewrite E.
  erewrite bind_returned by reflexivity.
  cbv zeta. rewrite S. cbn [Js.strictEq Z.eqb Pos.eqb].
  erewrite bind_returned by exact R. reflexivity.
Qed.

(** 401 with a refresh that throws: the exception of the refresh leaves
    the loop as it is. *)
Lemma loop_401_refresh_threw (remaining : nat) (attempt delay : Z)
    (lastError : option OpError) (calls : nat) (w w1 : World)
    (error : OpError) (e : Exn) (l1 : list Event) :
  operation calls = Api.Rejects error ->
  Api.errStatus error = Some 401 ->
  Auth.refreshAccessToken remote w = (Threw e, w1, l1) ->
  loop (S remaining) attempt delay lastError calls w
  = (Threw e, w1, EvOperation :: l1).
Proof.
  intros E S R. cbn [Api.attemptLoop]. rewrite E.
  erewrite bind_returned by reflexivity.
  cbv zeta. rewrite S. cbn [Js.strictEq Z.eqb Pos.eqb].
  erewrite bind_threw by exact R. reflexivity.
Qed.

(** 429 with retries left: one sleep, [delay] multiplied. *)
Lemma loop_429_backoff (remaining : nat) (attempt delay : Z)
    (lastError : option OpError) (calls : nat) (w : World)
    (error : OpError) :
  operation calls = Api.Rejects error ->
  Api.errStatus error = Some 429 ->
  attempt < Api.maxRetries retryConfig ->
  let next :=
    loop remaining (attempt + 1)
         (delay * Api.backoffMultiplier retryConfig) (Some error)
         (S calls) w in
  loop (S remaining) attempt delay lastError calls w
  = (outcomeOf next, worldOf next,
     EvOperation :: EvSleep (Api.rateLimitWait retryConfig delay error)
       :: eventsOf next).
Proof.
  intros E S A next. cbn [Api.attemptLoop]. rewrite E.
  erewrite bind_returned by reflexivity.
  cbv zeta. rewrite S. cbn [Js.strictEq Z.eqb Pos.eqb].
  apply Z.ltb_lt in A. rewrite A.
  erewrite bind_returned by reflexivity. reflexivity.
Qed.

(** 503 with retries left: one sleep of the computed delay, [delay]
    multiplied. *)
Lemma loop_503_backoff (remaining : nat) (attempt delay : Z)
    (lastError : option OpError) (calls : nat) (w : World)
    (error : OpError) :
  operation calls = Api.Rejects error ->
  Api.errStatus error = Some 503 ->
  attempt < Api.maxRetries retryConfig ->
  let next :=
    loop remaining (attempt + 1)
         (delay * Api.backoffMultiplier retryConfig) (Some error)
         (S calls) w in
  loop (S remaining) attempt delay lastError calls w
  = (outcomeOf next, worldOf next,
     EvOperation :: EvSleep (Api.unavailableWait retryConfig delay)
       :: eventsOf next).
Proof.
  intros E S A next. cbn [Api.attemptLoop]. rewrite E.
  erewrite bind_returned by reflexivity.
  cbv zeta. rewrite S. cbn [Js.strictEq Z.eqb Pos.eqb].
  apply Z.ltb_lt in A. rewrite A.
  erewrite bind_returned by reflexivity. reflexivity.
Qed.

(** Every other failure, and 429 or 503 on the last attempt, is thrown
    at once. *)
Lemma loop_terminal (remaining : nat) (attempt delay : Z)
    (lastError : option OpError) (calls : nat) (w : World)
    (error : OpError) :
  operation calls = Api.Rejects error ->
  Api.errStatus error <> Some 401 ->
  (Api.errStatus error = Some 429 \/ Api.errStatus error = Some 503 ->
   Api.maxRetries retryConfig <= attempt) ->
  loop (S remaining) attempt delay lastError calls w
  = (Threw (Api.handleError (Some error) operationName), w, [EvOperation]).
Proof.
  intros E N401 Hlast. cbn [Api.attemptLoop]. rewrite E.
  erewrite bind_returned by reflexivity. cbv zeta.
  destruct (Js.strictEq (Api.errStatus error) 401) eqn:S401.
  { apply strictEq_true in S401. contradiction. }
  assert (L : forall s, Api.errStatus error = Some s -> s = 429 \/ s = 503 ->
                        (attempt <? Api.maxRetries retryConfig) = false).
  { intros s Hs Hor. apply Z.ltb_ge. apply Hlast.
    destruct Hor; subst; auto. }
  destruct (Js.strictEq (Api.errStatus error) 429) eqn:S429;
    destruct (Js.strictEq (Api.errStatus error) 503) eqn:S503;
    try (apply strictEq_true in S429);
    try (apply strictEq_true in S503);
    try rewrite (L _ S429 (or_introl eq_refl));
    try rewrite (L _ S503 (or_intror eq_refl));
    reflexivity.
Qed.

(** [executeWithRetry] is the freshness check followed by the loop. *)
Lemma run_after_check (w w1 : World) (tok : string) (l0 : list Event) :
  Auth.ensureValidToken remote w = (Returned tok, w1, l0) ->
  let body :=
    loop (Z.to_nat (Api.maxRetries retryConfig + 1)) 0
         (Api.initialDelayMs retryConfig) None 0%nat w1 in
  run w = (outcomeOf body, worldOf body, l0 ++ eventsOf body).
Proof.
  intros E body. unfold Api.executeWithRetry.
  erewrite bind_returned by exact E.
  cbv zeta. rewrite Z.sub_0_r. reflexivity.
Qed.

Lemma run_check_threw (w w1 : World) (e : Exn) (l0 : list Event) :
  Auth.ensureValidToken remote w = (Threw e, w1, l0) ->
  run w = (Threw e, w1, l0).
Proof.
  intros E. unfold Api.executeWithRetry.
  erewrite bind_threw by exact E. reflexivity.
Qed.


(* ===================================================================== *)
(** ** spotify_api.ts: runs of several iterations *)
(* ===================================================================== *)

(** An operation that is rate limited every time uses up every iteration
    and ends in the rate-limit error, the state of the token manager
    untouched. *)
Lemma loop_rate_limited (remaining : nat) :
  (forall i, exists error,
      operation i = Api.Rejects error /\ Api.errStatus error = Some 429) ->
  forall (attempt delay : Z) (lastError : option OpError) (calls : nat)
         (w : World),
    Z.of_nat (S remaining) = Api.maxRetries retryConfig + 1 - attempt ->
    exists error events,
      loop (S remaining) attempt delay lastError calls w
      = (Threw (SpotifyApiError Api.rateLimitMessage (Some 429) (Some error)),
         w, events) /\
      operation (calls + remaining)%nat = Api.Rejects error /\
      countEvents isOperation events = S remaining /\
      List.length (sleepsOf events) = remaining.
Proof.
  intros Hop.
  induction remaining as [|r IH]; intros attempt delay lastError calls w Hr.
  - destruct (Hop calls) as (error & E & S).
    exists error, [EvOperation].
    rewrite (loop_terminal 0 attempt delay lastError calls w error E).
    + rewrite (handleError_429 error operationName S).
      rewrite Nat.add_0_r. auto.
    + rewrite S. discriminate.
    + intros _. lia.
  - destruct (Hop calls) as (error & E & S).
    rewrite (loop_429_backoff (Datatypes.S r) attempt delay lastError calls w
               error E S)
      by lia.
    destruct (IH (attempt + 1)
                 (delay * Api.backoffMultiplier retryConfig)
                 (Some error) (Datatypes.S calls) w)
            as (e' & ev & L & O & C & Sl);
      [lia|].
    exists e', (EvOperation
                  :: EvSleep (Api.rateLimitWait retryConfig delay error) :: ev).
    rewrite L. cbn [outcomeOf worldOf eventsOf fst snd].
    repeat split.
    + rewrite <- O. f_equal. lia.
    + change (countEvents isOperation
                (EvOperation
                   :: EvSleep (Api.rateLimitWait retryConfig delay error) :: ev))
        with (Datatypes.S (countEvents isOperation ev)).
      rewrite C. reflexivity.
    + cbn [sleepsOf List.length]. rewrite Sl. reflexivity.
Qed.

(** The wait that follows failure number [k] of a run of 429 and 503
    failures: the delay has been multiplied [k] times by then, whatever
    hints the earlier failures carried. *)
Lemma loop_nth_wait (k : nat) :
  forall (remaining : nat) (attempt delay : Z) (lastError : option OpError)
         (calls : nat) (w : World) (error : OpError),
    (forall i, (i <= k)%nat -> exists e,
        operation (calls + i)%nat = Api.Rejects e /\
        (Api.errStatus e = Some 429 \/ Api.errStatus e = Some 503)) ->
    operation (calls + k)%nat = Api.Rejects error ->
    attempt + Z.of_nat k < Api.maxRetries retryConfig ->
    (k < remaining)%nat ->
    nth_error
      (sleepsOf (eventsOf (loop remaining attempt delay lastError calls w))) k
    = Some
        (if Js.strictEq (Api.errStatus error) 429
         then Api.rateLimitWait retryConfig
                (delay * Api.backoffMultiplier retryConfig ^ Z.of_nat k) error
         else Api.unavailableWait retryConfig
                (delay * Api.backoffMultiplier retryConfig ^ Z.of_nat k)).
Proof.
  induction k as [|k IH];
    intros remaining attempt delay lastError calls w error Hop Ek Ha Hr;
    (destruct remaining as [|r]; [lia|]);
    destruct (Hop 0%nat ltac:(lia)) as (e0 & E0 & S0);
    rewrite Nat.add_0_r in E0.
  - rewrite Nat.add_0_r in Ek. rewrite E0 in Ek. injection Ek as <-.
    rewrite Z.pow_0_r, Z.mul_1_r.
    destruct S0 as [S0|S0].
    + rewrite (loop_429_backoff
                 r attempt delay lastError calls w e0 E0 S0) by lia.
      rewrite S0. reflexivity.
    + rewrite (loop_503_backoff
                 r attempt delay lastError calls w e0 E0 S0) by lia.
      rewrite S0. reflexivity.
  - assert (Hpow : delay * Api.backoffMultiplier retryConfig
                     ^ Z.of_nat (S k)
                   = delay * Api.backoffMultiplier retryConfig
                     * Api.backoffMultiplier retryConfig ^ Z.of_nat k).
    { rewrite Nat2Z.inj_succ, Z.pow_succ_r by lia. ring. }
    rewrite Hpow.
    assert (Hnext :
      nth_error
        (sleepsOf (eventsOf
           (loop r (attempt + 1) (delay * Api.backoffMultiplier retryConfig)
                 (Some e0) (S calls) w))) k
      = Some
          (if Js.strictEq (Api.errStatus error) 429
           then Api.rateLimitWait retryConfig
                  (delay * Api.backoffMultiplier retryConfig
                   * Api.backoffMultiplier retryConfig ^ Z.of_nat k) error
           else Api.unavailableWait retryConfig
                  (delay * Api.backoffMultiplier retryConfig
                   * Api.backoffMultiplier retryConfig ^ Z.of_nat k))).
    { apply IH; try lia.
      - intros i Hi. destruct (Hop (S i) ltac:(lia)) as (e & E & S).
        exists e. split; [|exact S].
        rewrite <- E. f_equal. lia.
      - rewrite <- Ek. f_equal. lia. }
    destruct S0 as [S0|S0].
    + rewrite (loop_429_backoff
                 r attempt delay lastError calls w e0 E0 S0) by lia.
      exact Hnext.
    + rewrite (loop_503_backoff
                 r attempt delay lastError calls w e0 E0 S0) by lia.
      exact Hnext.
Qed.

(** A token manager that holds a refresh token and a remote that grants
    every refresh: then every [refreshAccessToken] returns, with these two
    events, and the manager still holds a refresh token afterwards. *)
Lemma refresh_granted (w : World) :
  (forall k, exists body, refreshReply remote k = Resolved body) ->
  Js.truthyString (Auth.heldRefreshToken w) = true ->
  exists tr w1,
    Auth.refreshAccessToken remote w
    = (Returned tr, w1, [EvRefreshAccessToken; EvRefreshRequest]) /\
    Js.truthyString (Auth.heldRefreshToken w1) = true.
Proof.
  intros Hgrant Hheld.
  destruct (Hgrant (refreshRequests w)) as (body & R).
  exists (Auth.refreshedResponse w body), (Auth.afterRefresh remote w body).
  split.
  - apply refresh_resolved; assumption.
  - apply afterRefresh_holds_token. exact Hheld.
Qed.

(** [n] failures with 401, then a success, with at least [n + 1]
    iterations left: the success is returned, after [n] refreshes and no
    sleep. *)
Lemma loop_401_then_success (n : nat) :
  (forall k, exists body, refreshReply remote k = Resolved body) ->
  forall (remaining : nat) (attempt delay : Z) (lastError : option OpError)
         (calls : nat) (w : World) (value : T),
    Js.truthyString (Auth.heldRefreshToken w) = true ->
    (forall i, (i < n)%nat -> exists e,
        operation (calls + i)%nat = Api.Rejects e /\
        Api.errStatus e = Some 401) ->
    operation (calls + n)%nat = Api.Resolves value ->
    (n < remaining)%nat ->
    exists w' events,
      loop remaining attempt delay lastError calls w
      = (Returned value, w', events) /\
      sleepsOf events = [] /\
      countEvents isOperation events = S n /\
      countEvents isRefresh events = n.
Proof.
  intros Hgrant.
  induction n as [|n IH];
    intros remaining attempt delay lastError calls w value Hheld Hop Ev Hr;
    (destruct remaining as [|r]; [lia|]).
  - rewrite Nat.add_0_r in Ev.
    rewrite (loop_resolves r attempt delay lastError calls w value Ev).
    exists w, [EvOperation]. auto.
  - destruct (Hop 0%nat ltac:(lia)) as (e0 & E0 & S0).
    rewrite Nat.add_0_r in E0.
    destruct (refresh_granted w Hgrant Hheld) as (tr & w1 & R & Hheld1).
    rewrite (loop_401_refreshed
               r attempt delay lastError calls w w1 e0 tr _ E0 S0 R).
    destruct (IH r (attempt + 1) delay (Some e0) (S calls) w1 value Hheld1)
      as (w' & ev & L & Sl & Co & Cr).
    + intros i Hi. destruct (Hop (S i) ltac:(lia)) as (e & E & St).
      exists e. split; [|exact St]. rewrite <- E. f_equal. lia.
    + rewrite <- Ev. f_equal. lia.
    + lia.
    + rewrite L. cbn [outcomeOf worldOf eventsOf fst snd].
      exists w',
        (EvOperation :: [EvRefreshAccessToken; EvRefreshRequest] ++ ev).
      repeat split.
      * cbn [app sleepsOf]. exact Sl.
      * change (countEvents isOperation
                  (EvOperation
                     :: [EvRefreshAccessToken; EvRefreshRequest] ++ ev))
          with (S (countEvents isOperation ev)).
        rewrite Co. reflexivity.
      * change (countEvents isRefresh
                  (EvOperation
                     :: [EvRefreshAccessToken; EvRefreshRequest] ++ ev))
          with (S (countEvents isRefresh ev)).
        rewrite Cr. reflexivity.
Qed.


(** 401 failures leave the delay as it is: the failure with 503 that
    follows [n] of them waits what the delay was before them. *)
Lemma loop_401_keeps_delay (n : nat) :
  (forall k, exists body, refreshReply remote k = Resolved body) ->
  forall (remaining : nat) (attempt delay : Z) (lastError : option OpError)
         (calls : nat) (w : World) (error : OpError),
    Js.truthyString (Auth.heldRefreshToken w) = true ->
    (forall i, (i < n)%nat -> exists e,
        operation (calls + i)%nat = Api.Rejects e /\
        Api.errStatus e = Some 401) ->
    operation (calls + n)%nat = Api.Rejects error ->
    Api.errStatus error = Some 503 ->
    attempt + Z.of_nat n < Api.maxRetries retryConfig ->
    (n < remaining)%nat ->
    exists rest,
      sleepsOf (eventsOf (loop remaining attempt delay lastError calls w))
      = Some (Z.min delay (Api.maxDelayMs retryConfig)) :: rest.
Proof.
  intros Hgrant.
  induction n as [|n IH];
    intros remaining attempt delay lastError calls w error Hheld Hop E S503
           Ha Hr;
    (destruct remaining as [|r]; [lia|]).
  - rewrite Nat.add_0_r in E.
    rewrite (loop_503_backoff r attempt delay lastError calls w error E S503)
      by lia.
    cbn [eventsOf snd sleepsOf]. eexists. reflexivity.
  - destruct (Hop 0%nat ltac:(lia)) as (e0 & E0 & S0).
    rewrite Nat.add_0_r in E0.
    destruct (refresh_granted w Hgrant Hheld) as (tr & w1 & R & Hheld1).
    rewrite (loop_401_refreshed
               r attempt delay lastError calls w w1 e0 tr _ E0 S0 R).
    cbn [eventsOf snd sleepsOf app].
    change (snd ?x) with (eventsOf x).
    apply (IH r (attempt + 1) delay (Some e0) (S calls) w1 error Hheld1).
    + intros i Hi. destruct (Hop (S i) ltac:(lia)) as (e & Ee & St).
      exists e. split; [|exact St]. rewrite <- Ee. f_equal. lia.
    + rewrite <- E. f_equal. lia.
    + exact S503.
    + lia.
    + lia.
Qed.

(** 401 on every one of the iterations left: each is followed by a
    refresh, none by a sleep, and the loop ends in the
    authentication-failed error. *)
Lemma loop_401_exhausted (remaining : nat) :
  (forall k, exists body, refreshReply remote k = Resolved body) ->
  forall (attempt delay : Z) (lastError : option OpError) (calls : nat)
         (w : World),
    Js.truthyString (Auth.heldRefreshToken w) = true ->
    (forall i, (i <= remaining)%nat -> exists e,
        operation (calls + i)%nat = Api.Rejects e /\
        Api.errStatus e = Some 401) ->
    exists error w' events,
      loop (S remaining) attempt delay lastError calls w
      = (Threw (SpotifyApiError Api.authFailedMessage (Some 401) (Some error)),
         w', events) /\
      sleepsOf events = [] /\
      countEvents isOperation events = S remaining /\
      countEvents isRefresh events = S remaining.
Proof.
  intros Hgrant.
  induction remaining as [|r IH];
    intros attempt delay lastError calls w Hheld Hop;
    destruct (Hop 0%nat ltac:(lia)) as (e0 & E0 & S0);
    rewrite Nat.add_0_r in E0;
    destruct (refresh_granted w Hgrant Hheld) as (tr & w1 & R & Hheld1).
  - rewrite (loop_401_refreshed
               0 attempt delay lastError calls w w1 e0 tr _ E0 S0 R).
    rewrite loop_exit. cbn [outcomeOf worldOf eventsOf fst snd].
    rewrite (handleError_401 e0 operationName S0).
    exists e0, w1,
      (EvOperation :: [EvRefreshAccessToken; EvRefreshRequest] ++ []).
    auto.
  - rewrite (loop_401_refreshed
               (S r) attempt delay lastError calls w w1 e0 tr _ E0 S0 R).
    destruct (IH (attempt + 1) delay (Some e0) (S calls) w1 Hheld1)
      as (e' & w' & ev & L & Sl & Co & Cr).
    + intros i Hi. destruct (Hop (S i) ltac:(lia)) as (e & E & St).
      exists e. split; [|exact St]. rewrite <- E. f_equal. lia.
    + rewrite L. cbn [outcomeOf worldOf eventsOf fst snd].
      exists e', w',
        (EvOperation :: [EvRefreshAccessToken; EvRefreshRequest] ++ ev).
      repeat split.
      * cbn [app sleepsOf]. exact Sl.
      * change (countEvents isOperation
                  (EvOperation
                     :: [EvRefreshAccessToken; EvRefreshRequest] ++ ev))
          with (S (countEvents isOperation ev)).
        rewrite Co. reflexivity.
      * change (countEvents isRefresh
                  (EvOperation
                     :: [EvRefreshAccessToken; EvRefreshRequest] ++ ev))
          with (S (countEvents isRefresh ev)).
        rewrite Cr. reflexivity.
Qed.



(** The loop never calls [ensureValidToken]. *)
Lemma loop_no_ensure (remaining : nat) :
  forall (attempt delay : Z) (lastError : option OpError) (calls : nat)
         (w : World),
    countEvents isEnsure
      (eventsOf (loop remaining attempt delay lastError calls w)) = 0%nat.
Proof.
  induction remaining as [|r IH]; intros attempt delay lastError calls w.
  - reflexivity.
  - destruct (operation calls) as [value|error] eqn:E.
    + rewrite (loop_resolves r attempt delay lastError calls w value E).
      reflexivity.
    + destruct (Js.strictEq (Api.errStatus error) 401) eqn:S401.
      { apply strictEq_true in S401.
        destruct (refresh_cases remote w)
          as [[_ R]|[(x & _ & _ & R)|(body & _ & _ & R)]].
        - rewrite (loop_401_refresh_threw r attempt delay lastError calls w _
                     error
                     _ _ E S401 R).
          reflexivity.
        - rewrite (loop_401_refresh_threw r attempt delay lastError calls w _
                     error
                     _ _ E S401 R).
          reflexivity.
        - rewrite (loop_401_refreshed r attempt delay lastError calls w _ error
                     _ _ E S401 R).
          cbn [eventsOf snd].
          change (EvOperation :: [EvRefreshAccessToken; EvRefreshRequest] ++ ?l)
            with ([EvOperation; EvRefreshAccessToken; EvRefreshRequest] ++ l).
          rewrite countEvents_app.
          change (snd ?x) with (eventsOf x). rewrite IH. reflexivity. }
      assert (N401 : Api.errStatus error <> Some 401).
      { intros H. apply strictEq_true in H. congruence. }
      destruct (Z.ltb_spec attempt (Api.maxRetries retryConfig)) as [A|A].
      * destruct (Js.strictEq (Api.errStatus error) 429) eqn:S429.
        { apply strictEq_true in S429.
          rewrite (loop_429_backoff r attempt delay lastError calls w error
                     E S429 A).
          cbn [eventsOf snd].
          change (EvOperation :: EvSleep ?x :: ?l)
            with ([EvOperation; EvSleep x] ++ l).
          rewrite countEvents_app.
          change (snd ?x) with (eventsOf x). rewrite IH. reflexivity. }
        destruct (Js.strictEq (Api.errStatus error) 503) eqn:S503.
        { apply strictEq_true in S503.
          rewrite (loop_503_backoff r attempt delay lastError calls w error
                     E S503 A).
          cbn [eventsOf snd].
          change (EvOperation :: EvSleep ?x :: ?l)
            with ([EvOperation; EvSleep x] ++ l).
          rewrite countEvents_app.
          change (snd ?x) with (eventsOf x). rewrite IH. reflexivity. }
        rewrite (loop_terminal r attempt delay lastError calls w error E N401).
        { reflexivity. }
        intros [H|H]; apply strictEq_true in H; congruence.
      * rewrite (loop_terminal r attempt delay lastError calls w error E N401).
        { reflexivity. }
        intros _. exact A.
Qed.

End Executor.

(* ===================================================================== *)
(** ** The executor: the freshness check comes first *)
(* ===================================================================== *)

(** What the freshness check of a run did, read off the result of
    [ensureValidToken] on the same state. *)
Lemma check_events (remote : Remote) (w w1 : World) (o : Outcome string)
    (l0 : list Event) :
  Auth.ensureValidToken remote w = (o, w1, l0) ->
  exists rest,
    l0 = EvEnsureValidToken :: rest /\
    countEvents isEnsure rest = 0%nat /\
    countEvents isOperation l0 = 0%nat /\
    sleepsOf l0 = [].
Proof.
  intros E. apply ensureTrace_head.
  replace l0 with (eventsOf (Auth.ensureValidToken remote w))
    by (rewrite E; reflexivity).
  apply ensureValidToken_trace.
Qed.

(** C6. [executeWithRetry] calls [ensureValidToken()] exactly once, before
    anything else; if that call throws, the run throws the same exception
    in the same state, having invoked the operation zero times and slept
    zero times.  In particular, on a [SpotifyAuth] that holds no
    [tokenMetadata] (one constructed without a refresh token, for which no
    exchange has succeeded) both [ensureValidToken()] and the run throw the
    no-refresh-token error after the two calls [ensureValidToken] and
    [refreshAccessToken] and no request to the remote. *)
Theorem preflight_check_once (remote : Remote) (retryConfig : Api.RetryConfig)
    (T : Type) (operation : nat -> Api.OpOutcome T) (operationName : string)
    (w : World) :
  let run :=
    Api.executeWithRetry remote retryConfig T operation operationName in
  (exists rest,
      eventsOf (run w) = EvEnsureValidToken :: rest /\
      countEvents isEnsure rest = 0%nat) /\
  (forall e w1 l0,
      Auth.ensureValidToken remote w = (Threw e, w1, l0) ->
      run w = (Threw e, w1, l0) /\
      countEvents isOperation l0 = 0%nat /\
      sleepsOf l0 = []) /\
  (tokenMetadata w = None ->
   Auth.ensureValidToken remote w
   = (Threw (JsError Auth.noRefreshTokenMessage), w,
      [EvEnsureValidToken; EvRefreshAccessToken]) /\
   run w = (Threw (JsError Auth.noRefreshTokenMessage), w,
            [EvEnsureValidToken; EvRefreshAccessToken]) /\
   countEvents isNetwork (eventsOf (run w)) = 0%nat) /\
  (forall config,
      Js.truthyString (Auth.configRefreshToken config) = false ->
      tokenMetadata (Auth.newSpotifyAuth config) = None).
Proof.
  cbv zeta. split; [|split; [|split]].
  - destruct (Auth.ensureValidToken remote w) as [[o w1] l0] eqn:E.
    destruct (check_events remote w w1 o l0 E) as (rest & -> & Hens & _ & _).
    destruct o as [tok|e].
    + rewrite (run_after_check remote retryConfig T operation operationName
                 w w1 tok _ E).
      cbn [eventsOf snd app]. eexists. split; [reflexivity|].
      rewrite countEvents_app, Hens.
      change (snd ?x) with (eventsOf x).
      rewrite loop_no_ensure. reflexivity.
    + rewrite (run_check_threw remote retryConfig T operation operationName
                 w w1 e _ E).
      exists rest. auto.
  - intros e w1 l0 E.
    destruct (check_events remote w w1 _ l0 E) as (rest & _ & _ & Hop & Hsl).
    rewrite (run_check_threw remote retryConfig T operation operationName
               w w1 e l0 E).
    auto.
  - intros Hnone.
    rewrite (run_check_threw remote retryConfig T operation operationName
               w w _ _ (ensureValidToken_no_metadata remote w Hnone)).
    split; [apply ensureValidToken_no_metadata; exact Hnone|].
    split; reflexivity.
  - intros config Hcfg. unfold Auth.newSpotifyAuth. rewrite Hcfg. reflexivity.
Qed.

Lemma preflight_check_once_witness :
  Api.executeWithRetry Samples.strictRemote Api.DEFAULT_RETRY_CONFIG nat
    (Samples.always 429) "search tracks" Samples.unseeded
  = (Threw (JsError Auth.noRefreshTokenMessage), Samples.unseeded,
     [EvEnsureValidToken; EvRefreshAccessToken]).
Proof.
  destruct (preflight_check_once Samples.strictRemote Api.DEFAULT_RETRY_CONFIG
              nat (Samples.always 429) "search tracks" Samples.unseeded)
    as (_ & _ & Hnone & _).
  destruct (Hnone eq_refl) as (_ & H & _). exact H.
Defined.

(* ===================================================================== *)
(** ** The executor: rate limiting, fatal failures, backoff *)
(* ===================================================================== *)

(** C1. For every retry policy ([maxRetries] a non-negative integer) and
    every operation that fails with status 429 each time it is invoked, a
    run whose freshness check passes invokes the operation
    [maxRetries + 1] times, sleeps [maxRetries] times, and throws a
    [SpotifyApiError] with the rate-limit message, status 429 and the last
    failure as its cause; with [maxRetries = 3] that is 4 invocations. *)
Theorem rate_limit_exhaustion (remote : Remote) (retryConfig : Api.RetryConfig)
    (T : Type) (operation : nat -> Api.OpOutcome T) (operationName : string)
    (w w1 : World) (tok : string) (l0 : list Event) :
  0 <= Api.maxRetries retryConfig ->
  Auth.ensureValidToken remote w = (Returned tok, w1, l0) ->
  (forall i, exists error,
      operation i = Api.Rejects error /\ Api.errStatus error = Some 429) ->
  exists error events,
    Api.executeWithRetry remote retryConfig T operation operationName w
    = (Threw (SpotifyApiError Api.rateLimitMessage (Some 429) (Some error)),
       w1, events) /\
    Z.of_nat (countEvents isOperation events)
    = Api.maxRetries retryConfig + 1 /\
    Z.of_nat (List.length (sleepsOf events)) = Api.maxRetries retryConfig /\
    (Api.maxRetries retryConfig = 3 ->
     countEvents isOperation events = 4%nat).
Proof.
  intros Hmax Hcheck Hop.
  destruct (check_events remote w w1 _ l0 Hcheck) as (rest & _ & _ & C0 & S0).
  rewrite (run_after_check remote retryConfig T operation operationName
             w w1 tok l0 Hcheck).
  replace (Z.to_nat (Api.maxRetries retryConfig + 1))
    with (S (Z.to_nat (Api.maxRetries retryConfig))) by lia.
  destruct (loop_rate_limited remote retryConfig T operation operationName
              (Z.to_nat (Api.maxRetries retryConfig)) Hop
              0 (Api.initialDelayMs retryConfig) None 0%nat w1)
    as (error & ev & L & _ & Cn & Sn); [lia|].
  rewrite L. cbn [outcomeOf worldOf eventsOf fst snd].
  exists error, (l0 ++ ev).
  rewrite countEvents_app, sleepsOf_app, C0, S0, Cn. cbn [app].
  rewrite Sn.
  repeat split; try lia.
Qed.

Lemma rate_limit_exhaustion_witness :
  exists error events,
    Api.executeWithRetry Samples.goodRemote Api.DEFAULT_RETRY_CONFIG nat
      (Samples.always 429) "search tracks" Samples.seeded
    = (Threw (SpotifyApiError Api.rateLimitMessage (Some 429) (Some error)),
       worldOf (Auth.ensureValidToken Samples.goodRemote Samples.seeded),
       events) /\
    countEvents isOperation events = 4%nat.
Proof.
  destruct (rate_limit_exhaustion Samples.goodRemote Api.DEFAULT_RETRY_CONFIG
              nat (Samples.always 429) "search tracks" Samples.seeded
              (worldOf (Auth.ensureValidToken Samples.goodRemote
                          Samples.seeded))
              "fresh"
              [EvEnsureValidToken; EvRefreshAccessToken; EvRefreshRequest])
    as (error & events & E & _ & _ & H4).
  - simpl. lia.
  - reflexivity.
  - intros i. exists (Samples.err 429). split; reflexivity.
  - exists error, events. split; [exact E|]. apply H4. reflexivity.
Defined.

(** C5. If the first invocation of the operation fails with a status other
    than 401, 429 and 503, or with no status at all, a run whose freshness
    check passes invokes the operation once, never sleeps, and throws the
    [SpotifyApiError] that [handleError] builds from that failure, which
    carries its status and the failure itself; for status 404 the message
    is the not-found one. *)
Theorem fatal_failure_immediate (remote : Remote)
    (retryConfig : Api.RetryConfig) (T : Type)
    (operation : nat -> Api.OpOutcome T) (operationName : string)
    (w w1 : World) (tok : string) (l0 : list Event) (error : OpError) :
  0 <= Api.maxRetries retryConfig ->
  Auth.ensureValidToken remote w = (Returned tok, w1, l0) ->
  operation 0%nat = Api.Rejects error ->
  Api.errStatus error <> Some 401 ->
  Api.errStatus error <> Some 429 ->
  Api.errStatus error <> Some 503 ->
  exists text,
    Api.executeWithRetry remote retryConfig T operation operationName w
    = (Threw (SpotifyApiError text (Api.errStatus error) (Some error)),
       w1, l0 ++ [EvOperation]) /\
    Api.handleError (Some error) operationName
    = SpotifyApiError text (Api.errStatus error) (Some error) /\
    countEvents isOperation (l0 ++ [EvOperation]) = 1%nat /\
    sleepsOf (l0 ++ [EvOperation]) = [] /\
    (Api.errStatus error = Some 404 -> text = Api.notFoundMessage).
Proof.
  intros Hmax Hcheck E N401 N429 N503.
  destruct (check_events remote w w1 _ l0 Hcheck) as (rest & _ & _ & C0 & S0).
  destruct (handleError_status error operationName) as (text & Htext).
  exists text.
  rewrite (run_after_check remote retryConfig T operation operationName
             w w1 tok l0 Hcheck).
  replace (Z.to_nat (Api.maxRetries retryConfig + 1))
    with (S (Z.to_nat (Api.maxRetries retryConfig))) by lia.
  rewrite (loop_terminal remote retryConfig T operation operationName
             _ 0 _ None 0%nat w1 error E N401)
    by (intros [H|H]; contradiction).
  cbn [outcomeOf worldOf eventsOf fst snd].
  rewrite Htext, countEvents_app, sleepsOf_app, C0, S0.
  repeat split.
  intros H404. rewrite (handleError_404 error operationName H404) in Htext.
  injection Htext as <- _. reflexivity.
Qed.

Lemma fatal_failure_immediate_witness :
  exists text,
    Api.executeWithRetry Samples.goodRemote Api.DEFAULT_RETRY_CONFIG nat
      (Samples.always 404) "search tracks" Samples.seeded
    = (Threw (SpotifyApiError text (Some 404) (Some (Samples.err 404))),
       worldOf (Auth.ensureValidToken Samples.goodRemote Samples.seeded),
       [EvEnsureValidToken; EvRefreshAccessToken; EvRefreshRequest;
        EvOperation]) /\
    text = Api.notFoundMessage.
Proof.
  destruct (fatal_failure_immediate Samples.goodRemote
              Api.DEFAULT_RETRY_CONFIG nat (Samples.always 404)
              "search tracks" Samples.seeded
              (worldOf (Auth.ensureValidToken Samples.goodRemote
                          Samples.seeded))
              "fresh"
              [EvEnsureValidToken; EvRefreshAccessToken; EvRefreshRequest]
              (Samples.err 404))
    as (text & E & _ & _ & _ & H404).
  - simpl. lia.
  - reflexivity.
  - reflexivity.
  - discriminate.
  - discriminate.
  - discriminate.
  - exists text. split; [exact E|]. apply H404. reflexivity.
Defined.

Lemma parseInt_hint_truthy (h : string) (s : Z) :
  Js.parseInt h = Some s -> Js.truthyString (Some h) = true.
Proof.
  destruct h; [discriminate|reflexivity].
Qed.

(** C3 (amended). In a run whose first [k + 1] invocations all fail with
    429 or 503,
    with [k < maxRetries], the wait after failure number [k] (counted
    from 0) is:
    - for a 503 failure, [min (initialDelayMs * backoffMultiplier ^ k)
      maxDelayMs], whether or not it carries a [retry-after] header;
    - for a 429 failure with no [retry-after] header, the same;
    - for a 429 failure whose [retry-after] header reads as the integer
      [s], exactly [s * 1000] provided [s * 1000] is at most [2 ^ 53 - 1]
      in absolute value, the range in which the product of doubles is the
      product of integers; a decimal numeral in that range reads as the
      number it denotes.
    The earlier failures may or may not carry hints: the delay has been
    multiplied once per failure all the same. *)
Theorem backoff_waits (remote : Remote) (retryConfig : Api.RetryConfig)
    (T : Type) (operation : nat -> Api.OpOutcome T) (operationName : string)
    (w w1 : World) (tok : string) (l0 : list Event)
    (k : nat) (error : OpError) :
  Auth.ensureValidToken remote w = (Returned tok, w1, l0) ->
  Z.of_nat k < Api.maxRetries retryConfig ->
  (forall i, (i <= k)%nat -> exists e,
      operation i = Api.Rejects e /\
      (Api.errStatus e = Some 429 \/ Api.errStatus e = Some 503)) ->
  operation k = Api.Rejects error ->
  let sleeps :=
    sleepsOf (eventsOf (Api.executeWithRetry remote retryConfig T operation
                          operationName w)) in
  let computed :=
    Z.min (Api.initialDelayMs retryConfig
           * Api.backoffMultiplier retryConfig ^ Z.of_nat k)
          (Api.maxDelayMs retryConfig) in
  (Api.errStatus error = Some 503 ->
   nth_error sleeps k = Some (Some computed)) /\
  (Api.errStatus error = Some 429 ->
   Js.truthyString (retryAfter error) = false ->
   nth_error sleeps k = Some (Some computed)) /\
  (forall h s,
      Api.errStatus error = Some 429 ->
      retryAfter error = Some h ->
      Js.parseInt h = Some s ->
      - Js.MAX_SAFE_INTEGER <= s * 1000 <= Js.MAX_SAFE_INTEGER ->
      nth_error sleeps k = Some (Some (s * 1000))) /\
  (forall d ds,
      Api.errStatus error = Some 429 ->
      Forall Js.isDigit (d :: ds) ->
      retryAfter error = Some (Js.numeral (d :: ds)) ->
      Js.numeralValue 0 (d :: ds) * 1000 <= Js.MAX_SAFE_INTEGER ->
      nth_error sleeps k
      = Some (Some (Js.numeralValue 0 (d :: ds) * 1000))) /\
  computed <= Api.maxDelayMs retryConfig.
Proof.
  intros Hcheck Hk Hop Ek sleeps computed.
  destruct (check_events remote w w1 _ l0 Hcheck) as (rest & _ & _ & _ & S0).
  assert (Hnth :
    nth_error sleeps k
    = Some
        (if Js.strictEq (Api.errStatus error) 429
         then Api.rateLimitWait retryConfig
                (Api.initialDelayMs retryConfig
                 * Api.backoffMultiplier retryConfig ^ Z.of_nat k) error
         else Api.unavailableWait retryConfig
                (Api.initialDelayMs retryConfig
                 * Api.backoffMultiplier retryConfig ^ Z.of_nat k))).
  { unfold sleeps.
    rewrite (run_after_check remote retryConfig T operation operationName
               w w1 tok l0 Hcheck).
    cbn [eventsOf snd]. rewrite sleepsOf_app, S0. cbn [app].
    change (snd ?x) with (eventsOf x).
    apply loop_nth_wait; try lia.
    - exact Hop.
    - exact Ek. }
  assert (Hhint : forall h s,
             Api.errStatus error = Some 429 ->
             retryAfter error = Some h ->
             Js.parseInt h = Some s ->
             - Js.MAX_SAFE_INTEGER <= s * 1000 <= Js.MAX_SAFE_INTEGER ->
             nth_error sleeps k = Some (Some (s * 1000))).
  { intros h s S429 Hh Hs Hsafe. rewrite Hnth, S429.
    unfold Api.rateLimitWait. rewrite Hh.
    rewrite (parseInt_hint_truthy h s Hs), Hs.
    cbn [Js.strictEq option_map]. unfold Js.times.
    rewrite (toNumber_exact _ Hsafe). reflexivity. }
  split; [|split; [|split; [|split]]].
  - intros S503. rewrite Hnth, S503. reflexivity.
  - intros S429 Hnone. rewrite Hnth, S429.
    unfold Api.rateLimitWait. rewrite Hnone. reflexivity.
  - exact Hhint.
  - intros d ds S429 Hds Hh Hsafe.
    assert (Hvalue : 0 <= Js.numeralValue 0 (d :: ds))
      by (apply numeralValue_nonneg; [lia|exact Hds]).
    apply (Hhint _ _ S429 Hh); [|lia].
    rewrite (parseInt_numeral d ds Hds).
    rewrite toNumber_exact; [reflexivity|].
    unfold Js.MAX_SAFE_INTEGER in *. lia.
  - unfold computed. lia.
Qed.

(** With the default delays and five retries, 503 every time: the third
    wait is 4000 ms, and a 429 failure with [retry-after: 2] in third place
    waits 2000 ms instead. *)
Lemma backoff_waits_witness :
  nth_error
    (sleepsOf (eventsOf
       (Api.executeWithRetry Samples.goodRemote Samples.fiveRetries nat
          (Samples.always 503) "search tracks" Samples.seeded))) 2
  = Some (Some 4000) /\
  nth_error
    (sleepsOf (eventsOf
       (Api.executeWithRetry Samples.goodRemote Samples.fiveRetries nat
          (fun i => if (i =? 2)%nat
                    then Api.Rejects (Samples.errWithHint 429 "2")
                    else Api.Rejects (Samples.err 503))
          "search tracks" Samples.seeded))) 2
  = Some (Some 2000).
Proof.
  split.
  - destruct (backoff_waits Samples.goodRemote Samples.fiveRetries nat
                (Samples.always 503) "search tracks" Samples.seeded
                (worldOf (Auth.ensureValidToken Samples.goodRemote
                            Samples.seeded))
                "fresh"
                [EvEnsureValidToken; EvRefreshAccessToken; EvRefreshRequest]
                2%nat (Samples.err 503))
      as (H503 & _).
    + reflexivity.
    + simpl. lia.
    + intros i _. exists (Samples.err 503). split; [reflexivity|].
      right. reflexivity.
    + reflexivity.
    + apply H503. reflexivity.
  - destruct (backoff_waits Samples.goodRemote Samples.fiveRetries nat
                (fun i => if (i =? 2)%nat
                          then Api.Rejects (Samples.errWithHint 429 "2")
                          else Api.Rejects (Samples.err 503))
                "search tracks" Samples.seeded
                (worldOf (Auth.ensureValidToken Samples.goodRemote
                            Samples.seeded))
                "fresh"
                [EvEnsureValidToken; EvRefreshAccessToken; EvRefreshRequest]
                2%nat (Samples.errWithHint 429 "2"))
      as (_ & _ & Hhint & _ & _).
    + reflexivity.
    + simpl. lia.
    + intros i _. destruct (i =? 2)%nat.
      * exists (Samples.errWithHint 429 "2"). split; [reflexivity|].
        left. reflexivity.
      * exists (Samples.err 503). split; [reflexivity|].
        right. reflexivity.
    + reflexivity.
    + apply (Hhint "2"%string 2); try reflexivity.
      unfold Js.MAX_SAFE_INTEGER. lia.
Defined.

(** C3, the claim as it stands: a hint of 9007199254740993 seconds, one
    more than [2 ^ 53].  [parseInt] gives the double 9007199254740992, and
    the wait is 9007199254740992000 ms, not 9007199254740993 * 1000. *)
Lemma backoff_waits_counterexample :
  let digits := [9; 0; 0; 7; 1; 9; 9; 2; 5; 4; 7; 4; 0; 9; 9; 3] in
  let operation : nat -> Api.OpOutcome nat :=
    fun _ => Api.Rejects (Samples.errWithHint 429 "9007199254740993") in
  let result :=
    Api.executeWithRetry Samples.goodRemote Api.DEFAULT_RETRY_CONFIG nat
      operation "search tracks" Samples.seeded in
  Js.numeral digits = "9007199254740993"%string /\
  Js.numeralValue 0 digits = 9007199254740993 /\
  Js.parseInt "9007199254740993" = Some 9007199254740992 /\
  nth_error (sleepsOf (eventsOf result)) 0
  = Some (Some 9007199254740992000) /\
  9007199254740992000 <> 9007199254740993 * 1000.
Proof.
  cbv zeta. repeat split. discriminate.
Qed.

(** A 429 failure with [retry-after: 7] followed by 503 failures, under the
    default policy: the hint replaces the first wait only, and the waits
    that follow are the ones of an undisturbed doubling. *)
Example hint_does_not_reset_delay :
  sleepsOf (eventsOf
    (Api.executeWithRetry Samples.goodRemote Api.DEFAULT_RETRY_CONFIG nat
       (fun i => match i with
                 | O => Api.Rejects (Samples.errWithHint 429 "7")
                 | S _ => Api.Rejects (Samples.err 503)
                 end)
       "search tracks" Samples.seeded))
  = [Some 7000; Some 2000; Some 4000].
Proof. reflexivity. Qed.

(** 503 every time with the default delays and five retries. *)
Example default_backoff_sequence :
  sleepsOf (eventsOf
    (Api.executeWithRetry Samples.goodRemote Samples.fiveRetries nat
       (Samples.always 503) "search tracks" Samples.seeded))
  = [Some 1000; Some 2000; Some 4000; Some 8000; Some 10000].
Proof. reflexivity. Qed.

(* ===================================================================== *)
(** ** The executor: expired tokens *)
(* ===================================================================== *)

(** C2 (amended). A 401 failure makes the executor call
    [refreshAccessToken()] and go on to the next iteration with no sleep
    and the delay unchanged, but the iteration is used up.  With a refresh
    token held and a remote that grants every refresh, an operation that
    fails with 401 on its first [n] invocations and then succeeds has its
    success returned when [n <= maxRetries], after [n + 1] invocations,
    [n] refreshes in the loop and no sleep; when the first [n] invocations
    fail with 401 and [n > maxRetries], the run invokes the operation
    [maxRetries + 1] times and throws the authentication-failed
    [SpotifyApiError].

    The delay is left alone: when the [n] failures with 401 are followed
    by a failure with 503 that can still be retried, the wait is
    [min initialDelayMs maxDelayMs], what it is with no 401 before it.  And
    at any point of the loop, an iteration that fails with 401 is the
    invocation, the refresh, and then the rest of the loop entered with
    the attempt index one higher and the same delay. *)
Theorem auth_expired_retry (remote : Remote) (retryConfig : Api.RetryConfig)
    (T : Type) (operation : nat -> Api.OpOutcome T) (operationName : string)
    (w w1 : World) (tok : string) (l0 : list Event) (n : nat) :
  0 <= Api.maxRetries retryConfig ->
  Auth.ensureValidToken remote w = (Returned tok, w1, l0) ->
  Js.truthyString (Auth.heldRefreshToken w1) = true ->
  (forall k, exists body, refreshReply remote k = Resolved body) ->
  (forall i, (i < n)%nat -> exists e,
      operation i = Api.Rejects e /\ Api.errStatus e = Some 401) ->
  let result :=
    Api.executeWithRetry remote retryConfig T operation operationName w in
  (forall value,
      operation n = Api.Resolves value ->
      Z.of_nat n <= Api.maxRetries retryConfig ->
      outcomeOf result = Returned value /\
      sleepsOf (eventsOf result) = [] /\
      countEvents isOperation (eventsOf result) = S n /\
      countEvents isRefresh (eventsOf result)
      = (countEvents isRefresh l0 + n)%nat) /\
  (Api.maxRetries retryConfig < Z.of_nat n ->
   exists error,
     outcomeOf result
     = Threw (SpotifyApiError Api.authFailedMessage (Some 401) (Some error)) /\
     sleepsOf (eventsOf result) = [] /\
     Z.of_nat (countEvents isOperation (eventsOf result))
     = Api.maxRetries retryConfig + 1) /\
  (forall error,
      operation n = Api.Rejects error ->
      Api.errStatus error = Some 503 ->
      Z.of_nat n < Api.maxRetries retryConfig ->
      exists rest,
        sleepsOf (eventsOf result)
        = Some (Z.min (Api.initialDelayMs retryConfig)
                      (Api.maxDelayMs retryConfig)) :: rest) /\
  (forall (remaining : nat) (attempt delay : Z) (lastError : option OpError)
          (calls : nat) (w0 : World) (error : OpError),
      operation calls = Api.Rejects error ->
      Api.errStatus error = Some 401 ->
      Js.truthyString (Auth.heldRefreshToken w0) = true ->
      exists w',
        Js.truthyString (Auth.heldRefreshToken w') = true /\
        let next :=
          Api.attemptLoop remote retryConfig T operation operationName
            remaining (attempt + 1) delay (Some error) (S calls) w' in
        Api.attemptLoop remote retryConfig T operation operationName
          (S remaining) attempt delay lastError calls w0
        = (outcomeOf next, worldOf next,
           [EvOperation; EvRefreshAccessToken; EvRefreshRequest]
             ++ eventsOf next)).
Proof.
  intros Hmax Hcheck Hheld Hgrant Hop result.
  assert (Hstep :
    forall (remaining : nat) (attempt delay : Z)
           (lastError : option OpError) (calls : nat) (w0 : World)
           (error : OpError),
      operation calls = Api.Rejects error ->
      Api.errStatus error = Some 401 ->
      Js.truthyString (Auth.heldRefreshToken w0) = true ->
      exists w',
        Js.truthyString (Auth.heldRefreshToken w') = true /\
        let next :=
          Api.attemptLoop remote retryConfig T operation operationName
            remaining (attempt + 1) delay (Some error) (S calls) w' in
        Api.attemptLoop remote retryConfig T operation operationName
          (S remaining) attempt delay lastError calls w0
        = (outcomeOf next, worldOf next,
           [EvOperation; EvRefreshAccessToken; EvRefreshRequest]
             ++ eventsOf next)).
  { intros remaining attempt delay lastError calls w0 error E S401 Hw0.
    destruct (refresh_granted remote w0 Hgrant Hw0) as (tr & w' & R & Hw').
    exists w'. split; [exact Hw'|].
    exact (loop_401_refreshed remote retryConfig T operation operationName
             remaining attempt delay lastError calls w0 w' error tr _
             E S401 R). }
  destruct (check_events remote w w1 _ l0 Hcheck) as (rest & _ & _ & C0 & S0).
  unfold result.
  rewrite (run_after_check remote retryConfig T operation operationName
             w w1 tok l0 Hcheck).
  cbn [outcomeOf worldOf eventsOf fst snd].
  change (fst (fst ?x)) with (outcomeOf x).
  change (snd ?x) with (eventsOf x).
  split; [|split; [|split]].
  - intros value Ev Hn.
    destruct (loop_401_then_success remote retryConfig T operation
                operationName n Hgrant
                (Z.to_nat (Api.maxRetries retryConfig + 1)) 0
                (Api.initialDelayMs retryConfig) None 0%nat w1 value Hheld)
      as (w' & ev & L & Sl & Co & Cr); [exact Hop|exact Ev|lia|].
    rewrite L. cbn [outcomeOf eventsOf fst snd].
    rewrite sleepsOf_app, !countEvents_app, S0, Sl, C0, Co, Cr. auto.
  - intros Hn.
    replace (Z.to_nat (Api.maxRetries retryConfig + 1))
      with (S (Z.to_nat (Api.maxRetries retryConfig))) by lia.
    destruct (loop_401_exhausted remote retryConfig T operation operationName
                (Z.to_nat (Api.maxRetries retryConfig)) Hgrant
                0 (Api.initialDelayMs retryConfig) None 0%nat w1 Hheld)
      as (error & w' & ev & L & Sl & Co & _).
    + intros i Hi. apply Hop. lia.
    + rewrite L. cbn [outcomeOf eventsOf fst snd]. exists error.
      rewrite sleepsOf_app, countEvents_app, S0, Sl, C0, Co.
      repeat split. lia.
  - intros error E S503 Hn.
    destruct (loop_401_keeps_delay remote retryConfig T operation
                operationName n Hgrant
                (Z.to_nat (Api.maxRetries retryConfig + 1)) 0
                (Api.initialDelayMs retryConfig) None 0%nat w1 error Hheld)
      as (rest' & Hrest); [exact Hop|exact E|exact S503|lia|lia|].
    exists rest'. rewrite sleepsOf_app, S0. exact Hrest.
  - exact Hstep.
Qed.

Lemma auth_expired_retry_witness :
  outcomeOf
    (Api.executeWithRetry Samples.goodRemote Api.DEFAULT_RETRY_CONFIG nat
       (Samples.failsThen 3 401 7) "search tracks" Samples.seeded)
  = Returned 7%nat /\
  (exists error,
    outcomeOf
      (Api.executeWithRetry Samples.goodRemote Api.DEFAULT_RETRY_CONFIG nat
         (Samples.always 401) "search tracks" Samples.seeded)
    = Threw (SpotifyApiError Api.authFailedMessage (Some 401)
               (Some error))) /\
  exists rest,
    sleepsOf
      (eventsOf
         (Api.executeWithRetry Samples.goodRemote Api.DEFAULT_RETRY_CONFIG
            nat
            (fun i => if (i <? 2)%nat then Api.Rejects (Samples.err 401)
                      else Api.Rejects (Samples.err 503))
            "search tracks" Samples.seeded))
    = Some 1000 :: rest.
Proof.
  split; [|split].
  - destruct (auth_expired_retry Samples.goodRemote Api.DEFAULT_RETRY_CONFIG
                nat (Samples.failsThen 3 401 7) "search tracks"
                Samples.seeded
                (worldOf (Auth.ensureValidToken Samples.goodRemote
                            Samples.seeded))
                "fresh"
                [EvEnsureValidToken; EvRefreshAccessToken; EvRefreshRequest]
                3%nat)
      as (Hok & _).
    + simpl. lia.
    + reflexivity.
    + reflexivity.
    + intros k. exists Samples.okBody. reflexivity.
    + intros i Hi. exists (Samples.err 401). split; [|reflexivity].
      unfold Samples.failsThen.
      destruct (Nat.ltb_spec i 3); [reflexivity|lia].
    + destruct (Hok 7%nat) as (H & _); [reflexivity|simpl; lia|exact H].
  - destruct (auth_expired_retry Samples.goodRemote Api.DEFAULT_RETRY_CONFIG
                nat (Samples.always 401) "search tracks" Samples.seeded
                (worldOf (Auth.ensureValidToken Samples.goodRemote
                            Samples.seeded))
                "fresh"
                [EvEnsureValidToken; EvRefreshAccessToken; EvRefreshRequest]
                4%nat)
      as (_ & Hexhausted & _).
    + simpl. lia.
    + reflexivity.
    + reflexivity.
    + intros k. exists Samples.okBody. reflexivity.
    + intros i Hi. exists (Samples.err 401). split; reflexivity.
    + destruct Hexhausted as (error & H & _); [simpl; lia|].
      exists error. exact H.
  - destruct (auth_expired_retry Samples.goodRemote Api.DEFAULT_RETRY_CONFIG
                nat
                (fun i => if (i <? 2)%nat then Api.Rejects (Samples.err 401)
                          else Api.Rejects (Samples.err 503))
                "search tracks" Samples.seeded
                (worldOf (Auth.ensureValidToken Samples.goodRemote
                            Samples.seeded))
                "fresh"
                [EvEnsureValidToken; EvRefreshAccessToken; EvRefreshRequest]
                2%nat)
      as (_ & _ & Hdelay & _).
    + simpl. lia.
    + reflexivity.
    + reflexivity.
    + intros k. exists Samples.okBody. reflexivity.
    + intros i Hi. exists (Samples.err 401). split; [|reflexivity].
      destruct (Nat.ltb_spec i 2); [reflexivity|lia].
    + destruct (Hdelay (Samples.err 503)) as (rest & H);
        [reflexivity|reflexivity|simpl; lia|].
      exists rest. exact H.
Defined.

(** C2, as stated, fails: under the default policy ([maxRetries = 3]), with
    every refresh granted, an operation that fails with 401 on its first
    four invocations and would succeed on the fifth is invoked four times
    and the run throws the authentication-failed error. *)
Lemma auth_expired_retry_counterexample :
  let operation := Samples.failsThen 4 401 7 in
  let result :=
    Api.executeWithRetry Samples.goodRemote Api.DEFAULT_RETRY_CONFIG nat
      operation "search tracks" Samples.seeded in
  operation 0%nat = Api.Rejects (Samples.err 401) /\
  operation 1%nat = Api.Rejects (Samples.err 401) /\
  operation 2%nat = Api.Rejects (Samples.err 401) /\
  operation 3%nat = Api.Rejects (Samples.err 401) /\
  operation 4%nat = Api.Resolves 7%nat /\
  outcomeOf result
  = Threw (SpotifyApiError Api.authFailedMessage (Some 401)
             (Some (Samples.err 401))) /\
  eventsOf result
  = [EvEnsureValidToken; EvRefreshAccessToken; EvRefreshRequest;
     EvOperation; EvRefreshAccessToken; EvRefreshRequest;
     EvOperation; EvRefreshAccessToken; EvRefreshRequest;
     EvOperation; EvRefreshAccessToken; EvRefreshRequest;
     EvOperation; EvRefreshAccessToken; EvRefreshRequest] /\
  countEvents isOperation (eventsOf result) = 4%nat.
Proof.
  cbv zeta. repeat split.
Qed.

(** C4 (amended). Under a policy with [maxRetries >= 1], if the first
    invocation of the operation fails with 401, the refresh that follows
    succeeds and the second invocation succeeds, then after its freshness
    check the run does exactly this: invoke the operation, call
    [refreshAccessToken()] (one request to the remote), invoke the
    operation again; it returns the second invocation's result. *)
Theorem auth_expired_once (remote : Remote) (retryConfig : Api.RetryConfig)
    (T : Type) (operation : nat -> Api.OpOutcome T) (operationName : string)
    (w w1 w2 : World) (tok : string) (l0 lr : list Event)
    (error : OpError) (tr : TokenResponse) (value : T) :
  1 <= Api.maxRetries retryConfig ->
  Auth.ensureValidToken remote w = (Returned tok, w1, l0) ->
  operation 0%nat = Api.Rejects error ->
  Api.errStatus error = Some 401 ->
  Auth.refreshAccessToken remote w1 = (Returned tr, w2, lr) ->
  operation 1%nat = Api.Resolves value ->
  exists loopEvents,
    Api.executeWithRetry remote retryConfig T operation operationName w
    = (Returned value, w2, l0 ++ loopEvents) /\
    loopEvents
    = [EvOperation; EvRefreshAccessToken; EvRefreshRequest; EvOperation] /\
    countEvents isOperation (l0 ++ loopEvents) = 2%nat /\
    countEvents isRefresh loopEvents = 1%nat.
Proof.
  intros Hmax Hcheck E0 S0 R E1.
  destruct (check_events remote w w1 _ l0 Hcheck) as (rest & _ & _ & C0 & _).
  assert (Hlr : lr = [EvRefreshAccessToken; EvRefreshRequest]).
  { destruct (refresh_cases remote w1)
      as [[_ X]|[(x & _ & _ & X)|(body & _ & _ & X)]];
      rewrite X in R; try discriminate.
    injection R as _ _ <-. reflexivity. }
  subst lr.
  exists [EvOperation; EvRefreshAccessToken; EvRefreshRequest; EvOperation].
  rewrite (run_after_check remote retryConfig T operation operationName
             w w1 tok l0 Hcheck).
  replace (Z.to_nat (Api.maxRetries retryConfig + 1))
    with (S (S (Z.to_nat (Api.maxRetries retryConfig - 1)))) by lia.
  rewrite (loop_401_refreshed remote retryConfig T operation operationName
             _ 0 _ None 0%nat w1 w2 error tr _ E0 S0 R).
  rewrite (loop_resolves remote retryConfig T operation operationName
             _ _ _ _ 1%nat w2 value E1).
  cbn [outcomeOf worldOf eventsOf fst snd app].
  rewrite countEvents_app, C0. auto.
Qed.

Lemma auth_expired_once_witness :
  exists loopEvents,
    Api.executeWithRetry Samples.goodRemote Api.DEFAULT_RETRY_CONFIG nat
      (Samples.failsThen 1 401 7) "search tracks" Samples.seeded
    = (Returned 7%nat,
       worldOf
         (Auth.refreshAccessToken Samples.goodRemote
            (worldOf (Auth.ensureValidToken Samples.goodRemote
                        Samples.seeded))),
       [EvEnsureValidToken; EvRefreshAccessToken; EvRefreshRequest]
         ++ loopEvents) /\
    countEvents isRefresh loopEvents = 1%nat.
Proof.
  destruct (auth_expired_once Samples.goodRemote Api.DEFAULT_RETRY_CONFIG nat
              (Samples.failsThen 1 401 7) "search tracks" Samples.seeded
              (worldOf (Auth.ensureValidToken Samples.goodRemote
                          Samples.seeded))
              (worldOf
                 (Auth.refreshAccessToken Samples.goodRemote
                    (worldOf (Auth.ensureValidToken Samples.goodRemote
                                Samples.seeded))))
              "fresh"
              [EvEnsureValidToken; EvRefreshAccessToken; EvRefreshRequest]
              [EvRefreshAccessToken; EvRefreshRequest]
              (Samples.err 401)
              (Auth.refreshedResponse
                 (worldOf (Auth.ensureValidToken Samples.goodRemote
                             Samples.seeded))
                 Samples.okBody)
              7%nat)
    as (loopEvents & E & _ & _ & Hone).
  - simpl. lia.
  - reflexivity.
  - reflexivity.
  - reflexivity.
  - reflexivity.
  - reflexivity.
  - exists loopEvents. split; [exact E|exact Hone].
Defined.

(** C4, as stated, fails: under the policy with [maxRetries = 0], with the
    refresh granted, an operation whose first invocation fails with 401 and
    whose second would succeed is invoked once, the token is refreshed
    once, and the run throws the authentication-failed error. *)
Lemma auth_expired_once_counterexample :
  let operation := Samples.failsThen 1 401 7 in
  let result :=
    Api.executeWithRetry Samples.goodRemote Samples.noRetry nat
      operation "search tracks" Samples.seeded in
  operation 0%nat = Api.Rejects (Samples.err 401) /\
  operation 1%nat = Api.Resolves 7%nat /\
  outcomeOf result
  = Threw (SpotifyApiError Api.authFailedMessage (Some 401)
             (Some (Samples.err 401))) /\
  eventsOf result
  = [EvEnsureValidToken; EvRefreshAccessToken; EvRefreshRequest;
     EvOperation; EvRefreshAccessToken; EvRefreshRequest] /\
  countEvents isOperation (eventsOf result) = 1%nat.
Proof.
  cbv zeta. repeat split.
Qed.

(* ===================================================================== *)
(** ** auth.ts: more on the token manager *)
(* ===================================================================== *)

Section TokenFacts.

Variable remote : Remote.

(** Reading the clock changes nothing but the count of clock reads. *)
Lemma dateNow_result (w : World) :
  Auth.dateNow remote w
  = (Returned (clock remote (clockReads w)),
     worldOf (Auth.dateNow remote w), []) /\
  tokenMetadata (worldOf (Auth.dateNow remote w)) = tokenMetadata w /\
  apiAccessToken (worldOf (Auth.dateNow remote w)) = apiAccessToken w /\
  apiRefreshToken (worldOf (Auth.dateNow remote w)) = apiRefreshToken w /\
  grantRequests (worldOf (Auth.dateNow remote w)) = grantRequests w /\
  refreshRequests (worldOf (Auth.dateNow remote w)) = refreshRequests w.
Proof. repeat split. Qed.

(** The last step of [ensureValidToken], on a state that holds [tm]. *)
Lemma accessToken_check (w : World) (tm : TokenMetadata) :
  tokenMetadata w = Some tm ->
  (w' <- getWorld ;;
   match Auth.heldAccessToken w' with
   | Some t =>
       if Js.truthyString (Some t) then ret t
       else throw (JsError Auth.noAccessTokenMessage)
   | None => throw (JsError Auth.noAccessTokenMessage)
   end) w
  = (if Js.truthyString (Some (accessToken tm))
     then Returned (accessToken tm)
     else Threw (JsError Auth.noAccessTokenMessage), w, []).
Proof.
  intros H. unfold bind, getWorld, Auth.heldAccessToken, ret, throw.
  rewrite H. destruct (Js.truthyString (Some (accessToken tm))); reflexivity.
Qed.

(** A token with more than the buffer left is handed out as it is. *)
Lemma ensureValidToken_when_fresh (w : World) (tm : TokenMetadata) :
  tokenMetadata w = Some tm ->
  clock remote (clockReads w) < expiresAt tm - 60 * 1000 ->
  Auth.ensureValidToken remote w
  = (if Js.truthyString (Some (accessToken tm))
     then Returned (accessToken tm)
     else Threw (JsError Auth.noAccessTokenMessage),
     worldOf (Auth.dateNow remote w), [EvEnsureValidToken]).
Proof.
  intros Htm Hfresh. unfold Auth.ensureValidToken.
  erewrite bind_returned by reflexivity.
  erewrite bind_returned by (apply isTokenExpired_some; exact Htm).
  replace (clock remote (clockReads w) >=? expiresAt tm - 60 * 1000)
    with false by (symmetry; rewrite Z.geb_leb; apply Z.leb_gt; lia).
  erewrite bind_returned by reflexivity.
  rewrite (accessToken_check (worldOf (Auth.dateNow remote w)) tm)
    by exact Htm.
  destruct (Js.truthyString (Some (accessToken tm))); reflexivity.
Qed.

(** A stale token, a refresh token held and a remote that grants the
    refresh: one request, then the access-token check on the new state. *)
Lemma ensureValidToken_when_refreshed (w w0 : World) (body : TokenBody) :
  Auth.isTokenExpired remote w = (Returned true, w0, []) ->
  Js.truthyString (Auth.heldRefreshToken w0) = true ->
  refreshReply remote (refreshRequests w0) = Resolved body ->
  Auth.ensureValidToken remote w
  = (if Js.truthyString (Some (body_access_token body))
     then Returned (body_access_token body)
     else Threw (JsError Auth.noAccessTokenMessage),
     Auth.afterRefresh remote w0 body,
     [EvEnsureValidToken; EvRefreshAccessToken; EvRefreshRequest]).
Proof.
  intros Hexp Hheld Hreply. unfold Auth.ensureValidToken.
  erewrite bind_returned by reflexivity.
  erewrite bind_returned by exact Hexp.
  erewrite bind_returned
    by (erewrite bind_returned
          by (apply refresh_resolved; eassumption);
        reflexivity).
  change (worldOf (ret tt (Auth.afterRefresh remote w0 body)))
    with (Auth.afterRefresh remote w0 body).
  change (eventsOf (ret tt (Auth.afterRefresh remote w0 body)))
    with (@nil Event).
  rewrite (accessToken_check (Auth.afterRefresh remote w0 body)
             {| accessToken := body_access_token body;
                refreshToken :=
                  Js.orString (body_refresh_token body)
                              (Auth.heldRefreshToken w0);
                expiresAt :=
                  clock remote (clockReads w0)
                  + body_expires_in body * 1000 |})
    by reflexivity.
  cbn [outcomeOf worldOf eventsOf fst snd accessToken].
  destruct (Js.truthyString (Some (body_access_token body))); reflexivity.
Qed.

(** What [isTokenExpired] leaves behind, in both of its cases. *)
Lemma isTokenExpired_result (w : World) :
  exists b w0,
    Auth.isTokenExpired remote w = (Returned b, w0, []) /\
    tokenMetadata w0 = tokenMetadata w /\
    apiAccessToken w0 = apiAccessToken w /\
    apiRefreshToken w0 = apiRefreshToken w /\
    grantRequests w0 = grantRequests w /\
    refreshRequests w0 = refreshRequests w /\
    (b = false ->
     exists tm, tokenMetadata w = Some tm /\
                clock remote (clockReads w) < expiresAt tm - 60 * 1000).
Proof.
  destruct (tokenMetadata w) as [tm|] eqn:Htm.
  - eexists _, _. split; [apply (isTokenExpired_some remote w tm Htm)|].
    do 5 (split; [destruct w; simpl in *; congruence|]).
    intros Hb. exists tm. split; [reflexivity|].
    rewrite Z.geb_leb in Hb. apply Z.leb_gt in Hb. lia.
  - exists true, w. split; [apply (isTokenExpired_none remote w Htm)|].
    do 5 (split; [first [reflexivity|exact Htm]|]). discriminate.
Qed.

End TokenFacts.

Lemma ensureValidToken_when_refresh_threw (remote : Remote) (w w0 w1 : World)
    (e : Exn) (l : list Event) :
  Auth.isTokenExpired remote w = (Returned true, w0, []) ->
  Auth.refreshAccessToken remote w0 = (Threw e, w1, l) ->
  Auth.ensureValidToken remote w = (Threw e, w1, EvEnsureValidToken :: l).
Proof.
  intros Hexp R. unfold Auth.ensureValidToken.
  erewrite bind_returned by reflexivity.
  erewrite bind_returned by exact Hexp.
  erewrite bind_threw by (apply bind_threw; exact R).
  reflexivity.
Qed.

Lemma truthyString_nonempty (t : string) :
  Js.truthyString (Some t) = true <-> t <> "".
Proof.
  destruct t; simpl; split; intros H; congruence.
Qed.

(** A granted exchange, written out. *)
Lemma exchange_replaces_credential_aux (remote : Remote) (code : string)
    (w : World) (body : TokenBody) :
  grantReply remote (grantRequests w) code = Resolved body ->
  exists w',
    Auth.exchangeCodeForToken remote code w
    = (Returned {| access_token := body_access_token body;
                   token_type := body_token_type body;
                   expires_in := body_expires_in body;
                   refresh_token := body_refresh_token body;
                   scope := body_scope body |},
       w', [EvGrantRequest code]) /\
    tokenMetadata w'
    = Some {| accessToken := body_access_token body;
              refreshToken := body_refresh_token body;
              expiresAt :=
                clock remote (clockReads w) + body_expires_in body * 1000 |}.
Proof.
  intros R.
  unfold Auth.exchangeCodeForToken, tryCatch, bind,
    Auth.authorizationCodeGrant, Auth.dateNow, Auth.setTokenMetadata,
    Auth.setAccessToken, Auth.setRefreshToken, ret.
  rewrite R. cbn. eexists. repeat split.
Qed.

(** X1. A successful [exchangeCodeForToken] makes one request and replaces
    the credential whatever was held before: access token and refresh
    token are the response's, [expiresAt] is the clock reading plus
    [expires_in] seconds, and the API client gets both tokens.  When the
    response carries no refresh token, none is held afterwards, and the
    next [refreshAccessToken] stops at its guard without a request. *)
Theorem exchange_replaces_credential (remote : Remote) (code : string)
    (w : World) (body : TokenBody) :
  grantReply remote (grantRequests w) code = Resolved body ->
  exists w',
    Auth.exchangeCodeForToken remote code w
    = (Returned {| access_token := body_access_token body;
                   token_type := body_token_type body;
                   expires_in := body_expires_in body;
                   refresh_token := body_refresh_token body;
                   scope := body_scope body |},
       w', [EvGrantRequest code]) /\
    tokenMetadata w'
    = Some {| accessToken := body_access_token body;
              refreshToken := body_refresh_token body;
              expiresAt :=
                clock remote (clockReads w) + body_expires_in body * 1000 |} /\
    apiAccessToken w' = Some (body_access_token body) /\
    apiRefreshToken w' = body_refresh_token body /\
    (Js.truthyString (body_refresh_token body) = false ->
     Auth.refreshAccessToken remote w'
     = (Threw (JsError Auth.noRefreshTokenMessage), w',
        [EvRefreshAccessToken])).
Proof.
  intros R.
  assert (E : exists w',
    Auth.exchangeCodeForToken remote code w
    = (Returned {| access_token := body_access_token body;
                   token_type := body_token_type body;
                   expires_in := body_expires_in body;
                   refresh_token := body_refresh_token body;
                   scope := body_scope body |},
       w', [EvGrantRequest code]) /\
    tokenMetadata w'
    = Some {| accessToken := body_access_token body;
              refreshToken := body_refresh_token body;
              expiresAt :=
                clock remote (clockReads w) + body_expires_in body * 1000 |} /\
    apiAccessToken w' = Some (body_access_token body) /\
    apiRefreshToken w' = body_refresh_token body).
  { unfold Auth.exchangeCodeForToken, tryCatch, bind,
      Auth.authorizationCodeGrant, Auth.dateNow, Auth.setTokenMetadata,
      Auth.setAccessToken, Auth.setRefreshToken, ret.
    rewrite R. cbn. eexists. repeat split. }
  destruct E as (w' & E & Hmeta & Ha & Hr).
  exists w'. repeat split; try assumption.
  intros Hnone. apply refresh_no_token.
  unfold Auth.heldRefreshToken. rewrite Hmeta. exact Hnone.
Qed.

Lemma exchange_replaces_credential_witness :
  Auth.heldRefreshToken
    (worldOf (Auth.exchangeCodeForToken Samples.goodRemote "code"
                Samples.seeded))
  = None.
Proof.
  destruct (exchange_replaces_credential Samples.goodRemote "code"
              Samples.seeded Samples.okBody eq_refl)
    as (w' & E & Hmeta & _).
  rewrite E. unfold Auth.heldRefreshToken.
  cbn [worldOf fst snd]. rewrite Hmeta. reflexivity.
Defined.

(** X2. After a successful exchange that delivered a non-empty access
    token, as long as the clock reads earlier than one minute before that
    token's expiry, [ensureValidToken()] returns that access token, makes
    no call to [refreshAccessToken] and no request, and leaves the
    credential as the exchange set it. *)
Theorem exchanged_token_served_while_fresh (remote : Remote) (code : string)
    (w w' : World) (tr : TokenResponse) (events : list Event) :
  Auth.exchangeCodeForToken remote code w = (Returned tr, w', events) ->
  access_token tr <> "" ->
  clock remote (clockReads w')
  < clock remote (clockReads w) + expires_in tr * 1000 - 60 * 1000 ->
  exists w'',
    Auth.ensureValidToken remote w'
    = (Returned (access_token tr), w'', [EvEnsureValidToken]) /\
    tokenMetadata w'' = tokenMetadata w' /\
    refreshRequests w'' = refreshRequests w'.
Proof.
  intros E Hne Hclock.
  destruct (grantReply remote (grantRequests w) code) as [body|error] eqn:R.
  - destruct (exchange_replaces_credential_aux remote code w body R)
      as (w1 & E1 & Hmeta).
    rewrite E1 in E. injection E as <- <- _.
    exists (worldOf (Auth.dateNow remote w1)).
    rewrite (ensureValidToken_when_fresh remote w1 _ Hmeta) by exact Hclock.
    cbn [access_token accessToken] in *.
    apply truthyString_nonempty in Hne. rewrite Hne.
    repeat split.
  - unfold Auth.exchangeCodeForToken, tryCatch in E.
    erewrite bind_threw in E
      by (unfold Auth.authorizationCodeGrant; rewrite R; reflexivity).
    discriminate.
Qed.

Lemma exchanged_token_served_while_fresh_witness :
  exists w'',
    Auth.ensureValidToken Samples.goodRemote
      (worldOf (Auth.exchangeCodeForToken Samples.goodRemote "code"
                  Samples.unseeded))
    = (Returned "fresh", w'', [EvEnsureValidToken]).
Proof.
  destruct (exchanged_token_served_while_fresh Samples.goodRemote "code"
              Samples.unseeded
              (worldOf (Auth.exchangeCodeForToken Samples.goodRemote "code"
                          Samples.unseeded))
              {| access_token := "fresh"; token_type := "Bearer";
                 expires_in := 3600; refresh_token := None;
                 scope := None |}
              [EvGrantRequest "code"])
    as (w'' & E & _).
  - reflexivity.
  - discriminate.
  - simpl. lia.
  - exists w''. exact E.
Defined.

(** X3. [refreshAccessToken()] never changes the refresh token held by the
    API client, however it ends: the test that guards [setRefreshToken]
    compares the response with [tokenMetadata] after [tokenMetadata] has
    been overwritten with it.  So when the remote rotates the refresh
    token, [tokenMetadata] holds the new one while the API client, which
    sends the refresh requests, keeps the one it had. *)
Theorem refresh_leaves_client_refresh_token (remote : Remote) (w : World) :
  apiRefreshToken (worldOf (Auth.refreshAccessToken remote w))
  = apiRefreshToken w /\
  (forall body rotated,
      Js.truthyString (Auth.heldRefreshToken w) = true ->
      refreshReply remote (refreshRequests w) = Resolved body ->
      body_refresh_token body = Some rotated ->
      rotated <> "" ->
      apiRefreshToken w <> Some rotated ->
      exists tr,
        outcomeOf (Auth.refreshAccessToken remote w) = Returned tr /\
        refresh_token tr = Some rotated /\
        Auth.heldRefreshToken (worldOf (Auth.refreshAccessToken remote w))
        = Some rotated /\
        apiRefreshToken (worldOf (Auth.refreshAccessToken remote w))
        <> Auth.heldRefreshToken
             (worldOf (Auth.refreshAccessToken remote w))).
Proof.
  split.
  - destruct (refresh_cases remote w)
      as [[_ E]|[(error & _ & _ & E)|(body & _ & _ & E)]];
      rewrite E; reflexivity.
  - intros body rotated Hheld R Hrot Hne Hold.
    rewrite (refresh_resolved remote w body Hheld R).
    cbn [outcomeOf worldOf fst snd].
    assert (Hor : Js.orString (body_refresh_token body)
                              (Auth.heldRefreshToken w) = Some rotated).
    { unfold Js.orString. rewrite Hrot.
      apply truthyString_nonempty in Hne. rewrite Hne. reflexivity. }
    exists (Auth.refreshedResponse w body).
    split; [reflexivity|]. split; [exact Hor|].
    unfold Auth.afterRefresh, Auth.heldRefreshToken at 1 3.
    cbn [tokenMetadata refreshToken apiRefreshToken].
    rewrite Hor. split; [reflexivity|exact Hold].
Qed.

Lemma refresh_leaves_client_refresh_token_witness :
  let remote :=
    {| clock := fun _ => 1000000;
       grantReply := fun _ _ => Resolved Samples.narrowBody;
       refreshReply := fun _ =>
         Resolved {| body_access_token := "next";
                     body_token_type := "Bearer";
                     body_expires_in := 3600;
                     body_refresh_token := Some "rotated";
                     body_scope := None |} |} in
  let after := worldOf (Auth.refreshAccessToken remote Samples.seeded) in
  Auth.heldRefreshToken after = Some "rotated" /\
  apiRefreshToken after = Some "rt".
Proof.
  cbv zeta.
  destruct (refresh_leaves_client_refresh_token
              {| clock := fun _ => 1000000;
                 grantReply := fun _ _ => Resolved Samples.narrowBody;
                 refreshReply := fun _ =>
                   Resolved {| body_access_token := "next";
                               body_token_type := "Bearer";
                               body_expires_in := 3600;
                               body_refresh_token := Some "rotated";
                               body_scope := None |} |}
              Samples.seeded) as [Hkeep Hrot].
  destruct (Hrot _ "rotated"%string eq_refl eq_refl eq_refl)
    as (tr & _ & _ & Hheld & _); try discriminate.
  split; [exact Hheld|exact Hkeep].
Defined.

(** X4. However [ensureValidToken()] ends, it has sent at most one request
    to the remote, a refresh and never a grant.  When it returns, the token
    it returns is not empty and is the access token held afterwards.  When
    it throws, the exception is an [Error] with one of three messages: no
    refresh token, the wrapped message of a rejected refresh, or no access
    token. *)
Theorem ensureValidToken_outcomes (remote : Remote) (w : World) :
  let result := Auth.ensureValidToken remote w in
  (countEvents isNetwork (eventsOf result) <= 1)%nat /\
  grantRequests (worldOf result) = grantRequests w /\
  (forall t, outcomeOf result = Returned t ->
             t <> "" /\ Auth.heldAccessToken (worldOf result) = Some t) /\
  (forall e, outcomeOf result = Threw e ->
             e = JsError Auth.noRefreshTokenMessage \/
             (exists rejection,
                 e = JsError ("Failed to refresh access token: "
                                +++ errorText rejection)) \/
             e = JsError Auth.noAccessTokenMessage).
Proof.
  cbv zeta.
  destruct (isTokenExpired_result remote w)
    as (b & w0 & Hexp & Hmeta & _ & _ & Hg & _ & Hfresh).
  destruct b.
  - destruct (refresh_cases remote w0)
      as [[_ E]|[(error & _ & _ & E)|(body & Hheld & R & E)]].
    + rewrite (ensureValidToken_when_refresh_threw remote w w0 _ _ _ Hexp E).
      cbn [outcomeOf worldOf eventsOf fst snd].
      split; [cbn; lia|]. split; [exact Hg|]. split.
      * intros t H. discriminate.
      * intros e H. injection H as H. subst e. left. reflexivity.
    + rewrite (ensureValidToken_when_refresh_threw remote w w0 _ _ _ Hexp E).
      cbn [outcomeOf worldOf eventsOf fst snd].
      split; [cbn; lia|]. split; [exact Hg|]. split.
      * intros t H. discriminate.
      * intros e H. injection H as H. subst e. right; left.
        exists error. reflexivity.
    + rewrite (ensureValidToken_when_refreshed remote w w0 body Hexp Hheld R).
      cbn [outcomeOf worldOf eventsOf fst snd].
      split; [cbn; lia|]. split; [exact Hg|].
      destruct (Js.truthyString (Some (body_access_token body))) eqn:Ht;
        split.
      * intros t H. injection H as <-.
        split; [apply truthyString_nonempty; exact Ht|reflexivity].
      * intros e H. discriminate.
      * intros t H. discriminate.
      * intros e H. injection H as H. subst e. right; right. reflexivity.
  - destruct (Hfresh eq_refl) as (tm & Htm & Hclock).
    rewrite (ensureValidToken_when_fresh remote w tm Htm Hclock).
    cbn [outcomeOf worldOf eventsOf fst snd].
    split; [cbn; lia|]. split; [reflexivity|].
    destruct (Js.truthyString (Some (accessToken tm))) eqn:Ht; split.
    + intros t H. injection H as <-.
      split; [apply truthyString_nonempty; exact Ht|].
      destruct (dateNow_result remote w) as (_ & Hm & _).
      unfold Auth.heldAccessToken. rewrite Hm, Htm. reflexivity.
    + intros e H. discriminate.
    + intros t H. discriminate.
    + intros e H. injection H as H. subst e. right; right. reflexivity.
Qed.

(** The remote answers a refresh with an empty access token: the refresh
    succeeds and [ensureValidToken] still throws. *)
Lemma ensureValidToken_outcomes_witness :
  let remote :=
    {| clock := fun _ => 1000000;
       grantReply := fun _ _ => Resolved Samples.narrowBody;
       refreshReply := fun _ =>
         Resolved {| body_access_token := "";
                     body_token_type := "Bearer";
                     body_expires_in := 3600;
                     body_refresh_token := None;
                     body_scope := None |} |} in
  outcomeOf (Auth.ensureValidToken remote Samples.seeded)
  = Threw (JsError Auth.noAccessTokenMessage) /\
  (countEvents isNetwork
     (eventsOf (Auth.ensureValidToken remote Samples.seeded)) <= 1)%nat.
Proof.
  cbv zeta. split; [reflexivity|].
  apply (ensureValidToken_outcomes
           {| clock := fun _ => 1000000;
              grantReply := fun _ _ => Resolved Samples.narrowBody;
              refreshReply := fun _ =>
                Resolved {| body_access_token := "";
                            body_token_type := "Bearer";
                            body_expires_in := 3600;
                            body_refresh_token := None;
                            body_scope := None |} |}
           Samples.seeded).
Defined.

(** X5. A [SpotifyAuth] constructed with a refresh token starts with an
    empty access token that expired at time 0.  On any clock that does not
    read before 1970, its first [ensureValidToken()] therefore sends one
    refresh request; if the remote grants it with a non-empty access token,
    that token is returned, and the refresh token held is the remote's new
    one if it sent one, the configured one otherwise. *)
Theorem seeded_manager_refreshes_first (remote : Remote)
    (config : Auth.SpotifyConfig) (body : TokenBody) :
  Js.truthyString (Auth.configRefreshToken config) = true ->
  - 60 * 1000 <= clock remote 0%nat ->
  refreshReply remote 0%nat = Resolved body ->
  body_access_token body <> "" ->
  exists w',
    Auth.ensureValidToken remote (Auth.newSpotifyAuth config)
    = (Returned (body_access_token body), w',
       [EvEnsureValidToken; EvRefreshAccessToken; EvRefreshRequest]) /\
    Auth.heldRefreshToken w'
    = Js.orString (body_refresh_token body) (Auth.configRefreshToken config) /\
    apiAccessToken w' = Some (body_access_token body).
Proof.
  intros Hcfg Hclock R Hne.
  assert (Hnew : Auth.newSpotifyAuth config
                 = {| tokenMetadata :=
                        Some {| accessToken := "";
                                refreshToken := Auth.configRefreshToken config;
                                expiresAt := 0 |};
                      apiAccessToken := None;
                      apiRefreshToken := Auth.configRefreshToken config;
                      clockReads := 0; grantRequests := 0;
                      refreshRequests := 0 |}).
  { unfold Auth.newSpotifyAuth. rewrite Hcfg. reflexivity. }
  rewrite Hnew. clear Hnew.
  set (w := {| tokenMetadata :=
                 Some {| accessToken := "";
                         refreshToken := Auth.configRefreshToken config;
                         expiresAt := 0 |};
               apiAccessToken := None;
               apiRefreshToken := Auth.configRefreshToken config;
               clockReads := 0; grantRequests := 0;
               refreshRequests := 0 |}).
  assert (Hexp : Auth.isTokenExpired remote w
                 = (Returned true, worldOf (Auth.dateNow remote w), [])).
  { erewrite isTokenExpired_some by reflexivity.
    cbn [clockReads expiresAt w].
    replace (clock remote 0 >=? 0 - 60 * 1000) with true
      by (symmetry; apply Z.geb_le; lia).
    reflexivity. }
  eexists.
  rewrite (ensureValidToken_when_refreshed remote w _ body Hexp Hcfg R).
  apply truthyString_nonempty in Hne. rewrite Hne.
  split; [reflexivity|]. split; reflexivity.
Qed.

Lemma seeded_manager_refreshes_first_witness :
  exists w',
    Auth.ensureValidToken Samples.goodRemote Samples.seeded
    = (Returned "fresh", w',
       [EvEnsureValidToken; EvRefreshAccessToken; EvRefreshRequest]) /\
    Auth.heldRefreshToken w' = Some "rt".
Proof.
  destruct (seeded_manager_refreshes_first Samples.goodRemote
              {| Auth.clientId := "id"; Auth.clientSecret := "secret";
                 Auth.redirectUri := "http://localhost:3000/callback";
                 Auth.configRefreshToken := Some "rt" |}
              Samples.okBody)
    as (w' & E & Hheld & _).
  - reflexivity.
  - simpl. lia.
  - reflexivity.
  - discriminate.
  - exists w'. split; [exact E|exact Hheld].
Defined.

(* ===================================================================== *)
(** ** spotify_api.ts: more on the retry loop *)
(* ===================================================================== *)

Lemma countEvents_cons (p : Event -> bool) (e : Event) (l : list Event) :
  countEvents p (e :: l)
  = ((if p e then 1 else 0) + countEvents p l)%nat.
Proof.
  unfold countEvents. cbn [filter]. destruct (p e); reflexivity.
Qed.

Section LoopCases.

Variable remote : Remote.
Variable retryConfig : Api.RetryConfig.
Variable T : Type.
Variable operation : nat -> Api.OpOutcome T.
Variable operationName : string.

Local Abbreviation loop :=
  (Api.attemptLoop remote retryConfig T operation operationName).

Local Abbreviation iteration :=
  (Api.iteration remote retryConfig T operation operationName).

Lemma loop_iteration (remaining : nat) (attempt delay : Z)
    (lastError : option OpError) (calls : nat) (w : World) :
  iteration remaining attempt delay calls w
    (loop (S remaining) attempt delay lastError calls w).
Proof.
  destruct (operation calls) as [value|error] eqn:E.
  - rewrite (loop_resolves remote retryConfig T operation operationName
               remaining attempt delay lastError calls w value E).
    constructor. exact E.
  - destruct (Js.strictEq (Api.errStatus error) 401) eqn:S401.
    + apply strictEq_true in S401.
      destruct (refresh_cases remote w)
        as [[_ R]|[(x & _ & _ & R)|(body & _ & _ & R)]].
      * rewrite (loop_401_refresh_threw remote retryConfig T operation
                   operationName remaining attempt delay lastError calls w
                   _ error _ _ E S401 R).
        eapply Api.it_refresh_threw; eauto; cbn; lia.
      * rewrite (loop_401_refresh_threw remote retryConfig T operation
                   operationName remaining attempt delay lastError calls w
                   _ error _ _ E S401 R).
        eapply Api.it_refresh_threw; eauto; cbn; lia.
      * rewrite (loop_401_refreshed remote retryConfig T operation
                   operationName remaining attempt delay lastError calls w
                   _ error _ _ E S401 R).
        eapply Api.it_refreshed; eauto.
    + assert (N401 : Api.errStatus error <> Some 401).
      { intros H. apply strictEq_true in H. congruence. }
      destruct (Z.ltb_spec attempt (Api.maxRetries retryConfig)) as [A|A].
      * destruct (Js.strictEq (Api.errStatus error) 429) eqn:S429.
        { pose proof S429 as S429'. apply strictEq_true in S429'.
          rewrite (loop_429_backoff remote retryConfig T operation
                     operationName remaining attempt delay lastError calls w
                     error E S429' A).
          eapply Api.it_backoff; eauto. rewrite S429. reflexivity. }
        destruct (Js.strictEq (Api.errStatus error) 503) eqn:S503.
        { pose proof S503 as S503'. apply strictEq_true in S503'.
          rewrite (loop_503_backoff remote retryConfig T operation
                     operationName remaining attempt delay lastError calls w
                     error E S503' A).
          eapply Api.it_backoff; eauto. rewrite S429. reflexivity. }
        rewrite (loop_terminal remote retryConfig T operation operationName
                   remaining attempt delay lastError calls w error E N401).
        { apply Api.it_terminal; auto.
          intros [H|H]; apply strictEq_true in H; congruence. }
        intros [H|H]; apply strictEq_true in H; congruence.
      * rewrite (loop_terminal remote retryConfig T operation operationName
                   remaining attempt delay lastError calls w error E N401)
          by (intros _; exact A).
        apply Api.it_terminal; auto.
Qed.

(** Every iteration invokes the operation once; a sleep needs a retry to be
    left; a refresh in the loop follows an invocation. *)
Lemma loop_bounds (remaining : nat) :
  forall (attempt delay : Z) (lastError : option OpError) (calls : nat)
         (w : World),
    let events := eventsOf (loop remaining attempt delay lastError calls w) in
    (countEvents isOperation events <= remaining)%nat /\
    (List.length (sleepsOf events)
     <= Z.to_nat (Api.maxRetries retryConfig - attempt))%nat /\
    (countEvents isRefresh events <= countEvents isOperation events)%nat /\
    (countEvents isNetwork events <= countEvents isOperation events)%nat.
Proof.
  induction remaining as [|r IH]; intros attempt delay lastError calls w.
  - cbn. lia.
  - cbv zeta.
    destruct (loop_iteration r attempt delay lastError calls w)
      as [value E|error msg w1 l1 E St R Hm Hn|error tr w1 E St R
          |error waitTime E St A Hw|error E N Hlast];
      cbv zeta; cbn [eventsOf snd].
    + cbn. lia.
    + destruct (refresh_cases remote w)
        as [[_ X]|[(x & _ & _ & X)|(body & _ & _ & X)]];
        rewrite X in R; try discriminate;
        injection R as _ _ <-; cbn; lia.
    + change (snd ?x) with (eventsOf x).
      specialize (IH (attempt + 1) delay (Some error) (S calls) w1).
      cbv zeta in IH. destruct IH as (I1 & I2 & I3 & I4).
      rewrite !countEvents_cons. cbn [isOperation isRefresh isNetwork sleepsOf].
      lia.
    + change (snd ?x) with (eventsOf x).
      specialize (IH (attempt + 1)
                     (delay * Api.backoffMultiplier retryConfig)
                     (Some error) (S calls) w).
      cbv zeta in IH. destruct IH as (I1 & I2 & I3 & I4).
      rewrite !countEvents_cons.
      cbn [isOperation isRefresh isNetwork sleepsOf List.length].
      lia.
    + cbn. lia.
Qed.

(** When no invocation fails with 401, the loop leaves the token manager
    alone. *)
Lemma loop_frame (remaining : nat) :
  (forall i error, operation i = Api.Rejects error ->
                   Api.errStatus error <> Some 401) ->
  forall (attempt delay : Z) (lastError : option OpError) (calls : nat)
         (w : World),
    let result := loop remaining attempt delay lastError calls w in
    worldOf result = w /\
    countEvents isRefresh (eventsOf result) = 0%nat /\
    countEvents isNetwork (eventsOf result) = 0%nat.
Proof.
  intros Hop.
  induction remaining as [|r IH]; intros attempt delay lastError calls w.
  - cbn. auto.
  - cbv zeta.
    destruct (loop_iteration r attempt delay lastError calls w)
      as [value E|error msg w1 l1 E St R Hm Hn|error tr w1 E St R
          |error waitTime E St A Hw|error E N Hlast];
      cbv zeta; cbn [worldOf eventsOf fst snd].
    + cbn. auto.
    + exfalso. exact (Hop _ _ E St).
    + exfalso. exact (Hop _ _ E St).
    + change (snd (fst ?x)) with (worldOf x).
      change (snd ?x) with (eventsOf x).
      specialize (IH (attempt + 1)
                     (delay * Api.backoffMultiplier retryConfig)
                     (Some error) (S calls) w).
      cbv zeta in IH. destruct IH as (I1 & I2 & I3).
      rewrite !countEvents_cons. cbn [isRefresh isNetwork].
      rewrite I1, I2, I3. auto.
    + cbn. auto.
Qed.

(** What the loop returns or throws comes from the last invocation of the
    operation, or from a refresh. *)
Lemma loop_outcome_sound (remaining : nat) :
  forall (attempt delay : Z) (lastError : option OpError) (calls : nat)
         (w : World),
    let result := loop remaining attempt delay lastError calls w in
    let invocations := countEvents isOperation (eventsOf result) in
    (forall value,
        outcomeOf result = Returned value ->
        exists n, invocations = S n /\
                  operation (calls + n)%nat = Api.Resolves value) /\
    (forall text status cause,
        outcomeOf result = Threw (SpotifyApiError text status cause) ->
        SpotifyApiError text status cause
        = Api.handleError cause operationName /\
        ((invocations = 0%nat /\ cause = lastError) \/
         exists n error,
           invocations = S n /\ cause = Some error /\
           operation (calls + n)%nat = Api.Rejects error)).
Proof.
  induction remaining as [|r IH]; intros attempt delay lastError calls w.
  - cbn. split.
    + intros value H. discriminate.
    + intros text status cause H.
      unfold Api.handleError in H. injection H as <- <- <-.
      split; [reflexivity|]. left. auto.
  - cbv zeta.
    destruct (loop_iteration r attempt delay lastError calls w)
      as [value E|error msg w1 l1 E St R Hm Hn|error tr w1 E St R
          |error waitTime E St A Hw|error E N Hlast];
      cbv zeta; cbn [outcomeOf eventsOf fst snd].
    + split.
      * intros v H. injection H as <-. exists 0%nat.
        rewrite Nat.add_0_r. auto.
      * intros text status cause H. discriminate.
    + split; intros; discriminate.
    + change (fst (fst ?x)) with (outcomeOf x).
      change (snd ?x) with (eventsOf x).
      specialize (IH (attempt + 1) delay (Some error) (S calls) w1).
      cbv zeta in IH. destruct IH as (I1 & I2).
      rewrite !countEvents_cons. cbn [isOperation]. split.
      * intros v H. destruct (I1 v H) as (n & Hn & Hv).
        exists (S n). rewrite Hn. split; [reflexivity|].
        rewrite <- Hv. f_equal. lia.
      * intros text status cause H.
        destruct (I2 text status cause H) as (Hh & [[H0 Hc]|(n & e & Hn & Hc & He)]).
        -- split; [exact Hh|]. right. exists 0%nat, error.
           rewrite H0, !Nat.add_0_r. auto.
        -- split; [exact Hh|]. right. exists (S n), e.
           rewrite Hn. repeat split; auto.
           rewrite <- He. f_equal. lia.
    + change (fst (fst ?x)) with (outcomeOf x).
      change (snd ?x) with (eventsOf x).
      specialize (IH (attempt + 1)
                     (delay * Api.backoffMultiplier retryConfig)
                     (Some error) (S calls) w).
      cbv zeta in IH. destruct IH as (I1 & I2).
      rewrite !countEvents_cons. cbn [isOperation]. split.
      * intros v H. destruct (I1 v H) as (n & Hn & Hv).
        exists (S n). rewrite Hn. split; [reflexivity|].
        rewrite <- Hv. f_equal. lia.
      * intros text status cause H.
        destruct (I2 text status cause H) as (Hh & [[H0 Hc]|(n & e & Hn & Hc & He)]).
        -- split; [exact Hh|]. right. exists 0%nat, error.
           rewrite H0, !Nat.add_0_r. auto.
        -- split; [exact Hh|]. right. exists (S n), e.
           rewrite Hn. repeat split; auto.
           rewrite <- He. f_equal. lia.
    + split.
      * intros v H. discriminate.
      * intros text status cause H.
        unfold Api.handleError in H. injection H as <- <- <-.
        split; [reflexivity|]. right. exists 0%nat, error.
        rewrite Nat.add_0_r. auto.
Qed.

End LoopCases.

Section LoopRuns.

Variable remote : Remote.
Variable retryConfig : Api.RetryConfig.
Variable T : Type.
Variable operation : nat -> Api.OpOutcome T.
Variable operationName : string.

Local Abbreviation loop :=
  (Api.attemptLoop remote retryConfig T operation operationName).

(** [n] failures with 429 or 503, then a success, with [n] retries left:
    the success is returned after [n] sleeps, the state untouched. *)
Lemma loop_recovers (n : nat) :
  forall (remaining : nat) (attempt delay : Z) (lastError : option OpError)
         (calls : nat) (w : World) (value : T),
    (forall i, (i < n)%nat -> exists e,
        operation (calls + i)%nat = Api.Rejects e /\
        (Api.errStatus e = Some 429 \/ Api.errStatus e = Some 503)) ->
    operation (calls + n)%nat = Api.Resolves value ->
    attempt + Z.of_nat n <= Api.maxRetries retryConfig ->
    (n < remaining)%nat ->
    exists events,
      loop remaining attempt delay lastError calls w
      = (Returned value, w, events) /\
      countEvents isOperation events = S n /\
      List.length (sleepsOf events) = n /\
      countEvents isNetwork events = 0%nat.
Proof.
  induction n as [|n IH];
    intros remaining attempt delay lastError calls w value Hop Ev Ha Hr;
    (destruct remaining as [|r]; [lia|]).
  - rewrite Nat.add_0_r in Ev.
    rewrite (loop_resolves remote retryConfig T operation operationName
               r attempt delay lastError calls w value Ev).
    exists [EvOperation]. auto.
  - destruct (Hop 0%nat ltac:(lia)) as (e0 & E0 & S0).
    rewrite Nat.add_0_r in E0.
    destruct (IH r (attempt + 1) (delay * Api.backoffMultiplier retryConfig)
                 (Some e0) (S calls) w value) as (ev & L & Co & Sl & Cn).
    + intros i Hi. destruct (Hop (S i) ltac:(lia)) as (e & E & St).
      exists e. split; [|exact St]. rewrite <- E. f_equal. lia.
    + rewrite <- Ev. f_equal. lia.
    + lia.
    + lia.
    + destruct S0 as [S0|S0].
      * rewrite (loop_429_backoff remote retryConfig T operation
                   operationName r attempt delay lastError calls w e0 E0 S0)
          by lia.
        rewrite L. cbn [outcomeOf worldOf eventsOf fst snd].
        eexists. split; [reflexivity|].
        rewrite !countEvents_cons. cbn [isOperation isNetwork sleepsOf].
        cbn [List.length]. rewrite Co, Sl, Cn. auto.
      * rewrite (loop_503_backoff remote retryConfig T operation
                   operationName r attempt delay lastError calls w e0 E0 S0)
          by lia.
        rewrite L. cbn [outcomeOf worldOf eventsOf fst snd].
        eexists. split; [reflexivity|].
        rewrite !countEvents_cons. cbn [isOperation isNetwork sleepsOf].
        cbn [List.length]. rewrite Co, Sl, Cn. auto.
Qed.

(** 429 or 503 on every invocation: every iteration is used, and the
    failure of the last one is the one reported. *)
Lemma loop_retryable_exhausted (remaining : nat) :
  (forall i, exists e,
      operation i = Api.Rejects e /\
      (Api.errStatus e = Some 429 \/ Api.errStatus e = Some 503)) ->
  forall (attempt delay : Z) (lastError : option OpError) (calls : nat)
         (w : World),
    Z.of_nat (S remaining) = Api.maxRetries retryConfig + 1 - attempt ->
    exists error events,
      loop (S remaining) attempt delay lastError calls w
      = (Threw (Api.handleError (Some error) operationName), w, events) /\
      operation (calls + remaining)%nat = Api.Rejects error /\
      countEvents isOperation events = S remaining /\
      List.length (sleepsOf events) = remaining /\
      countEvents isNetwork events = 0%nat.
Proof.
  intros Hop.
  induction remaining as [|r IH]; intros attempt delay lastError calls w Hr;
    destruct (Hop calls) as (e0 & E0 & S0).
  - exists e0, [EvOperation].
    rewrite (loop_terminal remote retryConfig T operation operationName
               0 attempt delay lastError calls w e0 E0).
    + rewrite Nat.add_0_r. auto.
    + destruct S0 as [S0|S0]; rewrite S0; discriminate.
    + intros _. lia.
  - destruct (IH (attempt + 1) (delay * Api.backoffMultiplier retryConfig)
                 (Some e0) (S calls) w) as (e & ev & L & O & Co & Sl & Cn);
      [lia|].
    exists e.
    destruct S0 as [S0|S0].
    + rewrite (loop_429_backoff remote retryConfig T operation
                 operationName (S r) attempt delay lastError calls w e0 E0 S0)
        by lia.
      rewrite L. cbn [outcomeOf worldOf eventsOf fst snd].
      eexists. split; [reflexivity|].
      rewrite !countEvents_cons. cbn [isOperation isNetwork sleepsOf].
      cbn [List.length]. rewrite Co, Sl, Cn.
      split; [rewrite <- O; f_equal; lia|]. auto.
    + rewrite (loop_503_backoff remote retryConfig T operation
                 operationName (S r) attempt delay lastError calls w e0 E0 S0)
        by lia.
      rewrite L. cbn [outcomeOf worldOf eventsOf fst snd].
      eexists. split; [reflexivity|].
      rewrite !countEvents_cons. cbn [isOperation isNetwork sleepsOf].
      cbn [List.length]. rewrite Co, Sl, Cn.
      split; [rewrite <- O; f_equal; lia|]. auto.
Qed.

End LoopRuns.

Lemma ensureTrace_counts (l : list Event) :
  ensureTrace l ->
  (countEvents isRefresh l <= 1)%nat /\
  (countEvents isNetwork l <= 1)%nat.
Proof.
  intros H; destruct H; cbn; lia.
Qed.

(** The freshness check only ever throws plain [Error]s. *)
Lemma ensureValidToken_throws_error (remote : Remote) (w w1 : World)
    (e : Exn) (l : list Event) :
  Auth.ensureValidToken remote w = (Threw e, w1, l) ->
  exists msg, e = JsError msg.
Proof.
  intros H.
  destruct (isTokenExpired_result remote w)
    as (b & w0 & Hexp & _ & _ & _ & _ & _ & Hfresh).
  destruct b.
  - destruct (refresh_cases remote w0)
      as [[_ E]|[(error & _ & _ & E)|(body & Hheld & R & E)]].
    + rewrite (ensureValidToken_when_refresh_threw remote w w0 _ _ _ Hexp E)
        in H.
      injection H as <- _ _. eauto.
    + rewrite (ensureValidToken_when_refresh_threw remote w w0 _ _ _ Hexp E)
        in H.
      injection H as <- _ _. eauto.
    + rewrite (ensureValidToken_when_refreshed remote w w0 body Hexp Hheld R)
        in H.
      destruct (Js.truthyString (Some (body_access_token body)));
        [discriminate|].
      injection H as <- _ _. eauto.
  - destruct (Hfresh eq_refl) as (tm & Htm & Hclock).
    rewrite (ensureValidToken_when_fresh remote w tm Htm Hclock) in H.
    destruct (Js.truthyString (Some (accessToken tm))); [discriminate|].
    injection H as <- _ _. eauto.
Qed.

(** X6. Whatever the operation and the remote do, one call of
    [executeWithRetry] invokes the operation at most [maxRetries + 1] times
    (never, when [maxRetries] is negative), sleeps at most [maxRetries]
    times, and calls [refreshAccessToken] and sends requests to the token
    endpoint at most once more than it invokes the operation. *)
Theorem run_attempts_bounded (remote : Remote)
    (retryConfig : Api.RetryConfig) (T : Type)
    (operation : nat -> Api.OpOutcome T) (operationName : string)
    (w : World) :
  let events :=
    eventsOf (Api.executeWithRetry remote retryConfig T operation
                operationName w) in
  (countEvents isOperation events
   <= Z.to_nat (Api.maxRetries retryConfig + 1))%nat /\
  (List.length (sleepsOf events)
   <= Z.to_nat (Api.maxRetries retryConfig))%nat /\
  (countEvents isRefresh events <= 1 + countEvents isOperation events)%nat /\
  (countEvents isNetwork events <= 1 + countEvents isOperation events)%nat.
Proof.
  cbv zeta.
  destruct (Auth.ensureValidToken remote w) as [[o w1] l0] eqn:E.
  destruct (check_events remote w w1 o l0 E) as (rest & _ & _ & C0 & S0).
  assert (Htrace : ensureTrace l0).
  { replace l0 with (eventsOf (Auth.ensureValidToken remote w))
      by (rewrite E; reflexivity).
    apply ensureValidToken_trace. }
  destruct (ensureTrace_counts l0 Htrace) as [R0 N0].
  destruct o as [tok|e].
  - rewrite (run_after_check remote retryConfig T operation operationName
               w w1 tok l0 E).
    cbn [eventsOf snd]. change (snd ?x) with (eventsOf x).
    destruct (loop_bounds remote retryConfig T operation operationName
                (Z.to_nat (Api.maxRetries retryConfig + 1)) 0
                (Api.initialDelayMs retryConfig) None 0%nat w1)
      as (B1 & B2 & B3 & B4).
    rewrite Z.sub_0_r in B2.
    rewrite !countEvents_app, sleepsOf_app, length_app, C0, S0.
    cbn [List.length]. lia.
  - rewrite (run_check_threw remote retryConfig T operation operationName
               w w1 e l0 E).
    cbn [eventsOf snd]. rewrite C0, S0. cbn [List.length]. lia.
Qed.

(** X7. If the first [n] invocations fail with 429 or 503 and the next one
    succeeds, with [n <= maxRetries], a run whose freshness check passes
    returns that success after [n + 1] invocations and [n] sleeps, without
    any request to the token endpoint beyond the freshness check and with
    the state the freshness check left. *)
Theorem transient_failures_recovered (remote : Remote)
    (retryConfig : Api.RetryConfig) (T : Type)
    (operation : nat -> Api.OpOutcome T) (operationName : string)
    (w w1 : World) (tok : string) (l0 : list Event) (n : nat) (value : T) :
  Auth.ensureValidToken remote w = (Returned tok, w1, l0) ->
  Z.of_nat n <= Api.maxRetries retryConfig ->
  (forall i, (i < n)%nat -> exists e,
      operation i = Api.Rejects e /\
      (Api.errStatus e = Some 429 \/ Api.errStatus e = Some 503)) ->
  operation n = Api.Resolves value ->
  exists loopEvents,
    Api.executeWithRetry remote retryConfig T operation operationName w
    = (Returned value, w1, l0 ++ loopEvents) /\
    countEvents isOperation (l0 ++ loopEvents) = S n /\
    List.length (sleepsOf (l0 ++ loopEvents)) = n /\
    countEvents isNetwork loopEvents = 0%nat.
Proof.
  intros Hcheck Hn Hop Ev.
  destruct (check_events remote w w1 _ l0 Hcheck) as (rest & _ & _ & C0 & S0).
  rewrite (run_after_check remote retryConfig T operation operationName
             w w1 tok l0 Hcheck).
  destruct (loop_recovers remote retryConfig T operation operationName n
              (Z.to_nat (Api.maxRetries retryConfig + 1)) 0
              (Api.initialDelayMs retryConfig) None 0%nat w1 value)
    as (ev & L & Co & Sl & Cn); try lia; try assumption.
  rewrite L. cbn [outcomeOf worldOf eventsOf fst snd].
  exists ev. rewrite countEvents_app, sleepsOf_app, C0, S0. cbn [app].
  auto.
Qed.

(** The scenario of three 503 failures followed by a success, under the
    default budget of three retries. *)
Lemma transient_failures_recovered_witness :
  exists loopEvents,
    Api.executeWithRetry Samples.goodRemote Api.DEFAULT_RETRY_CONFIG nat
      (Samples.failsThen 3 503 7) "search tracks" Samples.seeded
    = (Returned 7%nat,
       worldOf (Auth.ensureValidToken Samples.goodRemote Samples.seeded),
       [EvEnsureValidToken; EvRefreshAccessToken; EvRefreshRequest]
         ++ loopEvents) /\
    List.length
      (sleepsOf ([EvEnsureValidToken; EvRefreshAccessToken; EvRefreshRequest]
                   ++ loopEvents)) = 3%nat.
Proof.
  destruct (transient_failures_recovered Samples.goodRemote
              Api.DEFAULT_RETRY_CONFIG nat (Samples.failsThen 3 503 7)
              "search tracks" Samples.seeded
              (worldOf (Auth.ensureValidToken Samples.goodRemote
                          Samples.seeded))
              "fresh"
              [EvEnsureValidToken; EvRefreshAccessToken; EvRefreshRequest]
              3%nat 7%nat)
    as (ev & E & _ & Hs & _).
  - reflexivity.
  - simpl. lia.
  - intros i Hi. exists (Samples.err 503). split; [|right; reflexivity].
    unfold Samples.failsThen.
    destruct (Nat.ltb_spec i 3); [reflexivity|lia].
  - reflexivity.
  - exists ev. split; [exact E|exact Hs].
Defined.

(** X8. For every retry policy ([maxRetries] a non-negative integer) and
    every operation that fails with status 503 each time, a run whose
    freshness check passes invokes the operation [maxRetries + 1] times,
    sleeps [maxRetries] times, the wait number [k] (from 0) being
    [min (initialDelayMs * backoffMultiplier ^ k) maxDelayMs], and throws
    the [SpotifyApiError] with the temporarily-unavailable message, status
    503 and the last failure as cause. *)
Theorem service_unavailable_exhaustion (remote : Remote)
    (retryConfig : Api.RetryConfig) (T : Type)
    (operation : nat -> Api.OpOutcome T) (operationName : string)
    (w w1 : World) (tok : string) (l0 : list Event) :
  0 <= Api.maxRetries retryConfig ->
  Auth.ensureValidToken remote w = (Returned tok, w1, l0) ->
  (forall i, exists error,
      operation i = Api.Rejects error /\ Api.errStatus error = Some 503) ->
  exists error events,
    Api.executeWithRetry remote retryConfig T operation operationName w
    = (Threw (SpotifyApiError Api.unavailableMessage (Some 503) (Some error)),
       w1, events) /\
    operation (Z.to_nat (Api.maxRetries retryConfig)) = Api.Rejects error /\
    Z.of_nat (countEvents isOperation events)
    = Api.maxRetries retryConfig + 1 /\
    Z.of_nat (List.length (sleepsOf events)) = Api.maxRetries retryConfig /\
    (forall k, Z.of_nat k < Api.maxRetries retryConfig ->
       nth_error (sleepsOf events) k
       = Some (Some (Z.min (Api.initialDelayMs retryConfig
                            * Api.backoffMultiplier retryConfig ^ Z.of_nat k)
                           (Api.maxDelayMs retryConfig)))).
Proof.
  intros Hmax Hcheck Hop.
  destruct (check_events remote w w1 _ l0 Hcheck) as (rest & _ & _ & C0 & S0).
  rewrite (run_after_check remote retryConfig T operation operationName
             w w1 tok l0 Hcheck).
  replace (Z.to_nat (Api.maxRetries retryConfig + 1))
    with (S (Z.to_nat (Api.maxRetries retryConfig))) by lia.
  destruct (loop_retryable_exhausted remote retryConfig T operation
              operationName (Z.to_nat (Api.maxRetries retryConfig)))
    with (attempt := 0) (delay := Api.initialDelayMs retryConfig)
         (lastError := @None OpError) (calls := 0%nat) (w := w1)
    as (error & ev & L & O & Co & Sl & _).
  - intros i. destruct (Hop i) as (e & E & St). exists e. auto.
  - lia.
  - assert (S503 : Api.errStatus error = Some 503).
    { destruct (Hop (Z.to_nat (Api.maxRetries retryConfig)))
        as (e & E & St).
      cbn [Nat.add] in O. rewrite O in E. injection E as <-. exact St. }
    exists error, (l0 ++ ev).
    assert (Hloop :
      forall k, Z.of_nat k < Api.maxRetries retryConfig ->
        nth_error (sleepsOf ev) k
        = Some (Some (Z.min (Api.initialDelayMs retryConfig
                             * Api.backoffMultiplier retryConfig ^ Z.of_nat k)
                            (Api.maxDelayMs retryConfig)))).
    { intros k Hk. destruct (Hop k) as (ek & Ek & Sk).
      replace ev with
        (eventsOf (Api.attemptLoop remote retryConfig T operation
                     operationName
                     (S (Z.to_nat (Api.maxRetries retryConfig))) 0
                     (Api.initialDelayMs retryConfig) None 0%nat w1))
        by (rewrite L; reflexivity).
      rewrite (loop_nth_wait remote retryConfig T operation operationName k
                 _ 0 _ None 0%nat w1 ek); try lia.
      - rewrite Sk. reflexivity.
      - intros i _. destruct (Hop i) as (e & E & St). exists e. auto.
      - exact Ek. }
    rewrite L. cbn [outcomeOf worldOf eventsOf fst snd].
    unfold Api.handleError. rewrite S503.
    cbn [Js.strictEq Z.eqb Pos.eqb orb].
    rewrite countEvents_app, sleepsOf_app, C0, S0, Co. cbn [app].
    rewrite Sl. repeat split; try lia; auto.
Qed.

Lemma service_unavailable_exhaustion_witness :
  exists error events,
    Api.executeWithRetry Samples.goodRemote Api.DEFAULT_RETRY_CONFIG nat
      (Samples.always 503) "search tracks" Samples.seeded
    = (Threw (SpotifyApiError Api.unavailableMessage (Some 503) (Some error)),
       worldOf (Auth.ensureValidToken Samples.goodRemote Samples.seeded),
       events) /\
    nth_error (sleepsOf events) 2 = Some (Some 4000).
Proof.
  destruct (service_unavailable_exhaustion Samples.goodRemote
              Api.DEFAULT_RETRY_CONFIG nat (Samples.always 503)
              "search tracks" Samples.seeded
              (worldOf (Auth.ensureValidToken Samples.goodRemote
                          Samples.seeded))
              "fresh"
              [EvEnsureValidToken; EvRefreshAccessToken; EvRefreshRequest])
    as (error & events & E & _ & _ & _ & Hw).
  - simpl. lia.
  - reflexivity.
  - intros i. exists (Samples.err 503). split; reflexivity.
  - exists error, events. split; [exact E|].
    apply (Hw 2%nat). simpl. lia.
Defined.

(** X9. If the first invocation fails with 401 and the refresh that follows
    throws, the run throws that same exception, a plain [Error] and not a
    [SpotifyApiError], without invoking the operation again or sleeping,
    and the credential is what it was after the freshness check. *)
Theorem refresh_failure_is_terminal (remote : Remote)
    (retryConfig : Api.RetryConfig) (T : Type)
    (operation : nat -> Api.OpOutcome T) (operationName : string)
    (w w1 w2 : World) (tok : string) (l0 lr : list Event)
    (error : OpError) (e : Exn) :
  0 <= Api.maxRetries retryConfig ->
  Auth.ensureValidToken remote w = (Returned tok, w1, l0) ->
  operation 0%nat = Api.Rejects error ->
  Api.errStatus error = Some 401 ->
  Auth.refreshAccessToken remote w1 = (Threw e, w2, lr) ->
  Api.executeWithRetry remote retryConfig T operation operationName w
  = (Threw e, w2, l0 ++ EvOperation :: lr) /\
  (exists msg, e = JsError msg) /\
  countEvents isOperation (l0 ++ EvOperation :: lr) = 1%nat /\
  sleepsOf (l0 ++ EvOperation :: lr) = [] /\
  tokenMetadata w2 = tokenMetadata w1.
Proof.
  intros Hmax Hcheck E S401 R.
  destruct (check_events remote w w1 _ l0 Hcheck) as (rest & _ & _ & C0 & S0).
  rewrite (run_after_check remote retryConfig T operation operationName
             w w1 tok l0 Hcheck).
  replace (Z.to_nat (Api.maxRetries retryConfig + 1))
    with (S (Z.to_nat (Api.maxRetries retryConfig))) by lia.
  rewrite (loop_401_refresh_threw remote retryConfig T operation
             operationName _ 0 _ None 0%nat w1 w2 error e lr E S401 R).
  cbn [outcomeOf worldOf eventsOf fst snd].
  split; [reflexivity|].
  rewrite countEvents_app, sleepsOf_app, C0, S0.
  destruct (refresh_cases remote w1)
    as [[_ X]|[(x & _ & _ & X)|(body & _ & _ & X)]];
    rewrite X in R; try discriminate;
    injection R as <- <- <-; repeat split; eauto.
Qed.

Lemma refresh_failure_is_terminal_witness :
  let w :=
    worldOf (Auth.exchangeCodeForToken Samples.strictRemote "code"
               Samples.unseeded) in
  outcomeOf
    (Api.executeWithRetry Samples.strictRemote Api.DEFAULT_RETRY_CONFIG nat
       (Samples.always 401) "search tracks" w)
  = Threw (JsError "Failed to refresh access token: Invalid refresh token").
Proof.
  cbv zeta.
  destruct (refresh_failure_is_terminal Samples.strictRemote
              Api.DEFAULT_RETRY_CONFIG nat (Samples.always 401)
              "search tracks"
              (worldOf (Auth.exchangeCodeForToken Samples.strictRemote "code"
                          Samples.unseeded))
              (worldOf (Auth.ensureValidToken Samples.strictRemote
                 (worldOf (Auth.exchangeCodeForToken Samples.strictRemote
                             "code" Samples.unseeded))))
              (worldOf (Auth.refreshAccessToken Samples.strictRemote
                 (worldOf (Auth.ensureValidToken Samples.strictRemote
                    (worldOf (Auth.exchangeCodeForToken Samples.strictRemote
                                "code" Samples.unseeded))))))
              "first" [EvEnsureValidToken]
              [EvRefreshAccessToken; EvRefreshRequest]
              (Samples.err 401)
              (JsError "Failed to refresh access token: Invalid refresh token"))
    as (E & _).
  - simpl. lia.
  - reflexivity.
  - reflexivity.
  - reflexivity.
  - reflexivity.
  - rewrite E. reflexivity.
Defined.

(** X10. With a negative [maxRetries] the loop body never runs: a run whose
    freshness check passes does not invoke the operation at all and throws
    a [SpotifyApiError] with the message "Failed to <operation name>:
    Unknown error", no status code and no cause. *)
Theorem negative_budget_never_invokes (remote : Remote)
    (retryConfig : Api.RetryConfig) (T : Type)
    (operation : nat -> Api.OpOutcome T) (operationName : string)
    (w w1 : World) (tok : string) (l0 : list Event) :
  Api.maxRetries retryConfig < 0 ->
  Auth.ensureValidToken remote w = (Returned tok, w1, l0) ->
  Api.executeWithRetry remote retryConfig T operation operationName w
  = (Threw (SpotifyApiError
              ("Failed to " +++ operationName +++ ": Unknown error")
              None None),
     w1, l0) /\
  countEvents isOperation l0 = 0%nat.
Proof.
  intros Hmax Hcheck.
  destruct (check_events remote w w1 _ l0 Hcheck) as (rest & _ & _ & C0 & _).
  rewrite (run_after_check remote retryConfig T operation operationName
             w w1 tok l0 Hcheck).
  replace (Z.to_nat (Api.maxRetries retryConfig + 1)) with 0%nat by lia.
  rewrite loop_exit. cbn [outcomeOf worldOf eventsOf fst snd].
  rewrite app_nil_r. split; [reflexivity|exact C0].
Qed.

Lemma negative_budget_never_invokes_witness :
  outcomeOf
    (Api.executeWithRetry Samples.goodRemote
       {| Api.maxRetries := -1; Api.initialDelayMs := 1000;
          Api.maxDelayMs := 10000; Api.backoffMultiplier := 2 |}
       nat (fun _ => Api.Resolves 7%nat) "search tracks" Samples.seeded)
  = Threw (SpotifyApiError "Failed to search tracks: Unknown error"
             None None).
Proof.
  destruct (negative_budget_never_invokes Samples.goodRemote
              {| Api.maxRetries := -1; Api.initialDelayMs := 1000;
                 Api.maxDelayMs := 10000; Api.backoffMultiplier := 2 |}
              nat (fun _ => Api.Resolves 7%nat) "search tracks"
              Samples.seeded
              (worldOf (Auth.ensureValidToken Samples.goodRemote
                          Samples.seeded))
              "fresh"
              [EvEnsureValidToken; EvRefreshAccessToken; EvRefreshRequest])
    as (E & _).
  - simpl. lia.
  - reflexivity.
  - rewrite E. reflexivity.
Defined.

(** X11. When the held token has more than a minute left and no invocation
    of the operation fails with 401, a run sends nothing to the token
    endpoint, never calls [refreshAccessToken], and leaves the credential
    and the tokens of the API client exactly as they were. *)
Theorem no_401_no_token_traffic (remote : Remote)
    (retryConfig : Api.RetryConfig) (T : Type)
    (operation : nat -> Api.OpOutcome T) (operationName : string)
    (w : World) (tm : TokenMetadata) :
  tokenMetadata w = Some tm ->
  clock remote (clockReads w) < expiresAt tm - 60 * 1000 ->
  (forall i error, operation i = Api.Rejects error ->
                   Api.errStatus error <> Some 401) ->
  let result :=
    Api.executeWithRetry remote retryConfig T operation operationName w in
  countEvents isNetwork (eventsOf result) = 0%nat /\
  countEvents isRefresh (eventsOf result) = 0%nat /\
  tokenMetadata (worldOf result) = Some tm /\
  apiAccessToken (worldOf result) = apiAccessToken w /\
  apiRefreshToken (worldOf result) = apiRefreshToken w.
Proof.
  intros Htm Hclock Hop result. unfold result.
  pose proof (ensureValidToken_when_fresh remote w tm Htm Hclock) as Hcheck.
  destruct (dateNow_result remote w) as (_ & Hm & Ha & Hr & _).
  destruct (Js.truthyString (Some (accessToken tm))).
  - rewrite (run_after_check remote retryConfig T operation operationName
               w _ _ _ Hcheck).
    cbn [worldOf eventsOf fst snd].
    change (snd (fst ?x)) with (worldOf x).
    change (snd ?x) with (eventsOf x).
    destruct (loop_frame remote retryConfig T operation operationName
                (Z.to_nat (Api.maxRetries retryConfig + 1)) Hop 0
                (Api.initialDelayMs retryConfig) None 0%nat
                (worldOf (Auth.dateNow remote w)))
      as (F1 & F2 & F3).
    rewrite F1, !countEvents_app, F2, F3, Hm, Ha, Hr, Htm. auto.
  - rewrite (run_check_threw remote retryConfig T operation operationName
               w _ _ _ Hcheck).
    cbn [worldOf eventsOf fst snd]. rewrite Hm, Ha, Hr, Htm. auto.
Qed.

Lemma no_401_no_token_traffic_witness :
  let w :=
    worldOf (Auth.exchangeCodeForToken Samples.goodRemote "code"
               Samples.unseeded) in
  countEvents isNetwork
    (eventsOf (Api.executeWithRetry Samples.goodRemote
                 Api.DEFAULT_RETRY_CONFIG nat (Samples.always 429)
                 "search tracks" w)) = 0%nat.
Proof.
  cbv zeta.
  destruct (no_401_no_token_traffic Samples.goodRemote
              Api.DEFAULT_RETRY_CONFIG nat (Samples.always 429)
              "search tracks"
              (worldOf (Auth.exchangeCodeForToken Samples.goodRemote "code"
                          Samples.unseeded))
              {| accessToken := "fresh"; refreshToken := None;
                 expiresAt := 4600000 |})
    as (H & _).
  - reflexivity.
  - simpl. lia.
  - intros i error E. injection E as <-. discriminate.
  - exact H.
Defined.

(** X12. Whatever a run returns is what the operation's last invocation
    resolved with.  Every [SpotifyApiError] a run throws is the one
    [handleError] builds from its cause; the cause is the failure of the
    operation's last invocation and the status is the one read from it, or
    there is no cause and no status when the operation was never invoked. *)
Theorem run_outcome_sound (remote : Remote)
    (retryConfig : Api.RetryConfig) (T : Type)
    (operation : nat -> Api.OpOutcome T) (operationName : string)
    (w : World) :
  let result :=
    Api.executeWithRetry remote retryConfig T operation operationName w in
  let invocations := countEvents isOperation (eventsOf result) in
  (forall value,
      outcomeOf result = Returned value ->
      exists n, invocations = S n /\ operation n = Api.Resolves value) /\
  (forall text status cause,
      outcomeOf result = Threw (SpotifyApiError text status cause) ->
      SpotifyApiError text status cause
      = Api.handleError cause operationName /\
      ((invocations = 0%nat /\ cause = None /\ status = None) \/
       exists n error,
         invocations = S n /\ cause = Some error /\
         operation n = Api.Rejects error /\
         status = Api.errStatus error)).
Proof.
  cbv zeta.
  destruct (Auth.ensureValidToken remote w) as [[o w1] l0] eqn:E.
  destruct (check_events remote w w1 o l0 E) as (rest & _ & _ & C0 & _).
  destruct o as [tok|e].
  - rewrite (run_after_check remote retryConfig T operation operationName
               w w1 tok l0 E).
    cbn [outcomeOf eventsOf fst snd].
    change (fst (fst ?x)) with (outcomeOf x).
    change (snd ?x) with (eventsOf x).
    destruct (loop_outcome_sound remote retryConfig T operation operationName
                (Z.to_nat (Api.maxRetries retryConfig + 1)) 0
                (Api.initialDelayMs retryConfig) None 0%nat w1)
      as (S1 & S2).
    rewrite countEvents_app, C0. cbn [Nat.add] in *. split.
    + exact S1.
    + intros text status cause H.
      destruct (S2 text status cause H)
        as (Hh & [[H0 Hc]|(n & error & Hn & Hc & He)]).
      * split; [exact Hh|]. left. subst cause.
        unfold Api.handleError in Hh. injection Hh as _ Hs.
        auto.
      * split; [exact Hh|]. right. exists n, error. subst cause.
        unfold Api.handleError in Hh. injection Hh as _ Hs.
        auto.
  - rewrite (run_check_threw remote retryConfig T operation operationName
               w w1 e l0 E).
    cbn [outcomeOf eventsOf fst snd].
    destruct (ensureValidToken_throws_error remote w w1 e l0 E) as (msg & ->).
    split; intros; discriminate.
Qed.

Lemma parseInt_unreadable_truthy (h : string) :
  h <> "" -> Js.truthyString (Some h) = true.
Proof. apply truthyString_nonempty. Qed.

(** X13. A 429 failure whose [retry-after] header is not empty and which
    [parseInt] reads as [NaN] (after white space of any kind and a sign, no
    digit follows: an HTTP date, say) makes the executor call [sleep] with
    [NaN]: the computed backoff delay is not used as a fallback. *)
Theorem unreadable_hint_sleeps_nan (remote : Remote)
    (retryConfig : Api.RetryConfig) (T : Type)
    (operation : nat -> Api.OpOutcome T) (operationName : string)
    (w w1 : World) (tok : string) (l0 : list Event)
    (error : OpError) (hint : string) :
  Auth.ensureValidToken remote w = (Returned tok, w1, l0) ->
  0 < Api.maxRetries retryConfig ->
  operation 0%nat = Api.Rejects error ->
  Api.errStatus error = Some 429 ->
  retryAfter error = Some hint ->
  hint <> "" ->
  Js.parseInt hint = None ->
  nth_error
    (sleepsOf (eventsOf (Api.executeWithRetry remote retryConfig T operation
                           operationName w))) 0
  = Some None.
Proof.
  intros Hcheck Hmax E S429 Hh Hne Hparse.
  destruct (check_events remote w w1 _ l0 Hcheck) as (rest & _ & _ & _ & S0).
  rewrite (run_after_check remote retryConfig T operation operationName
             w w1 tok l0 Hcheck).
  cbn [eventsOf snd]. rewrite sleepsOf_app, S0. cbn [app].
  replace (Z.to_nat (Api.maxRetries retryConfig + 1))
    with (S (Z.to_nat (Api.maxRetries retryConfig))) by lia.
  rewrite (loop_429_backoff remote retryConfig T operation operationName
             _ 0 _ None 0%nat w1 error E S429 Hmax).
  cbn [eventsOf snd sleepsOf nth_error].
  unfold Api.rateLimitWait. rewrite Hh.
  rewrite (parseInt_unreadable_truthy hint Hne), Hparse. reflexivity.
Qed.

Lemma unreadable_hint_sleeps_nan_witness :
  nth_error
    (sleepsOf (eventsOf
       (Api.executeWithRetry Samples.goodRemote Api.DEFAULT_RETRY_CONFIG nat
          (fun _ => Api.Rejects
             (Samples.errWithHint 429 "Wed, 21 Oct 2015 07:28:00 GMT"))
          "search tracks" Samples.seeded))) 0
  = Some None.
Proof.
  apply (unreadable_hint_sleeps_nan Samples.goodRemote
           Api.DEFAULT_RETRY_CONFIG nat
           (fun _ => Api.Rejects
              (Samples.errWithHint 429 "Wed, 21 Oct 2015 07:28:00 GMT"))
           "search tracks" Samples.seeded
           (worldOf (Auth.ensureValidToken Samples.goodRemote Samples.seeded))
           "fresh"
           [EvEnsureValidToken; EvRefreshAccessToken; EvRefreshRequest]
           (Samples.errWithHint 429 "Wed, 21 Oct 2015 07:28:00 GMT")
           "Wed, 21 Oct 2015 07:28:00 GMT").
  - reflexivity.
  - simpl. lia.
  - reflexivity.
  - reflexivity.
  - reflexivity.
  - discriminate.
  - reflexivity.
Defined.

(* ===================================================================== *)
(** ** Text operations *)
(* ===================================================================== *)

(** Every character of [s] is white space. *)
(** [s.startsWith(p)] holds exactly when [s] is [p] followed by
    something. *)
Lemma startsWith_spec (s p : string) :
  JsText.startsWith s p = true <-> exists rest, s = p +++ rest.
Proof.
  unfold JsText.startsWith. revert s.
  induction p as [|c p IH]; intros s.
  - destruct s; cbn; split; eauto.
  - destruct s as [|a s]; cbn [String.prefix String.append].
    + split; [discriminate|]. intros (rest & H). discriminate.
    + destruct (Ascii.ascii_dec c a) as [->|N].
      * rewrite IH. split; intros (rest & H); exists rest; congruence.
      * split; [discriminate|]. intros (rest & H). congruence.
Qed.

Lemma includes_here (s p : string) :
  String.prefix p s = true -> JsText.includes s p = true.
Proof.
  intros H. destruct s; cbn [JsText.includes]; rewrite H; reflexivity.
Qed.

(** A text that contains [p] somewhere includes it. *)
Lemma includes_inside (before p after : string) :
  JsText.includes (before +++ (p +++ after)) p = true.
Proof.
  induction before as [|c before IH]; cbn [String.append].
  - apply includes_here. apply (startsWith_spec (p +++ after) p). eauto.
  - cbn [JsText.includes]. rewrite IH. apply orb_true_r.
Qed.



(** The seconds field: two characters for every value from 0 to 59. *)
Lemma seconds_two_characters (n : nat) :
  (n < 60)%nat ->
  String.length
    (JsText.padStart 2 "0"%char (JsText.numberToString (Z.of_nat n)))
  = 2%nat.
Proof.
  intros H.
  do 60 (destruct n as [|n]; [reflexivity|]). lia.
Qed.

(* ===================================================================== *)
(** ** tools: durations *)
(* ===================================================================== *)

(** X14. For a duration of [ms] milliseconds, [ms] an integer from 0 to
    [Number.MAX_SAFE_INTEGER] (the range in which the quotients of doubles
    rounded down are the quotients of integers), [formatDuration] writes the
    whole minutes [ms / 60000] in decimal, with no hours field, a colon, and
    the seconds left over in exactly two characters; the seconds are below
    60, and minutes and seconds together are the whole seconds [ms / 1000]:
    the duration is cut, never rounded up. *)
Theorem formatDuration_shape (ms : Z) :
  0 <= ms <= Js.MAX_SAFE_INTEGER ->
  exists seconds,
    0 <= seconds < 60 /\
    (ms / 60000) * 60 + seconds = ms / 1000 /\
    Tools.formatDuration ms
    = JsText.numberToString (ms / 60000) +++ ":"
        +++ JsText.padStart 2 "0"%char (JsText.numberToString seconds) /\
    String.length
      (JsText.padStart 2 "0"%char (JsText.numberToString seconds))
    = 2%nat.
Proof.
  intros Hms.
  exists ((ms / 1000) mod 60).
  assert (Hts : 0 <= ms / 1000) by (apply Z.div_pos; lia).
  assert (Hmin : ms / 1000 / 60 = ms / 60000).
  { rewrite Z.div_div by lia. reflexivity. }
  assert (Hs : 0 <= (ms / 1000) mod 60 < 60) by (apply Z.mod_pos_bound; lia).
  split; [exact Hs|]. split; [|split].
  - rewrite <- Hmin.
    pose proof (Z.div_mod (ms / 1000) 60 ltac:(lia)). lia.
  - unfold Tools.formatDuration. cbv zeta.
    rewrite Z.rem_mod_nonneg by lia. rewrite Hmin. reflexivity.
  - replace ((ms / 1000) mod 60)
      with (Z.of_nat (Z.to_nat ((ms / 1000) mod 60))) by lia.
    apply seconds_two_characters. lia.
Qed.

Lemma formatDuration_shape_witness :
  Tools.formatDuration 3725999 = "62:05" /\
  exists seconds,
    0 <= seconds < 60 /\ (3725999 / 60000) * 60 + seconds = 3725999 / 1000.
Proof.
  split; [reflexivity|].
  destruct (formatDuration_shape 3725999) as (seconds & Hs & Hsum & _);
    [unfold Js.MAX_SAFE_INTEGER; lia|].
  exists seconds. split; [exact Hs|exact Hsum].
Defined.

(* ===================================================================== *)
(** ** spotify_api.ts: results are handed through *)
(* ===================================================================== *)

Lemma mapReturned_result {A B : Type} (f : A -> B)
    (r : Outcome A * World * list Event) :
  worldOf (mapReturned f r) = worldOf r /\
  eventsOf (mapReturned f r) = eventsOf r /\
  outcomeOf (mapReturned f r)
  = match outcomeOf r with
    | Returned a => Returned (f a)
    | Threw e => Threw e
    end.
Proof. destruct r as [[[a|e] w] l]; repeat split. Qed.

Lemma mapReturned_eta {A B : Type} (f : A -> B)
    (r : Outcome A * World * list Event) (l0 : list Event) :
  (outcomeOf (mapReturned f r), worldOf (mapReturned f r),
   l0 ++ eventsOf (mapReturned f r))
  = mapReturned f (outcomeOf r, worldOf r, l0 ++ eventsOf r).
Proof. destruct r as [[[a|e] w] l]; reflexivity. Qed.

Section Naturality.

Variable remote : Remote.
Variable retryConfig : Api.RetryConfig.
Variables T T' : Type.
Variable f : T -> T'.
Variable operation : nat -> Api.OpOutcome T.
Variable operationName : string.

Lemma loop_natural (remaining : nat) :
  forall (attempt delay : Z) (lastError : option OpError) (calls : nat)
         (w : World),
    Api.attemptLoop remote retryConfig T'
      (fun k => thenMap f (operation k)) operationName
      remaining attempt delay lastError calls w
    = mapReturned f
        (Api.attemptLoop remote retryConfig T operation operationName
           remaining attempt delay lastError calls w).
Proof.
  induction remaining as [|r IH]; intros attempt delay lastError calls w.
  - reflexivity.
  - pose (mapped := fun k => thenMap f (operation k)).
    assert (Hrej : forall error, operation calls = Api.Rejects error ->
                                 mapped calls = Api.Rejects error).
    { intros error E. unfold mapped. rewrite E. reflexivity. }
    change (Api.attemptLoop remote retryConfig T' mapped operationName
              (S r) attempt delay lastError calls w
            = mapReturned f
                (Api.attemptLoop remote retryConfig T operation operationName
                   (S r) attempt delay lastError calls w)).
    destruct (loop_iteration remote retryConfig T operation operationName
                r attempt delay lastError calls w)
      as [value E|error msg w1 l1 E St R Hm Hn|error tr w1 E St R
          |error waitTime E St A Hw|error E N Hlast].
    + assert (E' : mapped calls = Api.Resolves (f value))
        by (unfold mapped; rewrite E; reflexivity).
      rewrite (loop_resolves remote retryConfig T' mapped operationName
                 r attempt delay lastError calls w (f value) E').
      reflexivity.
    + rewrite (loop_401_refresh_threw remote retryConfig T' mapped
                 operationName r attempt delay lastError calls w w1 error
                 _ l1 (Hrej _ E) St R).
      reflexivity.
    + rewrite (loop_401_refreshed remote retryConfig T' mapped operationName
                 r attempt delay lastError calls w w1 error tr _
                 (Hrej _ E) St R).
      cbv zeta. unfold mapped. rewrite IH.
      apply (mapReturned_eta f _
               [EvOperation; EvRefreshAccessToken; EvRefreshRequest]).
    + subst waitTime. cbv zeta. destruct St as [St|St].
      * rewrite (loop_429_backoff remote retryConfig T' mapped operationName
                   r attempt delay lastError calls w error (Hrej _ E) St A).
        rewrite St. cbn [Js.strictEq Z.eqb Pos.eqb].
        cbv zeta. unfold mapped. rewrite IH.
        apply (mapReturned_eta f _ [EvOperation; EvSleep _]).
      * rewrite (loop_503_backoff remote retryConfig T' mapped operationName
                   r attempt delay lastError calls w error (Hrej _ E) St A).
        rewrite St. cbn [Js.strictEq Z.eqb Pos.eqb].
        cbv zeta. unfold mapped. rewrite IH.
        apply (mapReturned_eta f _ [EvOperation; EvSleep _]).
    + rewrite (loop_terminal remote retryConfig T' mapped operationName
                 r attempt delay lastError calls w error (Hrej _ E) N Hlast).
      reflexivity.
Qed.

End Naturality.

(** X15. [executeWithRetry] never looks at what the operation resolves
    with: running an operation followed by a pure step [f] is running the
    operation and applying [f] to what the run returns.  Invocations,
    sleeps, refreshes, exceptions and final state are the same. *)
Theorem run_hands_results_through (remote : Remote)
    (retryConfig : Api.RetryConfig) (T T' : Type) (f : T -> T')
    (operation : nat -> Api.OpOutcome T) (operationName : string)
    (w : World) :
  Api.executeWithRetry remote retryConfig T'
    (fun k => thenMap f (operation k)) operationName w
  = mapReturned f
      (Api.executeWithRetry remote retryConfig T operation operationName w).
Proof.
  destruct (Auth.ensureValidToken remote w) as [[[tok|e] w1] l0] eqn:E.
  - rewrite (run_after_check remote retryConfig T' _ operationName
               w w1 tok l0 E).
    rewrite (run_after_check remote retryConfig T operation operationName
               w w1 tok l0 E).
    cbv zeta. rewrite loop_natural. apply mapReturned_eta.
  - rewrite (run_check_threw remote retryConfig T' _ operationName
               w w1 e l0 E).
    rewrite (run_check_threw remote retryConfig T operation operationName
               w w1 e l0 E).
    reflexivity.
Qed.

(* ===================================================================== *)
(** ** tools: validation of arguments *)
(* ===================================================================== *)

Lemma isBlank_false (text : string) :
  ~ Js.whiteSpaceOnly text -> Tools.isBlank (Some text) = false.
Proof.
  intros H. destruct (Tools.isBlank (Some text)) eqn:B; [|reflexivity].
  apply isBlank_spec in B. destruct B as [B|(t & E & B)]; [discriminate|].
  injection E as <-. contradiction.
Qed.

Lemma limit_out_of_range (limit top : Z) :
  limit < 1 \/ top < limit -> (limit <? 1) || (limit >? top) = true.
Proof.
  intros [H|H]; apply orb_true_iff; [left|right].
  - apply Z.ltb_lt. exact H.
  - rewrite Z.gtb_ltb. apply Z.ltb_lt. exact H.
Qed.

Lemma limit_in_range (limit top : Z) :
  1 <= limit <= top -> (limit <? 1) || (limit >? top) = false.
Proof.
  intros H. apply orb_false_iff. split.
  - apply Z.ltb_ge. lia.
  - rewrite Z.gtb_ltb. apply Z.ltb_ge. lia.
Qed.

(** X16. The search tool checks the query before the limit and both before
    it calls the client.  A query that is missing, empty or made of white
    space only (any of the characters [trim] strips, a no-break space too)
    is refused with "Search query cannot be empty"; otherwise a
    limit below 1 or above 50 is refused with "Limit must be between 1 and
    50"; in both cases nothing has been called and the state is untouched.
    Otherwise the client is called with the query as given, not trimmed: an
    exception of the client is thrown on unchanged, and an empty result is
    answered with the query quoted back. *)
Theorem search_validates_arguments (client : Client) (query : option string)
    (limit : Z) (w : World) :
  (query = None \/
   (exists text, query = Some text /\ Js.whiteSpaceOnly text) ->
   Tools.searchTracks client query limit w
   = (Threw (JsError Tools.emptyQueryMessage), w, [])) /\
  (forall text,
      query = Some text ->
      ~ Js.whiteSpaceOnly text ->
      (limit < 1 \/ 50 < limit ->
       Tools.searchTracks client query limit w
       = (Threw (JsError Tools.limit50Message), w, [])) /\
      (1 <= limit <= 50 ->
       (forall e w' events,
           clientSearchTracks client text limit w = (Threw e, w', events) ->
           Tools.searchTracks client query limit w = (Threw e, w', events)) /\
       (forall count w' events,
           clientSearchTracks client text limit w
           = (Returned {| tracks := []; total := count |}, w', events) ->
           Tools.searchTracks client query limit w
           = (Returned ("No tracks found for query: " +++ JsText.doubleQuote
                          +++ text +++ JsText.doubleQuote),
              w', events)))).
Proof.
  split.
  - intros H. apply isBlank_spec in H.
    unfold Tools.searchTracks. rewrite H. reflexivity.
  - intros text -> Hnb. pose proof (isBlank_false text Hnb) as B.
    unfold Tools.searchTracks. rewrite B. split.
    + intros Hl. rewrite (limit_out_of_range limit 50 Hl). reflexivity.
    + intros Hl. rewrite (limit_in_range limit 50 Hl).
      cbn [Tools.stringOf]. split.
      * intros e w' events E. erewrite bind_threw by exact E. reflexivity.
      * intros count w' events E. erewrite bind_returned by exact E.
        cbn. rewrite app_nil_r. reflexivity.
Qed.

Lemma search_validates_arguments_witness :
  Tools.searchTracks Cases.idleClient (Some (" " +++ Js.utf8 160)) 10
    Samples.seeded
  = (Threw (JsError Tools.emptyQueryMessage), Samples.seeded, []) /\
  Tools.searchTracks Cases.idleClient (Some "queen") 0 Samples.seeded
  = (Threw (JsError Tools.limit50Message), Samples.seeded, []).
Proof.
  split.
  - destruct (search_validates_arguments Cases.idleClient
                (Some (" " +++ Js.utf8 160)) 10 Samples.seeded)
      as (Hblank & _).
    apply Hblank. right. exists (" " +++ Js.utf8 160).
    split; [reflexivity|]. apply trim_empty. reflexivity.
  - destruct (search_validates_arguments Cases.idleClient
                (Some "queen"%string) 0 Samples.seeded) as (_ & Hvalid).
    destruct (Hvalid "queen"%string eq_refl) as (Hlimit & _).
    + intros H. apply trim_empty in H. discriminate.
    + apply Hlimit. lia.
Defined.

(** X17. The playlist tools check their arguments before they call the
    client.  [getUserPlaylists] refuses a limit below 1 or above 50;
    [getPlaylistTracks] refuses a playlist id that is missing, empty or made
    of white space only (any of the characters [trim] strips), and then a
    limit below 1 or above 100, so that a
    limit from 51 to 100 passes here and not there.  A refusal calls
    nothing and leaves the state untouched. *)
Theorem playlist_tools_validate_arguments (client : Client)
    (playlistId : option string) (limit : Z) (w : World) :
  (limit < 1 \/ 50 < limit ->
   Tools.getUserPlaylists client limit w
   = (Threw (JsError Tools.limit50Message), w, [])) /\
  (1 <= limit <= 50 ->
   forall e w' events,
     clientGetUserPlaylists client limit w = (Threw e, w', events) ->
     Tools.getUserPlaylists client limit w = (Threw e, w', events)) /\
  (playlistId = None \/
   (exists text, playlistId = Some text /\ Js.whiteSpaceOnly text) ->
   Tools.getPlaylistTracks client playlistId limit w
   = (Threw (JsError Tools.emptyPlaylistIdMessage), w, [])) /\
  (forall text,
      playlistId = Some text ->
      ~ Js.whiteSpaceOnly text ->
      (limit < 1 \/ 100 < limit ->
       Tools.getPlaylistTracks client playlistId limit w
       = (Threw (JsError Tools.limit100Message), w, [])) /\
      (1 <= limit <= 100 ->
       forall e w' events,
         clientGetPlaylistTracks client text limit w = (Threw e, w', events) ->
         Tools.getPlaylistTracks client playlistId limit w
         = (Threw e, w', events))).
Proof.
  split; [|split; [|split]].
  - intros Hl. unfold Tools.getUserPlaylists.
    rewrite (limit_out_of_range limit 50 Hl). reflexivity.
  - intros Hl e w' events E. unfold Tools.getUserPlaylists.
    rewrite (limit_in_range limit 50 Hl).
    erewrite bind_threw by exact E. reflexivity.
  - intros H. apply isBlank_spec in H.
    unfold Tools.getPlaylistTracks. rewrite H. reflexivity.
  - intros text -> Hnb. pose proof (isBlank_false text Hnb) as B.
    unfold Tools.getPlaylistTracks. rewrite B. split.
    + intros Hl. rewrite (limit_out_of_range limit 100 Hl). reflexivity.
    + intros Hl e w' events E. rewrite (limit_in_range limit 100 Hl).
      cbn [Tools.stringOf]. erewrite bind_threw by exact E. reflexivity.
Qed.

Lemma playlist_tools_validate_arguments_witness :
  Tools.getUserPlaylists Cases.idleClient 75 Samples.seeded
  = (Threw (JsError Tools.limit50Message), Samples.seeded, []) /\
  Tools.getPlaylistTracks Cases.idleClient (Some " ") 75 Samples.seeded
  = (Threw (JsError Tools.emptyPlaylistIdMessage), Samples.seeded, []).
Proof.
  destruct (playlist_tools_validate_arguments Cases.idleClient
              (Some " "%string) 75 Samples.seeded)
    as (Hlimit & _ & Hblank & _).
  split.
  - apply Hlimit. lia.
  - apply Hblank. right. exists " "%string. split; [reflexivity|].
    apply trim_empty. reflexivity.
Defined.

Lemma isBadTrackUri_spec (trackUri : option string) :
  Tools.isBadTrackUri trackUri = false <->
  exists rest, trackUri = Some ("spotify:track:" +++ rest).
Proof.
  unfold Tools.isBadTrackUri. destruct trackUri as [uri|].
  - rewrite orb_false_iff, !negb_false_iff, startsWith_spec. split.
    + intros (_ & rest & ->). eauto.
    + intros (rest & E). injection E as ->.
      split; [reflexivity|exists rest; reflexivity].
  - cbn. split; [discriminate|]. intros (rest & E). discriminate.
Qed.

(** X18. [playTrack] and [addToQueue] accept exactly the track URIs that
    start with "spotify:track:", the bare prefix with nothing after it
    included.  Any other value, a missing one too, is refused with the
    invalid-URI message before the client is called, the state untouched.
    An accepted URI is handed to the client as it is, and when the client
    returns the tools answer with their fixed sentences, [playTrack] naming
    the device when a non-empty device id was given. *)
Theorem track_uri_validated (client : Client) (trackUri : option string)
    (deviceId : option string) (w : World) :
  ((forall rest, trackUri <> Some ("spotify:track:" +++ rest)) ->
   Tools.playTrack client trackUri deviceId w
   = (Threw (JsError Tools.invalidUriMessage), w, []) /\
   Tools.addToQueue client trackUri deviceId w
   = (Threw (JsError Tools.invalidUriMessage), w, [])) /\
  (forall rest w' events,
      trackUri = Some ("spotify:track:" +++ rest) ->
      clientPlayTrack client ("spotify:track:" +++ rest) deviceId w
      = (Returned tt, w', events) ->
      Tools.playTrack client trackUri deviceId w
      = (Returned
           (if Js.truthyString deviceId
            then "Successfully started playing track on device "
                   +++ Tools.stringOf deviceId
            else "Successfully started playing track"),
         w', events)) /\
  (forall rest w' events,
      trackUri = Some ("spotify:track:" +++ rest) ->
      clientAddToQueue client ("spotify:track:" +++ rest) deviceId w
      = (Returned tt, w', events) ->
      Tools.addToQueue client trackUri deviceId w
      = (Returned "Successfully added track to queue", w', events)).
Proof.
  split; [|split].
  - intros Hbad.
    assert (B : Tools.isBadTrackUri trackUri = true).
    { destruct (Tools.isBadTrackUri trackUri) eqn:B; [reflexivity|].
      apply isBadTrackUri_spec in B. destruct B as (rest & E).
      exfalso. exact (Hbad rest E). }
    unfold Tools.playTrack, Tools.addToQueue. rewrite B. auto.
  - intros rest w' events -> E.
    assert (B : Tools.isBadTrackUri (Some ("spotify:track:" +++ rest))
                = false) by (apply isBadTrackUri_spec; eauto).
    unfold Tools.playTrack. rewrite B. cbn [Tools.stringOf].
    erewrite bind_returned by exact E.
    cbn. rewrite app_nil_r. reflexivity.
  - intros rest w' events -> E.
    assert (B : Tools.isBadTrackUri (Some ("spotify:track:" +++ rest))
                = false) by (apply isBadTrackUri_spec; eauto).
    unfold Tools.addToQueue. rewrite B. cbn [Tools.stringOf].
    erewrite bind_returned by exact E.
    cbn. rewrite app_nil_r. reflexivity.
Qed.

Lemma track_uri_validated_witness :
  Tools.playTrack Cases.idleClient (Some "spotify:album:1") None
    Samples.seeded
  = (Threw (JsError Tools.invalidUriMessage), Samples.seeded, []) /\
  Tools.playTrack Cases.idleClient (Some "spotify:track:") (Some "phone")
    Samples.seeded
  = (Returned "Successfully started playing track on device phone",
     Samples.seeded, []).
Proof.
  split.
  - destruct (track_uri_validated Cases.idleClient
                (Some "spotify:album:1"%string) None Samples.seeded)
      as (Hbad & _).
    destruct Hbad as [H _]; [|exact H].
    intros rest E. discriminate.
  - destruct (track_uri_validated Cases.idleClient
                (Some "spotify:track:"%string) (Some "phone"%string)
                Samples.seeded) as (_ & Hplay & _).
    apply (Hplay EmptyString Samples.seeded []); reflexivity.
Defined.

Lemma isValidAction_spec (action : option string) :
  Tools.isValidAction action = true <->
  exists a, action = Some a /\ In a Tools.validActions.
Proof.
  unfold Tools.isValidAction. destruct action as [a|].
  - rewrite existsb_exists. split.
    + intros (x & Hin & E). apply String.eqb_eq in E. subst x. eauto.
    + intros (x & E & Hin). injection E as <-.
      exists a. split; [exact Hin|apply String.eqb_refl].
  - split; [discriminate|]. intros (a & E & _). discriminate.
Qed.

(** X19. [playbackControl] accepts exactly the actions "play", "pause",
    "next" and "previous".  Any other value, a missing one too, is refused
    before the client is called with a message that lists the four, the
    state untouched.  For an accepted action the table of answers has an
    entry, so the tool never answers [undefined]: when the client returns,
    the answer is that entry. *)
Theorem playback_action_validated (client : Client) (action : option string)
    (deviceId : option string) (w : World) :
  ((forall a, action = Some a -> ~ In a Tools.validActions) ->
   Tools.playbackControl client action deviceId w
   = (Threw (JsError
               "Invalid action. Must be one of: play, pause, next, previous"),
      w, [])) /\
  (forall a,
      action = Some a -> In a Tools.validActions ->
      exists answer,
        Tools.lookup Tools.actionMessages a = Some answer /\
        forall w' events,
          clientControlPlayback client a deviceId w
          = (Returned tt, w', events) ->
          Tools.playbackControl client action deviceId w
          = (Returned (Some answer), w', events)).
Proof.
  split.
  - intros Hbad.
    assert (V : Tools.isValidAction action = false).
    { destruct (Tools.isValidAction action) eqn:V; [|reflexivity].
      apply isValidAction_spec in V. destruct V as (a & E & Hin).
      exfalso. exact (Hbad a E Hin). }
    unfold Tools.playbackControl. rewrite V. reflexivity.
  - intros a -> Hin.
    assert (V : Tools.isValidAction (Some a) = true)
      by (apply isValidAction_spec; eauto).
    assert (L : exists answer, Tools.lookup Tools.actionMessages a
                               = Some answer).
    { cbn in Hin. destruct Hin as [<-|[<-|[<-|[<-|[]]]]]; eexists;
        reflexivity. }
    destruct L as (answer & L). exists answer. split; [exact L|].
    intros w' events E. unfold Tools.playbackControl. rewrite V.
    cbn [negb Tools.stringOf]. erewrite bind_returned by exact E.
    rewrite L. cbn. rewrite app_nil_r. reflexivity.
Qed.

Lemma playback_action_validated_witness :
  Tools.playbackControl Cases.idleClient (Some "stop") None Samples.seeded
  = (Threw (JsError
              "Invalid action. Must be one of: play, pause, next, previous"),
     Samples.seeded, []) /\
  Tools.playbackControl Cases.idleClient (Some "next") None Samples.seeded
  = (Returned (Some "Skipped to next track"), Samples.seeded, []).
Proof.
  split.
  - destruct (playback_action_validated Cases.idleClient
                (Some "stop"%string) None Samples.seeded) as (Hbad & _).
    apply Hbad. intros a E Hin. injection E as <-.
    cbn in Hin. destruct Hin as [H|[H|[H|[H|[]]]]]; discriminate.
  - destruct (playback_action_validated Cases.idleClient
                (Some "next"%string) None Samples.seeded) as (_ & Hok).
    destruct (Hok "next"%string eq_refl) as (answer & L & Hrun).
    + cbn. auto.
    + injection L as <-. apply (Hrun Samples.seeded []). reflexivity.
Defined.

(** X20. [SpotifyApiClient.controlPlayback] looks at the action only inside
    the wrapped operation, after the freshness check.  For an action other
    than "play", "pause", "next" and "previous" the operation throws an
    [Error] without status code, which the retry loop treats as fatal: one
    invocation, no sleep, and a [SpotifyApiError] with the message
    "Failed to <action> playback: Invalid playback action: <action>", no
    status, and no call to the Web API. *)
Theorem unknown_action_fails_once (remote : Remote)
    (retryConfig : Api.RetryConfig) (api : ApiClient.WebApi)
    (action : string) (deviceId : option string)
    (w w1 : World) (tok : string) (l0 : list Event) :
  0 <= Api.maxRetries retryConfig ->
  Auth.ensureValidToken remote w = (Returned tok, w1, l0) ->
  ~ In action Tools.validActions ->
  ApiClient.controlPlayback remote retryConfig api action deviceId w
  = (Threw (SpotifyApiError
              ("Failed to " +++ (action +++ " playback")
                 +++ ": Invalid playback action: " +++ action)
              None (Some (ApiClient.invalidActionError action))),
     w1, l0 ++ [EvOperation]) /\
  sleepsOf (l0 ++ [EvOperation]) = [].
Proof.
  intros Hmax Hcheck Hnot.
  destruct (check_events remote w w1 _ l0 Hcheck) as (rest & _ & _ & _ & S0).
  assert (Hneq : forall name, In name Tools.validActions ->
                              String.eqb action name = false).
  { intros name Hin. apply String.eqb_neq. intros ->. contradiction. }
  unfold ApiClient.controlPlayback. cbv zeta.
  erewrite bind_threw; [split; [reflexivity|]|].
  - rewrite sleepsOf_app, S0. reflexivity.
  - rewrite (run_after_check remote retryConfig unit _ _ w w1 tok l0 Hcheck).
    replace (Z.to_nat (Api.maxRetries retryConfig + 1))
      with (S (Z.to_nat (Api.maxRetries retryConfig))) by lia.
    rewrite (loop_terminal remote retryConfig unit _ _ _ 0 _ None 0%nat w1
               (ApiClient.invalidActionError action)).
    + reflexivity.
    + cbv beta.
      rewrite (Hneq "play"%string), (Hneq "pause"%string),
        (Hneq "next"%string), (Hneq "previous"%string)
        by (cbn; auto 6).
      reflexivity.
    + discriminate.
    + intros [H|H]; discriminate.
Qed.

Lemma unknown_action_fails_once_witness :
  outcomeOf
    (ApiClient.controlPlayback Samples.goodRemote Api.DEFAULT_RETRY_CONFIG
       Cases.quietApi "stop" None Samples.seeded)
  = Threw (SpotifyApiError
             "Failed to stop playback: Invalid playback action: stop"
             None (Some (ApiClient.invalidActionError "stop"))).
Proof.
  destruct (unknown_action_fails_once Samples.goodRemote
              Api.DEFAULT_RETRY_CONFIG Cases.quietApi "stop" None
              Samples.seeded
              (worldOf (Auth.ensureValidToken Samples.goodRemote
                          Samples.seeded))
              "fresh"
              [EvEnsureValidToken; EvRefreshAccessToken; EvRefreshRequest])
    as (E & _).
  - simpl. lia.
  - reflexivity.
  - cbn. intros [H|[H|[H|[H|[]]]]]; discriminate.
  - rewrite E. reflexivity.
Defined.

(* ===================================================================== *)
(** ** spotify_api.ts: what the client makes of the responses *)
(* ===================================================================== *)

Lemma bind_returned_inv {A B} (m : M A) (k : A -> M B) (w w' : World)
    (b : B) (l : list Event) :
  bind m k w = (Returned b, w', l) ->
  exists a w1 l1 l2,
    m w = (Returned a, w1, l1) /\ k a w1 = (Returned b, w', l2) /\
    l = l1 ++ l2.
Proof.
  unfold bind. destruct (m w) as [[[a|e] w1] l1]; [|discriminate].
  destruct (k a w1) as [[r w2] l2] eqn:K. intros H.
  injection H as -> -> <-. exists a, w1, l1, l2. auto.
Qed.

Lemma numberOrUndefined_not_zero (v : option Z) :
  ApiClient.numberOrUndefined v <> Some 0.
Proof.
  unfold ApiClient.numberOrUndefined.
  destruct v as [n|]; cbn; [|discriminate].
  destruct (n =? 0) eqn:E; cbn; [discriminate|].
  apply Z.eqb_neq in E. congruence.
Qed.

(** X21. The client writes [volume_percent] and [progress_ms] with
    [|| undefined], so it never reports a zero: no device returned by
    [getAvailableDevices] has volume 0, and a playback state returned by
    [getCurrentPlayback] has a track, a progress other than 0 and a device
    whose volume is not 0.  A muted device and a track at its very start are
    reported as having no volume and no progress. *)
Theorem zero_never_reported (remote : Remote) (retryConfig : Api.RetryConfig)
    (api : ApiClient.WebApi) (w : World) :
  (forall devices w' l,
      ApiClient.getAvailableDevices remote retryConfig api w
      = (Returned devices, w', l) ->
      forall d, In d devices -> device_volume_percent d <> Some 0) /\
  (forall state w' l,
      ApiClient.getCurrentPlayback remote retryConfig api w
      = (Returned (Some state), w', l) ->
      progress_ms state <> Some 0 /\
      playback_track state <> None /\
      forall d, playback_device state = Some d ->
                device_volume_percent d <> Some 0).
Proof.
  split.
  - intros devices w' l E d Hin.
    unfold ApiClient.getAvailableDevices in E.
    apply bind_returned_inv in E.
    destruct E as (result & w1 & l1 & l2 & _ & K & _).
    injection K as <- _ _.
    apply in_map_iff in Hin. destruct Hin as (device & <- & _).
    apply numberOrUndefined_not_zero.
  - intros state w' l E.
    unfold ApiClient.getCurrentPlayback in E.
    apply bind_returned_inv in E.
    destruct E as (result & w1 & l1 & l2 & _ & K & _).
    destruct result as [body|]; [|discriminate].
    destruct (ApiClient.body_item body) as [item|]; [|discriminate].
    injection K as <- _ _. cbn. split; [|split].
    + apply numberOrUndefined_not_zero.
    + discriminate.
    + intros d Hd. destruct (ApiClient.body_device body) as [device|];
        [|discriminate].
      injection Hd as <-. apply numberOrUndefined_not_zero.
Qed.

Lemma zero_never_reported_witness :
  exists devices,
    outcomeOf (ApiClient.getAvailableDevices Samples.goodRemote
                 Api.DEFAULT_RETRY_CONFIG Cases.mutedApi Samples.seeded)
    = Returned devices /\
    List.length devices = 1%nat /\
    forall d, In d devices -> device_volume_percent d <> Some 0.
Proof.
  destruct (zero_never_reported Samples.goodRemote Api.DEFAULT_RETRY_CONFIG
              Cases.mutedApi Samples.seeded) as (Hdevices & _).
  eexists. split; [reflexivity|]. split; [reflexivity|].
  eapply Hdevices. reflexivity.
Defined.

Lemma playlistTracks_all_null (items : list ApiClient.PlaylistItem) :
  (forall item, In item items -> ApiClient.item_track item = None) ->
  ApiClient.playlistTracks items = [].
Proof.
  induction items as [|item rest IH]; intros H; [reflexivity|].
  cbn [ApiClient.playlistTracks]. rewrite (H item (in_eq _ _)).
  apply IH. intros i Hi. apply H. right. exact Hi.
Qed.

(** X22. [SpotifyApiClient.getPlaylistTracks] drops the items whose track
    is [null], so for a playlist all of whose returned items are of that
    kind the tool [getPlaylistTracks], given an id that is not made of
    white space only and a limit from 1 to 100, answers
    "No tracks found in playlist <id>", in the state and with the calls of
    the underlying run. *)
Theorem unavailable_tracks_leave_empty_listing (remote : Remote)
    (retryConfig : Api.RetryConfig) (api : ApiClient.WebApi)
    (undefinedPropertyError : string -> string)
    (playlistId : string) (limit : Z) (w w' : World)
    (items : list ApiClient.PlaylistItem) (l : list Event) :
  ~ Js.whiteSpaceOnly playlistId ->
  1 <= limit <= 100 ->
  Api.executeWithRetry remote retryConfig (list ApiClient.PlaylistItem)
    (ApiClient.apiGetPlaylistTracks api playlistId limit)
    "get playlist tracks" w
  = (Returned items, w', l) ->
  (forall item, In item items -> ApiClient.item_track item = None) ->
  Tools.getPlaylistTracks
    (ApiClient.spotifyClient remote retryConfig api undefinedPropertyError)
    (Some playlistId) limit w
  = (Returned ("No tracks found in playlist " +++ playlistId), w', l).
Proof.
  intros Hid Hlimit Hrun Hnull.
  unfold Tools.getPlaylistTracks. rewrite (isBlank_false playlistId Hid).
  rewrite (limit_in_range limit 100) by lia.
  cbn [Tools.stringOf clientGetPlaylistTracks ApiClient.spotifyClient].
  erewrite bind_returned.
  2:{ unfold ApiClient.getPlaylistTracks.
      erewrite bind_returned by exact Hrun.
      rewrite (playlistTracks_all_null items Hnull). cbn.
      rewrite app_nil_r. reflexivity. }
  cbn. rewrite app_nil_r. reflexivity.
Qed.

Lemma unavailable_tracks_leave_empty_listing_witness :
  outcomeOf
    (Tools.getPlaylistTracks
       (ApiClient.spotifyClient Samples.goodRemote Api.DEFAULT_RETRY_CONFIG
          Cases.mutedApi (fun _ => EmptyString))
       (Some "p1") 50 Samples.seeded)
  = Returned "No tracks found in playlist p1".
Proof.
  erewrite (unavailable_tracks_leave_empty_listing Samples.goodRemote
              Api.DEFAULT_RETRY_CONFIG Cases.mutedApi (fun _ => EmptyString)
              "p1" 50 Samples.seeded).
  - reflexivity.
  - intros H. apply trim_empty in H. discriminate.
  - lia.
  - reflexivity.
  - cbn. intros item [<-|[<-|[]]]; reflexivity.
Defined.

(* ===================================================================== *)
(** ** index.ts: the handler of tools/call *)
(* ===================================================================== *)

Lemma errorResponse_shape (errorMessage : string) :
  Server.isError (Server.errorResponse errorMessage) = true /\
  Server.text (Server.errorResponse errorMessage) <> None.
Proof.
  unfold Server.errorResponse.
  destruct (_ || _); [split; [reflexivity|discriminate]|].
  destruct (_ || _); split; first [reflexivity|discriminate].
Qed.

Lemma callTool_result (client : Client) (mcpErrorMessage : string -> string)
    (name : string) (args : Server.ToolArguments) (w : World) :
  Server.callTool client mcpErrorMessage name args w
  = match Server.runTool client mcpErrorMessage name args w with
    | (Returned result, w1, l1) =>
        (Returned {| Server.text := result; Server.isError := false |},
         w1, l1)
    | (Threw e, w1, l1) =>
        (Returned (Server.errorResponse (errorText e)), w1, l1)
    end.
Proof.
  unfold Server.callTool, tryCatch, bind.
  destruct (Server.runTool client mcpErrorMessage name args w)
    as [[[result|e] w1] l1]; cbn; rewrite app_nil_r; reflexivity.
Qed.

Lemma callTool_threw (client : Client) (mcpErrorMessage : string -> string)
    (name : string) (args : Server.ToolArguments) (w w1 : World) (e : Exn)
    (l1 : list Event) :
  Server.runTool client mcpErrorMessage name args w = (Threw e, w1, l1) ->
  Server.callTool client mcpErrorMessage name args w
  = (Returned (Server.errorResponse (errorText e)), w1, l1).
Proof. intros E. rewrite callTool_result, E. reflexivity. Qed.

(** X23. The handler of [tools/call] never throws, whatever the tool name,
    the arguments and the client do: it always returns a response, in the
    state and after the calls of the tool it ran.  The response is flagged
    [isError] exactly when the tool threw, and then it carries a text; when
    the tool returned, the text is what it returned. *)
Theorem callTool_never_throws (client : Client)
    (mcpErrorMessage : string -> string) (name : string)
    (args : Server.ToolArguments) (w : World) :
  let run := Server.runTool client mcpErrorMessage name args w in
  let answer := Server.callTool client mcpErrorMessage name args w in
  exists response,
    outcomeOf answer = Returned response /\
    worldOf answer = worldOf run /\
    eventsOf answer = eventsOf run /\
    (Server.isError response = true <-> exists e, outcomeOf run = Threw e) /\
    (forall result,
        outcomeOf run = Returned result -> Server.text response = result) /\
    (forall e, outcomeOf run = Threw e -> Server.text response <> None).
Proof.
  cbv zeta. rewrite callTool_result.
  destruct (Server.runTool client mcpErrorMessage name args w)
    as [[[result|e] w1] l1]; cbn.
  - eexists. split; [reflexivity|]. repeat split; try discriminate.
    + intros (e & H). discriminate.
    + intros r H. injection H as <-. reflexivity.
  - destruct (errorResponse_shape (errorText e)) as (Hflag & Htext).
    eexists. split; [reflexivity|]. repeat split; try discriminate.
    + eauto.
    + intros _. exact Hflag.
    + intros _ _. exact Htext.
Qed.

Lemma callTool_never_throws_witness :
  exists response,
    outcomeOf (Server.callTool Cases.idleClient Cases.mcpErrorMessage
                 "get_current_playback" Cases.noArguments Samples.seeded)
    = Returned response /\
    Server.text response = Some Tools.noPlaybackMessage.
Proof.
  destruct (callTool_never_throws Cases.idleClient Cases.mcpErrorMessage
              "get_current_playback" Cases.noArguments Samples.seeded)
    as (response & E & _ & _ & _ & Htext & _).
  exists response. split; [exact E|]. apply Htext. reflexivity.
Defined.

(** X24. The eight tool names the server advertises in [tools/list] are
    exactly the names its [tools/call] handler runs.  For an advertised name
    the [switch] does not reach its [default] branch: the run is the same
    however a [MethodNotFound] error would be rendered.  Any other name is
    refused with the error "Unknown tool: <name>" without the client being
    called, the state untouched. *)
Theorem advertised_tools_are_handled (client : Client)
    (mcpErrorMessage mcpErrorMessage' : string -> string) (name : string)
    (args : Server.ToolArguments) (w : World) :
  (In name Server.advertisedTools ->
   Server.runTool client mcpErrorMessage name args
   = Server.runTool client mcpErrorMessage' name args) /\
  (~ In name Server.advertisedTools ->
   Server.runTool client mcpErrorMessage name args w
   = (Threw (JsError (mcpErrorMessage ("Unknown tool: " +++ name))), w, [])).
Proof.
  split.
  - intros Hin. cbn in Hin.
    repeat (destruct Hin as [<-|Hin]; [reflexivity|]). contradiction.
  - intros Hnot.
    assert (N : forall tool, In tool Server.advertisedTools ->
                             String.eqb name tool = false).
    { intros tool Hin. apply String.eqb_neq. intros ->. contradiction. }
    unfold Server.runTool.
    rewrite !N by (cbn; auto 10). reflexivity.
Qed.

Lemma advertised_tools_are_handled_witness :
  Server.runTool Cases.idleClient Cases.mcpErrorMessage "delete_playlist"
    Cases.noArguments Samples.seeded
  = (Threw (JsError "MCP error -32601: Unknown tool: delete_playlist"),
     Samples.seeded, []).
Proof.
  destruct (advertised_tools_are_handled Cases.idleClient
              Cases.mcpErrorMessage Cases.mcpErrorMessage "delete_playlist"
              Cases.noArguments Samples.seeded) as (_ & Hother).
  apply Hother. cbn.
  intros H. repeat (destruct H as [H|H]; [discriminate|]). exact H.
Defined.

(** X25. What the caller of a tool is shown for a failure of the Web API
    depends on the status code alone when the code is 401, 403, 404, 429,
    500, 502 or 503: the authentication hint for 401 and "Error: " followed
    by the fixed sentence of [handleError] for the others.  The message the
    remote sent is not shown; in particular a 404 whose message speaks of
    "No active device" is answered "Resource not found", not with the
    device hint. *)
Theorem status_errors_shown (error : OpError) (operationName : string) :
  let shown :=
    Server.errorResponse
      (errorText (Api.handleError (Some error) operationName)) in
  let answer sentence :=
    {| Server.text := Some sentence; Server.isError := true |} in
  (Api.errStatus error = Some 401 ->
   shown = answer Server.authenticationHint) /\
  (Api.errStatus error = Some 403 ->
   shown = answer ("Error: " +++ Api.forbiddenMessage)) /\
  (Api.errStatus error = Some 404 ->
   shown = answer ("Error: " +++ Api.notFoundMessage)) /\
  (Api.errStatus error = Some 429 ->
   shown = answer ("Error: " +++ Api.rateLimitMessage)) /\
  (Api.errStatus error = Some 500 \/ Api.errStatus error = Some 502
   \/ Api.errStatus error = Some 503 ->
   shown = answer ("Error: " +++ Api.unavailableMessage)).
Proof.
  cbv zeta. unfold Api.handleError.
  repeat split; intros H.
  - rewrite H. reflexivity.
  - rewrite H. reflexivity.
  - rewrite H. reflexivity.
  - rewrite H. reflexivity.
  - destruct H as [H|[H|H]]; rewrite H; reflexivity.
Qed.

Lemma status_errors_shown_witness :
  Server.errorResponse
    (errorText
       (Api.handleError
          (Some {| statusCode := Some 404; bodyStatus := None;
                   retryAfter := None;
                   bodyMessage :=
                     Some "Player command failed: No active device found";
                   message := None |})
          "play track"))
  = {| Server.text :=
         Some "Error: Resource not found. Please check the provided ID or URI.";
       Server.isError := true |}.
Proof.
  destruct (status_errors_shown
              {| statusCode := Some 404; bodyStatus := None;
                 retryAfter := None;
                 bodyMessage :=
                   Some "Player command failed: No active device found";
                 message := None |}
              "play track") as (_ & _ & H404 & _).
  apply H404. reflexivity.
Defined.

Lemma strictEq_false (v : option Z) (n : Z) :
  v <> Some n -> Js.strictEq v n = false.
Proof.
  intros H. destruct (Js.strictEq v n) eqn:E; [|reflexivity].
  apply strictEq_true in E. contradiction.
Qed.

(** X26. A failure of the Web API whose status code is none of 401, 403,
    404, 429, 500, 502 and 503 and whose message contains the word "token"
    anywhere is never shown to the caller as it is: the handler answers one
    of its two fixed hints, the authentication hint unless the text also
    mentions a missing device. *)
Theorem token_word_reads_as_authentication (error : OpError)
    (operationName before after : string) :
  (forall s, In s [401; 403; 404; 429; 500; 502; 503] ->
             Api.errStatus error <> Some s) ->
  Js.orString (bodyMessage error) (message error)
  = Some (before +++ "token" +++ after) ->
  let shown :=
    Server.errorResponse
      (errorText (Api.handleError (Some error) operationName)) in
  let friendly :=
    "Failed to " +++ operationName +++ ": " +++ before +++ "token"
      +++ after in
  Server.isError shown = true /\
  Server.text shown
  = Some (if JsText.includes friendly "No active device"
             || JsText.includes friendly "No devices found"
          then Server.noDeviceHint else Server.authenticationHint).
Proof.
  intros Hstatus Hmessage. cbv zeta.
  unfold Api.handleError.
  rewrite !strictEq_false by (apply Hstatus; cbn; auto 10).
  rewrite Hmessage. cbn [orb].
  assert (T : Js.truthyString (Some (before +++ "token" +++ after)) = true)
    by (destruct before; reflexivity).
  assert (O : Js.orString (Some (before +++ "token" +++ after))
                (Some "Unknown error")
              = Some (before +++ "token" +++ after))
    by (unfold Js.orString; rewrite T; reflexivity).
  cbv zeta. rewrite O. cbn [errorText].
  set (friendly := "Failed to " +++ operationName +++ ": " +++ before
                     +++ "token" +++ after).
  assert (I : JsText.includes friendly "token" = true).
  { subst friendly.
    replace ("Failed to " +++ operationName +++ ": " +++ before
               +++ "token" +++ after)
      with (("Failed to " +++ operationName +++ ": " +++ before)
              +++ ("token" +++ after)).
    - apply includes_inside.
    - change ("Failed to " +++ operationName +++ ": " +++ before)
        with ("Failed to " +++ (operationName +++ (": " +++ before))).
      rewrite !append_assoc. reflexivity. }
  unfold Server.errorResponse. rewrite I, orb_true_r.
  destruct (_ || _); split; reflexivity.
Qed.

Lemma token_word_reads_as_authentication_witness :
  Server.errorResponse
    (errorText
       (Api.handleError
          (Some {| statusCode := None; bodyStatus := None;
                   retryAfter := None; bodyMessage := None;
                   message :=
                     Some "Unexpected token < in JSON at position 0" |})
          "search tracks"))
  = {| Server.text := Some Server.authenticationHint;
       Server.isError := true |}.
Proof.
  destruct (token_word_reads_as_authentication
              {| statusCode := None; bodyStatus := None;
                 retryAfter := None; bodyMessage := None;
                 message :=
                   Some "Unexpected token < in JSON at position 0" |}
              "search tracks" "Unexpected " " < in JSON at position 0")
    as (Hflag & Htext).
  - intros s _. discriminate.
  - reflexivity.
  - destruct (Server.errorResponse _) as [shown flag].
    cbn in Hflag, Htext. rewrite Hflag, Htext. reflexivity.
Defined.

(* ===================================================================== *)
(** ** index.ts: a server started without a refresh token *)
(* ===================================================================== *)

Lemma run_without_metadata (remote : Remote) (retryConfig : Api.RetryConfig)
    (T : Type) (operation : nat -> Api.OpOutcome T) (operationName : string)
    (w : World) :
  tokenMetadata w = None ->
  Api.executeWithRetry remote retryConfig T operation operationName w
  = (Threw (JsError Auth.noRefreshTokenMessage), w,
     [EvEnsureValidToken; EvRefreshAccessToken]).
Proof.
  intros H. apply run_check_threw.
  apply ensureValidToken_no_metadata. exact H.
Qed.

Lemma runTool_without_metadata (remote : Remote)
    (retryConfig : Api.RetryConfig) (api : ApiClient.WebApi)
    (undefinedPropertyError mcpErrorMessage : string -> string)
    (name : string) (args : Server.ToolArguments) (w : World) :
  tokenMetadata w = None ->
  exists e l,
    Server.runTool
      (ApiClient.spotifyClient remote retryConfig api undefinedPropertyError)
      mcpErrorMessage name args w
    = (Threw e, w, l) /\
    (l = [] \/
     e = JsError Auth.noRefreshTokenMessage /\
     l = [EvEnsureValidToken; EvRefreshAccessToken]).
Proof.
  intros H.
  assert (R := fun T operation operationName =>
                 run_without_metadata remote retryConfig T operation
                   operationName w H).
  unfold Server.runTool.
  repeat match goal with
         | |- context [String.eqb name ?tool] =>
             destruct (String.eqb name tool)
         end;
    unfold Tools.searchTracks, Tools.playTrack, Tools.playbackControl,
      Tools.getCurrentPlayback, Tools.getUserPlaylists,
      Tools.getPlaylistTracks, Tools.addToQueue, Tools.getAvailableDevices;
    repeat match goal with
           | |- context [if ?c then throw _ else _] => destruct c
           end;
    try (do 2 eexists; split; [reflexivity|left; reflexivity]);
    do 2 eexists;
    (split;
     [first [solve [do 3 apply bind_threw; apply R]
            |solve [do 2 apply bind_threw; apply R]]
     |right; split; reflexivity]).
Qed.

(** X27. A server whose environment passes [validateEnvironment] but names
    no refresh token (unset or empty) answers every [tools/call] request
    with an error response, without sending anything to Spotify: the state
    of the token manager stays as constructed, no request goes to the token
    endpoint and no Web API operation is invoked.  For the two tools without
    arguments the response is the authentication hint. *)
Theorem server_without_refresh_token (remote : Remote)
    (api : ApiClient.WebApi)
    (undefinedPropertyError mcpErrorMessage : string -> string)
    (env : Server.Environment) (config : Auth.SpotifyConfig)
    (name : string) (args : Server.ToolArguments) :
  Server.validateEnvironment env = Returned config ->
  Js.truthyString (Server.SPOTIFY_REFRESH_TOKEN env) = false ->
  let client :=
    ApiClient.spotifyClient remote Api.DEFAULT_RETRY_CONFIG api
      undefinedPropertyError in
  let w := Auth.newSpotifyAuth config in
  let answer := Server.callTool client mcpErrorMessage name args w in
  (exists response,
      outcomeOf answer = Returned response /\
      Server.isError response = true) /\
  worldOf answer = w /\
  countEvents isNetwork (eventsOf answer) = 0%nat /\
  countEvents isOperation (eventsOf answer) = 0%nat /\
  (name = "get_current_playback"%string
   \/ name = "get_available_devices"%string ->
   outcomeOf answer
   = Returned {| Server.text := Some Server.authenticationHint;
                 Server.isError := true |}).
Proof.
  intros Henv Htoken. cbv zeta.
  assert (Hw : tokenMetadata (Auth.newSpotifyAuth config) = None).
  { unfold Server.validateEnvironment in Henv.
    destruct (_ || _) in Henv; [discriminate|].
    injection Henv as <-. unfold Auth.newSpotifyAuth.
    cbn [Auth.configRefreshToken]. rewrite Htoken. reflexivity. }
  set (w := Auth.newSpotifyAuth config) in *.
  destruct (runTool_without_metadata remote Api.DEFAULT_RETRY_CONFIG api
              undefinedPropertyError mcpErrorMessage name args w Hw)
    as (e & l & Hrun & Hl).
  rewrite (callTool_threw _ _ _ _ _ _ _ _ Hrun).
  cbn [outcomeOf worldOf eventsOf fst snd].
  split; [|split; [|split; [|split]]].
  - eexists. split; [reflexivity|]. apply errorResponse_shape.
  - reflexivity.
  - destruct Hl as [->|(_ & ->)]; reflexivity.
  - destruct Hl as [->|(_ & ->)]; reflexivity.
  - intros Hname.
    assert (E : e = JsError Auth.noRefreshTokenMessage).
    { assert (Hthrow : Server.runTool
                (ApiClient.spotifyClient remote Api.DEFAULT_RETRY_CONFIG api
                   undefinedPropertyError)
                mcpErrorMessage name args w
              = (Threw (JsError Auth.noRefreshTokenMessage), w,
                 [EvEnsureValidToken; EvRefreshAccessToken])).
      { destruct Hname as [->| ->]; cbn [Server.runTool String.eqb Ascii.eqb
                                           Bool.eqb];
          do 3 apply bind_threw;
          apply run_without_metadata; exact Hw. }
      rewrite Hthrow in Hrun. injection Hrun as <- _. reflexivity. }
    rewrite E. reflexivity.
Qed.

Lemma server_without_refresh_token_witness :
  outcomeOf
    (Server.callTool
       (ApiClient.spotifyClient Samples.goodRemote Api.DEFAULT_RETRY_CONFIG
          Cases.quietApi (fun _ => EmptyString))
       Cases.mcpErrorMessage "get_available_devices" Cases.noArguments
       Samples.unseeded)
  = Returned {| Server.text := Some Server.authenticationHint;
                Server.isError := true |}.
Proof.
  destruct (server_without_refresh_token Samples.goodRemote Cases.quietApi
              (fun _ => EmptyString) Cases.mcpErrorMessage
              Cases.bareEnvironment
              {| Auth.clientId := "id"; Auth.clientSecret := "secret";
                 Auth.redirectUri := "http://localhost:3000/callback";
                 Auth.configRefreshToken := None |}
              "get_available_devices" Cases.noArguments)
    as (_ & Hworld & _ & _ & Hanswer).
  - reflexivity.
  - reflexivity.
  - exact (Hanswer (or_intror eq_refl)).
Defined.

(* ===================================================================== *)
(** ** index.ts: arguments refused by the tools *)
(* ===================================================================== *)

Lemma refused_shown (client : Client) (mcpErrorMessage : string -> string)
    (name : string) (args : Server.ToolArguments) (w : World)
    (message : string) :
  Server.runTool client mcpErrorMessage name args w
  = (Threw (JsError message), w, []) ->
  Server.errorResponse message
  = {| Server.text := Some ("Error: " +++ message);
       Server.isError := true |} ->
  Server.callTool client mcpErrorMessage name args w
  = (Returned {| Server.text := Some ("Error: " +++ message);
                 Server.isError := true |}, w, []).
Proof.
  intros Hrun Hshown. rewrite (callTool_threw _ _ _ _ _ _ _ _ Hrun).
  cbn [errorText]. rewrite Hshown. reflexivity.
Qed.

(** X28. Arguments a tool refuses are reported to the caller of
    [tools/call] as "Error: " followed by the tool's own sentence, flagged
    [isError], with the client not called and the state untouched: a
    missing query or playlist id or one that [trim] leaves empty, a track
    URI that does not start with
    "spotify:track:", an action outside the four, and an explicit limit
    out of range.  The default limit only replaces a missing limit, so an
    explicit 0 is refused like any other value below 1. *)
Theorem refused_arguments_shown (client : Client)
    (mcpErrorMessage : string -> string) (args : Server.ToolArguments)
    (w : World) :
  let refused name message :=
    Server.callTool client mcpErrorMessage name args w
    = (Returned {| Server.text := Some ("Error: " +++ message);
                   Server.isError := true |}, w, []) in
  (Tools.isBlank (Server.arg_query args) = true ->
   refused "search_tracks"%string Tools.emptyQueryMessage) /\
  (Tools.isBadTrackUri (Server.arg_track_uri args) = true ->
   refused "play_track"%string Tools.invalidUriMessage /\
   refused "add_to_queue"%string Tools.invalidUriMessage) /\
  (Tools.isValidAction (Server.arg_action args) = false ->
   refused "playback_control"%string
     "Invalid action. Must be one of: play, pause, next, previous"%string) /\
  (Tools.isBlank (Server.arg_playlist_id args) = true ->
   refused "get_playlist_tracks"%string Tools.emptyPlaylistIdMessage) /\
  (forall limit,
      Server.arg_limit args = Some limit -> limit < 1 \/ 50 < limit ->
      refused "get_user_playlists"%string Tools.limit50Message /\
      (Tools.isBlank (Server.arg_query args) = false ->
       refused "search_tracks"%string Tools.limit50Message)) /\
  (forall limit,
      Server.arg_limit args = Some limit -> limit < 1 \/ 100 < limit ->
      Tools.isBlank (Server.arg_playlist_id args) = false ->
      refused "get_playlist_tracks"%string Tools.limit100Message).
Proof.
  cbv zeta.
  split; [|split; [|split; [|split; [|split]]]].
  - intros H. apply refused_shown; [|reflexivity].
    cbn [Server.runTool String.eqb Ascii.eqb Bool.eqb].
    apply bind_threw. unfold Tools.searchTracks. rewrite H. reflexivity.
  - intros H. split; (apply refused_shown; [|reflexivity]);
      cbn [Server.runTool String.eqb Ascii.eqb Bool.eqb];
      apply bind_threw;
      unfold Tools.playTrack, Tools.addToQueue; rewrite H; reflexivity.
  - intros H. apply refused_shown; [|reflexivity].
    cbn [Server.runTool String.eqb Ascii.eqb Bool.eqb].
    unfold Tools.playbackControl. rewrite H. reflexivity.
  - intros H. apply refused_shown; [|reflexivity].
    cbn [Server.runTool String.eqb Ascii.eqb Bool.eqb].
    apply bind_threw. unfold Tools.getPlaylistTracks. rewrite H.
    reflexivity.
  - intros limit Hlimit Hrange. split; [|intros Hquery];
      (apply refused_shown; [|reflexivity]);
      cbn [Server.runTool String.eqb Ascii.eqb Bool.eqb];
      apply bind_threw; rewrite Hlimit; cbn [Server.limitOr];
      unfold Tools.getUserPlaylists, Tools.searchTracks;
      rewrite ?Hquery, (limit_out_of_range limit 50 Hrange); reflexivity.
  - intros limit Hlimit Hrange Hid.
    apply refused_shown; [|reflexivity].
    cbn [Server.runTool String.eqb Ascii.eqb Bool.eqb].
    apply bind_threw. rewrite Hlimit. cbn [Server.limitOr].
    unfold Tools.getPlaylistTracks.
    rewrite Hid, (limit_out_of_range limit 100 Hrange). reflexivity.
Qed.

Lemma refused_arguments_shown_witness :
  let args :=
    {| Server.arg_query := Some (Js.utf8 160); Server.arg_limit := Some 0;
       Server.arg_track_uri := None; Server.arg_device_id := None;
       Server.arg_action := None; Server.arg_playlist_id := None |} in
  Server.callTool Cases.idleClient Cases.mcpErrorMessage "get_user_playlists"
    args Samples.seeded
  = (Returned {| Server.text := Some "Error: Limit must be between 1 and 50";
                 Server.isError := true |}, Samples.seeded, []) /\
  Server.callTool Cases.idleClient Cases.mcpErrorMessage "search_tracks"
    args Samples.seeded
  = (Returned {| Server.text := Some "Error: Search query cannot be empty";
                 Server.isError := true |}, Samples.seeded, []).
Proof.
  cbv zeta.
  destruct (refused_arguments_shown Cases.idleClient Cases.mcpErrorMessage
              {| Server.arg_query := Some (Js.utf8 160);
                 Server.arg_limit := Some 0;
                 Server.arg_track_uri := None; Server.arg_device_id := None;
                 Server.arg_action := None; Server.arg_playlist_id := None |}
              Samples.seeded) as (Hquery & _ & _ & _ & Hlimit & _).
  split.
  - destruct (Hlimit 0 eq_refl) as (Hplaylists & _); [lia|].
    exact Hplaylists.
  - apply Hquery. reflexivity.
Defined.
